(** * Ganesha: access control, privileged daemon, client fallback and sessions

    A shallow embedding of
      - [ganesha/daemon/access_control.py] (patterns, presets,
        [AccessController]),
      - [ganesha/daemon/privileged.py]     ([PrivilegedDaemon._process_request]),
      - [ganesha/daemon/client.py]         ([PrivilegedClient._execute_direct]),
      - [ganesha/core/engine.py]           ([Session], [GaneshaEngine.execute]).

    Python's [re] module is a library the program calls; it is embedded here
    as a regular-expression syntax tree, a parser for the pattern syntax the
    program uses, and a matcher that computes the set of end positions of a
    match.  Commands are strings over 8-bit characters; the character classes
    ([\s], [\w], [\d], case folding) are Python's on the ASCII range.

    Layout: the embedding of the program; the definitions the statements
    use; lemmas on the matcher ([ReSemFacts]), on trimming ([TrimFacts]) and
    on case ([Fold]); then the properties of the access controller, of
    sessions, of the daemon and of the client. *)

From Stdlib Require Import String Ascii Bool Arith PeanoNat Lia ZArith List.
From Stdlib Require DecimalString.
Import ListNotations.

Set Implicit Arguments.

(* ===================================================================== *)
(** ** Characters *)
(* ===================================================================== *)

Module Chars.

Definition code (a : ascii) : nat := nat_of_ascii a.

Definition in_range (lo hi x : ascii) : bool :=
  (code lo <=? code x) && (code x <=? code hi).

(** [str.isspace] on the ASCII range: TAB LF VT FF CR, FS GS RS US, SPACE.
    The same set is used by [str.strip()] and by [\s]. *)
Definition is_space (a : ascii) : bool :=
  let n := code a in
  ((9 <=? n) && (n <=? 13)) || ((28 <=? n) && (n <=? 32)).

Definition is_digit (a : ascii) : bool := in_range "0" "9" a.
Definition is_upper (a : ascii) : bool := in_range "A" "Z" a.
Definition is_lower (a : ascii) : bool := in_range "a" "z" a.

(** [\w]: letters, digits and the underscore. *)
Definition is_word (a : ascii) : bool :=
  is_digit a || is_upper a || is_lower a || Ascii.eqb a "_".

Definition to_lower (a : ascii) : ascii :=
  if is_upper a then ascii_of_nat (code a + 32) else a.

Definition to_upper (a : ascii) : ascii :=
  if is_lower a then ascii_of_nat (code a - 32) else a.

Definition newline : ascii := ascii_of_nat 10.

End Chars.
Import Chars.

(* ===================================================================== *)
(** ** Strings: [strip], [lower], substring test *)
(* ===================================================================== *)

Module Str.

Definition chars (s : string) : list ascii := list_ascii_of_string s.

Fixpoint lstrip (l : list ascii) : list ascii :=
  match l with
  | [] => []
  | x :: t => if is_space x then lstrip t else l
  end.

Definition rstrip (l : list ascii) : list ascii := rev (lstrip (rev l)).

(** [str.strip()] *)
Definition strip (l : list ascii) : list ascii := rstrip (lstrip l).

(** [str.lower()] *)
Definition lower (l : list ascii) : list ascii := map to_lower l.

Fixpoint starts_with (p l : list ascii) : bool :=
  match p, l with
  | [], _ => true
  | _ :: _, [] => false
  | a :: p', b :: l' => Ascii.eqb a b && starts_with p' l'
  end.

(** [needle in hay] on strings *)
Fixpoint contains (needle hay : list ascii) : bool :=
  starts_with needle hay ||
  match hay with
  | [] => false
  | _ :: t => contains needle t
  end.

End Str.
Import Str.

(* ===================================================================== *)
(** ** Regular expressions: the part of Python's [re] the program uses *)
(* ===================================================================== *)

Module Re.

(** Items of a bracketed set [[...]] and the class escapes. *)
Inductive cset_item : Type :=
| CChar (c : ascii)
| CRange (lo hi : ascii)
| CSpace
| CDigit
| CWord.

(** A test that consumes exactly one character. *)
Inductive ctest : Type :=
| TChr (c : ascii)                           (* a literal character *)
| TAny                                       (* [.]: anything but a newline *)
| TSet (neg : bool) (items : list cset_item) (* [[...]], [[^...]], [\s], [\S], [\d], ... *).

(** Zero-width assertions. *)
Inductive assertion : Type :=
| Bol       (* [^] *)
| Eol       (* [$] *)
| WordB     (* [\b] *).

Inductive regex : Type :=
| Eps
| One (t : ctest)
| Seq (r1 r2 : regex)
| Alt (r1 r2 : regex)
| Star (r : regex)
| Assert (a : assertion)
| NegLook (r : regex)                        (* [(?!...)] *).

(** *** Matching one character *)

Definition chr_eq (ic : bool) (c x : ascii) : bool :=
  if ic then Ascii.eqb (to_lower c) (to_lower x) else Ascii.eqb c x.

Definition item_match (ic : bool) (it : cset_item) (x : ascii) : bool :=
  match it with
  | CChar c => chr_eq ic c x
  | CRange lo hi =>
      in_range lo hi x
      || (ic && (in_range lo hi (to_lower x) || in_range lo hi (to_upper x)))
  | CSpace => is_space x
  | CDigit => is_digit x
  | CWord => is_word x
  end.

Definition ctest_match (ic : bool) (t : ctest) (x : ascii) : bool :=
  match t with
  | TChr c => chr_eq ic c x
  | TAny => negb (Ascii.eqb x newline)
  | TSet neg items => xorb neg (existsb (fun it => item_match ic it x) items)
  end.

(** *** The matcher

    [ends ic s r i] lists the positions [j] such that [r] matches the slice
    [s[i..j)] of the subject [s], the assertions being evaluated in the
    whole of [s].  A pattern without back-references has a match under
    Python's backtracking search exactly when such a [j] exists. *)

Section Matcher.

Variable ic : bool.          (* re.IGNORECASE *)
Variable s : list ascii.     (* the subject *)

Definition word_at (i : nat) : bool :=
  match nth_error s i with
  | Some x => is_word x
  | None => false
  end.

Definition word_before (i : nat) : bool :=
  match i with
  | 0 => false
  | S k => word_at k
  end.

(** [$] without MULTILINE: at the end, or just before a final newline. *)
Definition at_eol (i : nat) : bool :=
  (i =? length s)
  || ((S i =? length s) &&
      match nth_error s i with
      | Some x => Ascii.eqb x newline
      | None => false
      end).

Definition assert_holds (a : assertion) (i : nat) : bool :=
  match a with
  | Bol => i =? 0
  | Eol => at_eol i
  | WordB => xorb (word_before i) (word_at i)
  end.

Definition one_ends (t : ctest) (i : nat) : list nat :=
  match nth_error s i with
  | Some x => if ctest_match ic t x then [S i] else []
  | None => []
  end.

(** Iterating a body [f]; an iteration that consumes nothing adds no new
    end position and is dropped, so [fuel] bounds the number of rounds. *)
Fixpoint star_ends (f : nat -> list nat) (fuel : nat) (i : nat) : list nat :=
  match fuel with
  | 0 => [i]
  | S n =>
      i :: flat_map (fun k => if i <? k then star_ends f n k else []) (f i)
  end.

Fixpoint ends (r : regex) (i : nat) : list nat :=
  match r with
  | Eps => [i]
  | One t => one_ends t i
  | Seq r1 r2 => nodup Nat.eq_dec (flat_map (ends r2) (ends r1 i))
  | Alt r1 r2 => ends r1 i ++ ends r2 i
  | Star r1 => nodup Nat.eq_dec (star_ends (ends r1) (S (length s)) i)
  | Assert a => if assert_holds a i then [i] else []
  | NegLook r1 =>
      match ends r1 i with
      | [] => [i]
      | _ :: _ => []
      end
  end.

Definition matches_at (r : regex) (i : nat) : bool :=
  match ends r i with
  | [] => false
  | _ :: _ => true
  end.

End Matcher.

(** A compiled pattern: the expression and its flags. *)
Record Pattern : Type := mkPattern {
  pat_re : regex;
  pat_ignorecase : bool
}.

(** [pattern.search(text)]: a match starting anywhere. *)
Definition search (p : Pattern) (text : list ascii) : bool :=
  existsb (matches_at (pat_ignorecase p) text (pat_re p))
          (seq 0 (S (length text))).

(** [pattern.match(text)]: a match starting at position 0. *)
Definition match_ (p : Pattern) (text : list ascii) : bool :=
  matches_at (pat_ignorecase p) text (pat_re p) 0.

(** *** The parser: [re.compile] on the syntax the program's patterns use

    Literals, [.], [^], [$], escapes ([\s \S \d \D \w \W \b] and escaped
    punctuation), bracketed sets with ranges, groups [( )] and [(?: )],
    negative look-ahead [(?! )], alternation, and the quantifiers [* + ?].
    Anything else is rejected with [None]. *)

Local Open Scope char_scope.

Definition is_alnum (c : ascii) : bool := is_digit c || is_upper c || is_lower c.

(** [\x] outside a set. *)
Definition escape_atom (e : ascii) : option regex :=
  match e with
  | "s" => Some (One (TSet false [CSpace]))
  | "S" => Some (One (TSet true [CSpace]))
  | "d" => Some (One (TSet false [CDigit]))
  | "D" => Some (One (TSet true [CDigit]))
  | "w" => Some (One (TSet false [CWord]))
  | "W" => Some (One (TSet true [CWord]))
  | "b" => Some (Assert WordB)
  | _ => if is_alnum e then None else Some (One (TChr e))
  end.

(** [\x] inside a set. *)
Definition escape_item (e : ascii) : option cset_item :=
  match e with
  | "s" => Some CSpace
  | "d" => Some CDigit
  | "w" => Some CWord
  | _ => if is_alnum e then None else Some (CChar e)
  end.

Fixpoint parse_set (n : nat) (l : list ascii) (acc : list cset_item)
  : option (list cset_item * list ascii) :=
  match n with
  | 0 => None
  | S n =>
      match l with
      | [] => None
      | "]" :: rest => Some (rev acc, rest)
      | "\" :: e :: rest =>
          match escape_item e with
          | Some it => parse_set n rest (it :: acc)
          | None => None
          end
      | "\" :: [] => None
      | lo :: "-" :: "]" :: rest => Some (rev (CChar "-" :: CChar lo :: acc), rest)
      | _ :: "-" :: "\" :: _ => None
      | lo :: "-" :: hi :: rest =>
          if Nat.leb (code lo) (code hi) then parse_set n rest (CRange lo hi :: acc)
          else None
      | c :: rest => parse_set n rest (CChar c :: acc)
      end
  end.

Definition quantify (r : regex) (l : list ascii) : option (regex * list ascii) :=
  let no_second (q : regex) (rest : list ascii) :=
    match rest with
    | "*" :: _ | "+" :: _ | "?" :: _ | "{" :: _ => None
    | _ => Some (q, rest)
    end in
  match l with
  | "*" :: rest => no_second (Star r) rest
  | "+" :: rest => no_second (Seq r (Star r)) rest
  | "?" :: rest => no_second (Alt r Eps) rest
  | "{" :: _ => None
  | _ => Some (r, l)
  end.

Definition seq_snoc (acc : option regex) (r : regex) : regex :=
  match acc with
  | None => r
  | Some a => Seq a r
  end.

Definition seq_done (acc : option regex) : regex :=
  match acc with
  | None => Eps
  | Some a => a
  end.

Fixpoint parse_alt (n : nat) (l : list ascii) : option (regex * list ascii) :=
  match n with
  | 0 => None
  | S n =>
      match parse_seq n l None with
      | Some (r1, "|" :: rest) =>
          match parse_alt n rest with
          | Some (r2, rest') => Some (Alt r1 r2, rest')
          | None => None
          end
      | other => other
      end
  end
with parse_seq (n : nat) (l : list ascii) (acc : option regex)
  : option (regex * list ascii) :=
  match n with
  | 0 => None
  | S n =>
      match l with
      | [] => Some (seq_done acc, l)
      | "|" :: _ => Some (seq_done acc, l)
      | ")" :: _ => Some (seq_done acc, l)
      | _ =>
          match parse_atom n l with
          | Some (a, rest) =>
              match quantify a rest with
              | Some (q, rest') => parse_seq n rest' (Some (seq_snoc acc q))
              | None => None
              end
          | None => None
          end
      end
  end
with parse_atom (n : nat) (l : list ascii) : option (regex * list ascii) :=
  match n with
  | 0 => None
  | S n =>
      let group (wrap : regex -> regex) (body : list ascii) :=
        match parse_alt n body with
        | Some (r, ")" :: rest) => Some (wrap r, rest)
        | _ => None
        end in
      let set (neg : bool) (body : list ascii) :=
        match parse_set (S (length body)) body [] with
        | Some ([], _) => None
        | Some (items, rest) => Some (One (TSet neg items), rest)
        | None => None
        end in
      match l with
      | [] => None
      | "(" :: "?" :: "!" :: body => group NegLook body
      | "(" :: "?" :: ":" :: body => group (fun r => r) body
      | "(" :: "?" :: _ => None
      | "(" :: body => group (fun r => r) body
      | "[" :: "^" :: body => set true body
      | "[" :: body => set false body
      | "." :: rest => Some (One TAny, rest)
      | "^" :: rest => Some (Assert Bol, rest)
      | "$" :: rest => Some (Assert Eol, rest)
      | "\" :: e :: rest =>
          match escape_atom e with
          | Some r => Some (r, rest)
          | None => None
          end
      | "\" :: [] => None
      | "*" :: _ | "+" :: _ | "?" :: _ | "{" :: _ | "}" :: _ | ")" :: _
      | "|" :: _ | "]" :: _ => None
      | c :: rest => Some (One (TChr c), rest)
      end
  end.

Definition parse (src : string) : option regex :=
  let l := chars src in
  match parse_alt (4 * length l + 4) l with
  | Some (r, []) => Some r
  | _ => None
  end.

(** [re.compile(p, flags)]; [None] stands for [re.error]. *)
Definition compile (ignorecase : bool) (src : string) : option Pattern :=
  match parse src with
  | Some r => Some (mkPattern r ignorecase)
  | None => None
  end.

(** [[re.compile(p, flags) for p in srcs]] *)
Fixpoint compile_all (ignorecase : bool) (srcs : list string)
  : option (list Pattern) :=
  match srcs with
  | [] => Some []
  | p :: t =>
      match compile ignorecase p, compile_all ignorecase t with
      | Some c, Some cs => Some (c :: cs)
      | _, _ => None
      end
  end.

(** [re.search(p, text, flags)] with the pattern given as source text. *)
Definition re_search (ignorecase : bool) (src : string) (text : list ascii) : bool :=
  match compile ignorecase src with
  | Some p => search p text
  | None => false
  end.

End Re.
Import Re.

Local Open Scope string_scope.


(* ===================================================================== *)
(** ** [access_control.py] *)
(* ===================================================================== *)

(** Access level presets. *)
Inductive AccessLevel : Type :=
| RESTRICTED      (* Read-only, safe commands *)
| STANDARD        (* Common sysadmin tasks *)
| ELEVATED        (* Package management, service control *)
| FULL_ACCESS     (* Everything *)
| WHITELIST       (* Only explicitly allowed *)
| BLACKLIST       (* Everything except denied *).

(** [level.value] *)
Definition level_value (l : AccessLevel) : string :=
  match l with
  | RESTRICTED => "restricted"
  | STANDARD => "standard"
  | ELEVATED => "elevated"
  | FULL_ACCESS => "full_access"
  | WHITELIST => "whitelist"
  | BLACKLIST => "blacklist"
  end.

(** [AccessLevel(value)]; [None] stands for [ValueError]. *)
Definition AccessLevel_of_value (v : string) : option AccessLevel :=
  if String.eqb v "restricted" then Some RESTRICTED
  else if String.eqb v "standard" then Some STANDARD
  else if String.eqb v "elevated" then Some ELEVATED
  else if String.eqb v "full_access" then Some FULL_ACCESS
  else if String.eqb v "whitelist" then Some WHITELIST
  else if String.eqb v "blacklist" then Some BLACKLIST
  else None.

(** [a == b] on levels. *)
Definition AccessLevel_eqb (a b : AccessLevel) : bool :=
  match a, b with
  | RESTRICTED, RESTRICTED | STANDARD, STANDARD | ELEVATED, ELEVATED
  | FULL_ACCESS, FULL_ACCESS | WHITELIST, WHITELIST | BLACKLIST, BLACKLIST => true
  | _, _ => false
  end.

Record AccessPolicy : Type := mkAccessPolicy {
  level : AccessLevel;
  whitelist : list string;
  blacklist : list string;
  allowed_paths : list string;
  denied_paths : list string;
  require_approval_for_high_risk : bool;
  audit_all_commands : bool;
  max_execution_time : Z          (* seconds *)
}.

(** The dataclass defaults: [AccessPolicy()]. *)
Definition AccessPolicy_default : AccessPolicy :=
  mkAccessPolicy STANDARD [] [] [] [] true true 300.

(** SECURITY-CRITICAL: ALWAYS DENIED.
    These patterns are NEVER allowed regardless of access level. *)
Definition ALWAYS_DENIED : list string := [
    (* SELF-INVOCATION PROTECTION *)
    "ganesha\s+.*--auto";
    "ganesha\s+.*-A\b";
    "ganesha\s+.*--yes";
    "ganesha\s+.*-y\b";
    "ganesha-daemon\s+.*--level\s+full";
    "ganesha-config\s+.*set-level\s+full";
    "ganesha-config\s+.*reset";
    "python.*ganesha.*--auto";
    "python.*ganesha.*-A\b";
    (* Prevent manipulation of the program's own config and logs *)
    "(rm|mv|cp|cat\s*>|echo\s*>).*\.ganesha/";
    "(rm|mv|cp|cat\s*>|echo\s*>).*/etc/ganesha/";
    "(rm|mv|cp|cat\s*>|echo\s*>).*/var/log/ganesha/";
    (* Prevent clearing system logs *)
    "(rm|truncate|cat\s*/dev/null\s*>).*(/var/log/syslog|/var/log/messages)";
    "journalctl\s+--vacuum";
    "(rm|truncate).*\.xsession-errors";
    (* CATASTROPHIC SYSTEM DESTRUCTION *)
    "rm\s+(-rf?|--recursive)\s+/\s*$";
    "rm\s+(-rf?|--recursive)\s+/\*";
    "rm\s+(-rf?|--recursive)\s+/home\s*$";
    "rm\s+(-rf?|--recursive)\s+/etc\s*$";
    "rm\s+(-rf?|--recursive)\s+/var\s*$";
    "rm\s+(-rf?|--recursive)\s+/usr\s*$";
    (* Fork bombs and resource exhaustion *)
    ":\(\)\s*\{\s*:\|:&\s*\}\s*;:";
    "\.\/\s*\S+\s*\|\s*\.\/\s*\S+\s*&";
    (* Disk destruction *)
    "dd\s+.*of=/dev/[sh]d[a-z]\s*$";
    "mkfs\s+.*\s+/dev/[sh]d[a-z][0-9]*";
    "wipefs";
    (* Bootloader/firmware destruction *)
    "dd\s+.*of=/dev/nvme";
    "flashrom";
    (* Network exfiltration of sensitive data *)
    "(curl|wget|nc)\s+.*(/etc/shadow|/etc/passwd|\.ssh/)";
    (* Credential theft *)
    "cat\s+.*\.ssh/(id_rsa|id_ed25519)\s*\|";
    (* Kernel manipulation *)
    "insmod\s+.*\.ko";
    "rmmod";
    "echo\s+.*>\s*/proc/sys";
    (* Disable security *)
    "setenforce\s+0";
    "systemctl\s+(stop|disable)\s+.*firewall";
    "ufw\s+disable";
    "iptables\s+-F"
  ].

(** MANIPULATION DETECTION: phrases that suggest the LLM is being
    manipulated. *)
Definition MANIPULATION_INDICATORS : list string := [
    "ignore\s+(previous|prior|above)\s+(instructions?|rules?|constraints?)";
    "disregard\s+(safety|security|restrictions?)";
    "pretend\s+(you\s+)?(are|can|have)";
    "act\s+as\s+if\s+(there\s+)?(are\s+)?no\s+(rules?|restrictions?)";
    "bypass\s+(the\s+)?(safety|security|consent)";
    "override\s+(the\s+)?(safety|security|consent)";
    "you\s+(must|should|have\s+to)\s+(always\s+)?approve";
    "automatically\s+(approve|accept|allow|run)";
    "without\s+(asking|confirmation|consent|approval)";
    "skip\s+(the\s+)?(confirmation|consent|approval|check)";
    "trust\s+me";
    "i('m|\s+am)\s+(the\s+)?(admin|root|owner|authorized)";
    "emergency\s+(override|access|mode)";
    "maintenance\s+mode";
    "debug\s+mode.*all\s+access"
  ].

(** A preset: its own patterns and the preset it inherits from. *)
Record Preset : Type := mkPreset {
  allowed_patterns : list string;
  inherits : option string
}.

Definition PRESET_RESTRICTED : Preset := mkPreset [
    (* File viewing (read-only) *)
    "^cat\s+";
    "^less\s+";
    "^head\s+";
    "^tail\s+";
    "^ls\s+";
    "^ls$";
    "^find\s+.*-type";
    "^file\s+";
    "^stat\s+";
    "^wc\s+";
    (* System info (read-only) *)
    "^uname\s+";
    "^hostname$";
    "^uptime$";
    "^whoami$";
    "^id$";
    "^groups$";
    "^df\s+";
    "^du\s+";
    "^free\s+";
    "^lscpu$";
    "^lsblk$";
    "^lspci$";
    "^lsusb$";
    "^lsof\s+";
    "^ps\s+";
    "^top\s+-b\s+-n\s*1";
    "^htop\s+--no-color.*-t";
    (* Network info (read-only) *)
    "^ip\s+(addr|link|route)\s*(show)?";
    "^ifconfig$";
    "^netstat\s+";
    "^ss\s+";
    "^ping\s+-c\s+\d+\s+";
    "^dig\s+";
    "^nslookup\s+";
    "^host\s+";
    (* Service status (read-only) *)
    "^systemctl\s+status\s+";
    "^systemctl\s+is-active\s+";
    "^systemctl\s+is-enabled\s+";
    "^systemctl\s+list-units";
    "^service\s+\S+\s+status$";
    (* Docker info (read-only) *)
    "^docker\s+(ps|images|info|version|inspect)";
    "^docker\s+logs\s+";
    (* Package info (read-only) *)
    "^apt\s+(list|show|search)";
    "^apt-cache\s+";
    "^dpkg\s+-[lLsS]";
    "^pip\s+(list|show|freeze)";
    "^pip3\s+(list|show|freeze)";
    "^npm\s+(list|ls|view)";
    (* Git info (read-only) *)
    "^git\s+(status|log|diff|branch|remote|show)";
    (* Env/config viewing *)
    "^env$";
    "^printenv";
    "^echo\s+\$"
  ] None.

Definition PRESET_STANDARD : Preset := mkPreset [
    (* File operations (safe) *)
    "^mkdir\s+";
    "^touch\s+";
    "^cp\s+";
    "^mv\s+";
    "^rm\s+(?!-rf?\s+/)";
    "^chmod\s+";
    "^chown\s+";
    "^ln\s+";
    (* Text processing *)
    "^grep\s+";
    "^awk\s+";
    "^sed\s+";
    "^sort\s+";
    "^uniq\s+";
    "^cut\s+";
    "^tr\s+";
    (* Archives *)
    "^tar\s+";
    "^gzip\s+";
    "^gunzip\s+";
    "^zip\s+";
    "^unzip\s+";
    (* Network tools *)
    "^curl\s+(?!.*(/etc/shadow|\.ssh/))";
    "^wget\s+(?!.*(/etc/shadow|\.ssh/))";
    (* Process management (own processes) *)
    "^kill\s+\d+";
    "^pkill\s+";
    "^killall\s+";
    (* Docker (safe operations) *)
    "^docker\s+(pull|run|stop|start|restart|rm|exec)";
    "^docker-compose\s+";
    (* Git operations *)
    "^git\s+(add|commit|push|pull|fetch|checkout|merge|rebase)";
    (* Editors (for scripts) *)
    "^nano\s+";
    "^vim?\s+";
    (* Python/Node *)
    "^python3?\s+";
    "^pip3?\s+install\s+--user";
    "^node\s+";
    "^npm\s+(install|run|start|test)";
    (* Cron (user crontab) *)
    "^crontab\s+"
  ] (Some "restricted").

Definition PRESET_ELEVATED : Preset := mkPreset [
    (* Package management *)
    "^apt\s+(update|upgrade|install|remove|purge|autoremove)";
    "^apt-get\s+";
    "^dpkg\s+-i";
    "^pip3?\s+install(?!\s+--user)";
    "^npm\s+install\s+-g";
    (* Service control *)
    "^systemctl\s+(start|stop|restart|reload|enable|disable)\s+";
    "^service\s+\S+\s+(start|stop|restart|reload)$";
    (* Docker privileged *)
    "^docker\s+(build|network|volume)";
    (* System configuration *)
    "^hostnamectl\s+";
    "^timedatectl\s+";
    "^localectl\s+";
    (* User management (limited) *)
    "^useradd\s+";
    "^usermod\s+";
    "^passwd\s+";
    "^groupadd\s+";
    (* Firewall (safe rules) *)
    "^ufw\s+(allow|deny|status|enable)";
    (* Disk operations (safe) *)
    "^mount\s+";
    "^umount\s+";
    "^lsblk\s+";
    "^blkid\s+"
  ] (Some "standard").

Definition PRESET_FULL_ACCESS : Preset := mkPreset [
    ".*"
  ] (Some "elevated").

(** The dictionary [PRESETS]; the two custom levels have no entry. *)
Definition PRESETS (l : AccessLevel) : option Preset :=
  match l with
  | RESTRICTED => Some PRESET_RESTRICTED
  | STANDARD => Some PRESET_STANDARD
  | ELEVATED => Some PRESET_ELEVATED
  | FULL_ACCESS => Some PRESET_FULL_ACCESS
  | WHITELIST | BLACKLIST => None
  end.

(** The [while inherits:] loop of [_compile_patterns]: the patterns of the
    parents, nearest first.  [None] stands for the [ValueError] of an
    unknown level name; [fuel] bounds the length of the chain. *)
Fixpoint inherited_patterns (fuel : nat) (inh : option string)
  : option (list string) :=
  match inh with
  | None => Some []
  | Some name =>
      match fuel with
      | 0 => None
      | S n =>
          match AccessLevel_of_value name with
          | None => None
          | Some parent_level =>
              match PRESETS parent_level with
              | None => Some []          (* PRESETS.get(parent_level, {}) *)
              | Some parent =>
                  match inherited_patterns n (inherits parent) with
                  | Some more => Some (allowed_patterns parent ++ more)%list
                  | None => None
                  end
              end
          end
      end
  end.

(** The pattern sources collected into [allowed] by [_compile_patterns]. *)
Definition preset_sources (l : AccessLevel) : option (list string) :=
  match PRESETS l with
  | None => Some []
  | Some preset =>
      match inherited_patterns 6 (inherits preset) with
      | Some more => Some (allowed_patterns preset ++ more)%list
      | None => None
      end
  end.

(** The state of an [AccessController] after [__init__]. *)
Record AccessController : Type := mkAccessController {
  policy : AccessPolicy;
  _always_denied : list Pattern;
  _manipulation_patterns : list Pattern;
  _preset_allowed : list Pattern;
  _whitelist : list Pattern;
  _blacklist : list Pattern
}.

(** [AccessController(policy)], that is [_compile_patterns]; [None] when a
    pattern does not compile. *)
Definition _compile_patterns (p : AccessPolicy) : option AccessController :=
  match Re.compile_all true ALWAYS_DENIED,
        Re.compile_all true MANIPULATION_INDICATORS,
        preset_sources (level p) with
  | Some ad, Some mp, Some allowed =>
      match Re.compile_all false allowed,
            Re.compile_all false (whitelist p),
            Re.compile_all false (blacklist p) with
      | Some pa, Some wl, Some bl => Some (mkAccessController p ad mp pa wl bl)
      | _, _, _ => None
      end
  | _, _, _ => None
  end.


Definition self_invoke_patterns : list string := [
    "ganesha\s+.*--auto";
    "ganesha\s+.*-A\b";
    "ganesha\s+.*--yes";
    "python.*ganesha.*--auto"
  ].

(** [is_self_invocation]: is the command trying to call Ganesha with bypass
    flags. *)
Definition is_self_invocation (ac : AccessController) (command : string) : bool :=
  existsb (fun p => Re.re_search true p (chars command)) self_invoke_patterns.

(** The result of [check_command]: (allowed, risk_level, reason). *)
Definition Decision : Type := (bool * string * string)%type.

Definition dec_allowed (d : Decision) : bool := fst (fst d).
Definition dec_risk (d : Decision) : string := snd (fst d).
Definition dec_reason (d : Decision) : string := snd d.

Definition check_command (ac : AccessController) (command : string) : Decision :=
  let command := strip (chars command) in
  (* Step 1: Always-denied patterns (security critical) *)
  if existsb (fun p => Re.search p command) (_always_denied ac) then
    (false, "critical", "Command matches security-critical deny pattern")
  (* Step 2: Check blacklist *)
  else if existsb (fun p => Re.search p command) (_blacklist ac) then
    (false, "high", "Command matches blacklist pattern")
  (* Step 3: Whitelist mode - must match whitelist *)
  else if AccessLevel_eqb (level (policy ac)) WHITELIST then
    if existsb (fun p => Re.search p command) (_whitelist ac) then
      (true, "low", "Matched whitelist")
    else
      (false, "medium", "Command not in whitelist")
  (* Step 4: Blacklist mode - allowed unless blacklisted *)
  else if AccessLevel_eqb (level (policy ac)) BLACKLIST then
    (true, "medium", "Not in blacklist")
  (* Step 5: Preset mode - check against preset patterns *)
  else if existsb (fun p => Re.match_ p command) (_preset_allowed ac) then
    (true, "low", "Allowed by " ++ level_value (level (policy ac)) ++ " preset")
  (* Default: deny *)
  else
    (false, "medium",
     "Command not allowed by " ++ level_value (level (policy ac)) ++ " preset").

(** [get_risk_level]: assess the risk level of a command. *)
Definition get_risk_level (ac : AccessController) (command : string) : string :=
  let command_lower := lower (chars command) in
  let any (markers : list string) :=
    existsb (fun m => contains (chars m) command_lower) markers in
  if any ["rm -rf"; "dd if="; "mkfs"; "> /dev/"; "chmod 777 /"] then "critical"
  else if any ["rm -r"; "sudo"; "su -"; "chmod"; "chown"; "kill -9";
               "systemctl stop"; "service stop"; "iptables"] then "high"
  else if any ["install"; "remove"; "delete"; "modify"; "update";
               "mv /"; "cp /"; "docker run"] then "medium"
  else "low".

(** [AccessController(policy).check_command(command)]; [None] when the
    constructor raises. *)
Definition check_with (p : AccessPolicy) (command : string) : option Decision :=
  match _compile_patterns p with
  | Some ac => Some (check_command ac command)
  | None => None
  end.

(** The order of the four risk levels. *)
Definition risk_rank (r : string) : nat :=
  if String.eqb r "critical" then 3
  else if String.eqb r "high" then 2
  else if String.eqb r "medium" then 1
  else 0.

(** [policy.whitelist.append(pattern)] and [policy.blacklist.append(pattern)]
    as done by the configuration tool. *)
Definition append_whitelist (p : AccessPolicy) (pattern : string) : AccessPolicy :=
  mkAccessPolicy (level p) (whitelist p ++ [pattern])%list (blacklist p)
    (allowed_paths p) (denied_paths p) (require_approval_for_high_risk p)
    (audit_all_commands p) (max_execution_time p).

Definition append_blacklist (p : AccessPolicy) (pattern : string) : AccessPolicy :=
  mkAccessPolicy (level p) (whitelist p) (blacklist p ++ [pattern])%list
    (allowed_paths p) (denied_paths p) (require_approval_for_high_risk p)
    (audit_all_commands p) (max_execution_time p).

(* ===================================================================== *)
(** ** Child processes, as [asyncio] runs them *)
(* ===================================================================== *)

Module Proc.

(** What happens to a command handed to [create_subprocess_shell] and then
    awaited with [wait_for(process.communicate(), timeout)]. *)
Inductive Outcome : Type :=
| SpawnFails (msg : string)                       (* the spawn raises *)
| Exits (returncode : Z) (stdout stderr : string) (* ends within the time *)
| TimesOut                                        (* [asyncio.TimeoutError] *).

(** The operating system: the outcome of a command, given its working
    directory and the time allowed to it. *)
Definition OS : Type := string -> string -> Z -> Outcome.

(** The calls made on the child, in order. *)
Inductive Event : Type :=
| Spawn (command cwd : string)   (* create_subprocess_shell(command, cwd=cwd) *)
| WaitFor (timeout : Z)          (* wait_for(process.communicate(), timeout) *)
| Kill                           (* process.kill() *)
| Wait                           (* process.wait() *).

(** [await process.wait()] after [process.kill()].  The kill reaches the
    shell alone, and the wait returns once the shell has ended and the
    pipes to it are closed: it does not return while a process that the
    command started still holds them.  Given the command and its working
    directory, [true] says that the wait returns. *)
Definition Reaping : Type := string -> string -> bool.

Definition is_wait (e : Event) : bool :=
  match e with
  | Wait => true
  | _ => false
  end.

(** [str(n)] for an integer. *)
Definition str_Z (z : Z) : string := DecimalString.NilZero.string_of_int (Z.to_int z).

(** [s[:n]] *)
Definition prefix (n : nat) (s : string) : string := String.substring 0 n s.

End Proc.


(* ===================================================================== *)
(** ** [privileged.py]: the privileged daemon *)
(* ===================================================================== *)

Module Daemon.
Import Proc.

(** Request from the unprivileged client. *)
Record CommandRequest : Type := mkCommandRequest {
  command : string;
  working_dir : string;
  timeout : Z;
  request_id : string;
  user : string;
  timestamp : string
}.

(** Response to the unprivileged client. *)
Record CommandResponse : Type := mkCommandResponse {
  success : bool;
  output : string;
  error : string;
  exit_code : Z;
  risk_level : string;
  response_request_id : string;
  execution_time_ms : Z
}.

(** One line of the audit log (its time stamp left out). *)
Record AuditEntry : Type := mkAuditEntry {
  entry_action : string;
  entry_user : string;
  entry_command : string;
  entry_allowed : bool;
  entry_risk_level : string;
  entry_reason : string;
  entry_result : option string
}.

(** [AuditLogger.log]: the entry appended to the log. *)
Definition log (action user command : string) (allowed : bool)
    (risk_level reason : string) (result : option string) : AuditEntry :=
  mkAuditEntry action user
    (prefix 500 command)                      (* Truncate long commands *)
    allowed risk_level reason
    match result with
    | Some r => if String.eqb r "" then None else Some (prefix 200 r)
    | None => None
    end.

(** The time given to [asyncio.wait_for] by [_process_request]. *)
Definition wait_timeout (ac : AccessController) (request : CommandRequest) : Z :=
  Z.min (timeout request) (max_execution_time (policy ac)).

(** [_process_request]: the response, the audit entries written and the
    calls made on the child.  [os] is the operating system and [elapsed_ms]
    the time read from the clock when the response is built.  In the
    time-out arm the response is built after [process.wait()] on the killed
    child, so it is the response of a run in which that wait returns;
    [answer] below says when there is one. *)
Definition _process_request (os : OS) (elapsed_ms : Z)
    (ac : AccessController) (request : CommandRequest)
  : CommandResponse * list AuditEntry * list Event :=
  (* Check access *)
  let '(allowed, risk_level, reason) := check_command ac (command request) in
  if negb allowed then
    (mkCommandResponse false "" ("Access denied: " ++ reason) (-1) risk_level
       (request_id request) 0,
     [log "command_denied" (user request) (command request) false risk_level
          reason None],
     [])
  else
    (* Execute command *)
    match os (command request) (working_dir request) (wait_timeout ac request) with
    | SpawnFails e =>
        (mkCommandResponse false "" e (-1) risk_level (request_id request)
           elapsed_ms,
         [log "command_error" (user request) (command request) true risk_level
              e None],
         [Spawn (command request) (working_dir request)])
    | TimesOut =>
        (mkCommandResponse false ""
           ("Command timed out after " ++ str_Z (timeout request) ++ "s")
           (-1) risk_level (request_id request) elapsed_ms,
         [],
         [Spawn (command request) (working_dir request);
          WaitFor (wait_timeout ac request); Kill; Wait])
    | Exits returncode stdout stderr =>
        (mkCommandResponse (returncode =? 0)%Z stdout stderr returncode
           risk_level (request_id request) elapsed_ms,
         [log "command_executed" (user request) (command request) true
              risk_level reason (Some ("exit_code=" ++ str_Z returncode))],
         [Spawn (command request) (working_dir request);
          WaitFor (wait_timeout ac request)])
    end.

Definition response (r : CommandResponse * list AuditEntry * list Event) := fst (fst r).
Definition audit (r : CommandResponse * list AuditEntry * list Event) := snd (fst r).
Definition calls (r : CommandResponse * list AuditEntry * list Event) := snd r.

(** The response [_process_request] returns, [None] when it does not
    return.  Every call of a run returns, with the outcome [os] gives,
    except [process.wait()] on the killed child, which returns when
    [reaping] says so. *)
Definition answer (os : OS) (reaping : Reaping) (elapsed_ms : Z)
    (ac : AccessController) (request : CommandRequest) : option CommandResponse :=
  let r := _process_request os elapsed_ms ac request in
  if existsb is_wait (calls r)
     && negb (reaping (command request) (working_dir request))
  then None
  else Some (response r).

End Daemon.

(* ===================================================================== *)
(** ** [client.py]: the client of the daemon and its fallback *)
(* ===================================================================== *)

Module Client.
Import Proc.

(** Result from privileged execution. *)
Record PrivilegedResult : Type := mkPrivilegedResult {
  success : bool;
  output : string;
  error : string;
  exit_code : Z;
  risk_level : string;
  execution_time_ms : Z;
  used_daemon : bool    (* True if ran via daemon, False if direct *)
}.

Record PrivilegedClient : Type := mkPrivilegedClient {
  socket_path : string;
  _policy : option AccessPolicy;
  _controller : option AccessController
}.

(** The first lines of [_execute_direct]: load the local policy once.
    [loaded] is what [load_policy()] returns, [None] when it raises. *)
Definition ensure_controller (loaded : option AccessPolicy)
    (self : PrivilegedClient) : PrivilegedClient :=
  match _controller self with
  | Some _ => self
  | None =>
      match loaded with
      | None => self
      | Some p => mkPrivilegedClient (socket_path self) (Some p) (_compile_patterns p)
      end
  end.

(** [_execute_direct]: execute directly without the daemon.  Returns the
    result, the client afterwards and the calls made on the child.  As in
    the daemon, the result of the time-out arm is built after
    [process.wait()] on the killed child: it is the result of a run in
    which that wait returns. *)
Definition _execute_direct (os : OS) (elapsed_ms : Z)
    (loaded : option AccessPolicy) (self : PrivilegedClient)
    (command working_dir : string) (timeout : Z)
  : PrivilegedResult * PrivilegedClient * list Event :=
  (* Check local policy if available *)
  let self := ensure_controller loaded self in
  let risk_level :=
    match _controller self with
    | Some ac => dec_risk (check_command ac command)
    | None => "unknown"
    end in
  match os command working_dir timeout with
  | SpawnFails e =>
      (mkPrivilegedResult false "" e (-1) risk_level elapsed_ms false, self,
       [Spawn command working_dir])
  | TimesOut =>
      (mkPrivilegedResult false ""
         ("Command timed out after " ++ str_Z timeout ++ "s") (-1) risk_level
         elapsed_ms false,
       self,
       [Spawn command working_dir; WaitFor timeout; Kill; Wait])
  | Exits returncode stdout stderr =>
      (mkPrivilegedResult (returncode =? 0)%Z stdout stderr returncode
         risk_level elapsed_ms false,
       self,
       [Spawn command working_dir; WaitFor timeout])
  end.

(** [execute]: through the daemon when it is available ([daemon] is then the
    round trip to it), else directly. *)
Definition execute (daemon : option (string -> string -> Z -> PrivilegedResult))
    (os : OS) (elapsed_ms : Z) (loaded : option AccessPolicy)
    (self : PrivilegedClient) (command working_dir : string) (timeout : Z)
  : PrivilegedResult * PrivilegedClient * list Event :=
  match daemon with
  | Some _execute_via_daemon =>
      (_execute_via_daemon command working_dir timeout, self, [])
  | None => _execute_direct os elapsed_ms loaded self command working_dir timeout
  end.

Definition result (r : PrivilegedResult * PrivilegedClient * list Event) := fst (fst r).
Definition calls (r : PrivilegedResult * PrivilegedClient * list Event) := snd r.

End Client.

(* ===================================================================== *)
(** ** [engine.py]: sessions, rollback and the execution loop *)
(* ===================================================================== *)

Module Engine.

(** State of a task in the execution pipeline. *)
Inductive TaskState : Type :=
| PENDING | PLANNING | AWAITING_CONSENT | EXECUTING | ITERATING
| COMPLETED | FAILED | CANCELLED.

(** Types of actions Ganesha can take. *)
Inductive ActionType : Type :=
| SHELL_COMMAND | FILE_READ | FILE_WRITE | FILE_DELETE
| CODE_GENERATE | CODE_EXECUTE | API_CALL | SYSTEM_INFO.

(** A single action to be executed. *)
Record Action : Type := mkAction {
  id : string;
  type : ActionType;
  command : string;
  explanation : string;
  reversible : bool;
  rollback_command : option string;
  risk_level : string;
  requires_consent : bool
}.

(** A plan consisting of multiple actions. *)
Record ExecutionPlan : Type := mkExecutionPlan {
  plan_id : string;
  plan_task : string;
  actions : list Action
}.

(** Result of executing an action or plan. *)
Record ExecutionResult : Type := mkExecutionResult {
  success : bool;
  output : string;
  error : string;
  duration_ms : Z;
  action_id : option string
}.

(** An execution session with full history for rollback (its time stamps
    left out). *)
Record Session : Type := mkSession {
  session_id : string;
  task : string;
  state : TaskState;
  plan : option ExecutionPlan;
  executed_actions : list Action;
  results : list ExecutionResult
}.

Definition set_state (s : Session) (st : TaskState) : Session :=
  mkSession (session_id s) (task s) st (plan s) (executed_actions s) (results s).

Definition set_plan (s : Session) (p : ExecutionPlan) : Session :=
  mkSession (session_id s) (task s) (state s) (Some p) (executed_actions s)
    (results s).

Definition add_result (s : Session) (action : Action) (result : ExecutionResult)
  : Session :=
  mkSession (session_id s) (task s) (state s) (plan s)
    (executed_actions s ++ [action])%list (results s ++ [result])%list.

(** Truth value of an [Optional[str]]. *)
Definition truthy (o : option string) : bool :=
  match o with
  | Some c => negb (String.eqb c "")
  | None => false
  end.

Definition text_of (o : option string) : string :=
  match o with
  | Some c => c
  | None => ""
  end.

(** The loop of [get_rollback_actions] over the reversed history.  A new
    [Action] draws its [id] from the generator: [uuid k] is the [k]-th
    identifier generated. *)
Fixpoint rollback_loop (uuid : nat -> string) (k : nat) (history : list Action)
  : list Action :=
  match history with
  | [] => []
  | action :: rest =>
      if reversible action && truthy (rollback_command action) then
        mkAction (uuid k) (type action) (text_of (rollback_command action))
          ("Rollback: " ++ explanation action) true None "low" true
        :: rollback_loop uuid (S k) rest
      else rollback_loop uuid k rest
  end.

(** [Session.get_rollback_actions]: actions needed to rollback this
    session. *)
Definition get_rollback_actions (uuid : nat -> string) (s : Session)
  : list Action :=
  rollback_loop uuid 0 (rev (executed_actions s)).

(** The engine: its settings, and a consent handler when there is one
    ([inl] stands for an exception with its message). *)
Record GaneshaEngine : Type := mkGaneshaEngine {
  auto_approve : bool;
  consent : option (ExecutionPlan -> bool -> string + (bool * list string))
}.

(** What the engine calls: the planner (the LLM and the parsing of its
    answer), the execution of one action and the planning of a recovery.
    The number is the count of actions executed so far. *)
Record World : Type := mkWorld {
  plan_task_with_llm : string -> string + ExecutionPlan;  (* self.plan(task, context) *)
  _execute_action : nat -> Action -> ExecutionResult;
  _plan_recovery : nat -> Action -> ExecutionResult -> option ExecutionPlan
}.

(** [_get_consent] *)
Definition _get_consent (self : GaneshaEngine) (p : ExecutionPlan)
  : string + (bool * list string) :=
  if auto_approve self then inr (true, map id (actions p))
  else
    match consent self with
    | Some handler => handler p (auto_approve self)
    | None => inr (true, map id (actions p))       (* Default: approve all *)
    end.

(** What one pass of [for action in plan.actions] leaves behind. *)
Record Pass : Type := mkPass {
  pass_session : Session;
  pass_yield : list ExecutionResult;
  pass_clock : nat;
  pass_all_success : bool;
  pass_new_plan : option ExecutionPlan     (* set by [plan = recovery_plan; break] *)
}.

Fixpoint run_actions (w : World) (approved_ids : list string) (may_recover : bool)
    (todo : list Action) (sess : Session) (yielded : list ExecutionResult)
    (clock : nat) (all_success : bool) : Pass :=
  match todo with
  | [] => mkPass sess yielded clock all_success None
  | action :: rest =>
      if negb (existsb (String.eqb (id action)) approved_ids) then
        run_actions w approved_ids may_recover rest sess yielded clock all_success
      else
        let result := _execute_action w clock action in
        let sess := add_result sess action result in
        let yielded := (yielded ++ [result])%list in
        let clock := S clock in
        if success result then
          run_actions w approved_ids may_recover rest sess yielded clock all_success
        else
          (* all_success = False; try to recover *)
          match (if may_recover then _plan_recovery w clock action result else None) with
          | Some recovery_plan => mkPass sess yielded clock false (Some recovery_plan)
          | None =>
              run_actions w approved_ids may_recover rest sess yielded clock false
          end
  end.

(** [while iteration < max_iterations]; [remaining] is
    [max_iterations - iteration]. *)
Fixpoint iterate (w : World) (approved_ids : list string) (max_iterations : nat)
    (remaining : nat) (p : ExecutionPlan) (sess : Session)
    (yielded : list ExecutionResult) (clock : nat)
  : Session * list ExecutionResult :=
  match remaining with
  | 0 => (sess, yielded)
  | S remaining' =>
      let iteration := max_iterations - remaining' in     (* iteration += 1 *)
      let pass := run_actions w approved_ids (iteration <? max_iterations)%nat
                    (actions p) sess yielded clock true in
      let p := match pass_new_plan pass with
               | Some recovery_plan => recovery_plan
               | None => p
               end in
      if pass_all_success pass then (pass_session pass, pass_yield pass)
      else iterate w approved_ids max_iterations remaining' p
             (pass_session pass) (pass_yield pass) (pass_clock pass)
  end.

(** [GaneshaEngine.execute]: the session as it is saved at the end, and the
    results yielded. *)
Definition execute (self : GaneshaEngine) (w : World) (session_id task : string)
    (max_iterations : nat) : Session * list ExecutionResult :=
  (* Start session *)
  let sess := mkSession session_id task PLANNING None [] [] in
  (* Plan *)
  match plan_task_with_llm w task with
  | inl e => (set_state sess FAILED, [mkExecutionResult false "" e 0 None])
  | inr p =>
      let sess := set_plan sess p in
      (* Get consent *)
      let sess := set_state sess AWAITING_CONSENT in
      match _get_consent self p with
      | inl e => (set_state sess FAILED, [mkExecutionResult false "" e 0 None])
      | inr (approved, approved_ids) =>
          if negb approved then
            (set_state sess CANCELLED,
             [mkExecutionResult false "" "User cancelled" 0 None])
          else
            (* Execute with iteration *)
            let sess := set_state sess EXECUTING in
            let '(sess, yielded) :=
              iterate w approved_ids max_iterations max_iterations p sess [] 0 in
            (set_state sess COMPLETED, yielded)
      end
  end.

End Engine.

(* ===================================================================== *)
(** ** [access_control.py], [config_cli.py]: the policy on disk *)
(* ===================================================================== *)

Module Config.

(** A decoded configuration file: the keys of its JSON object that the
    policy reads, [None] for a key that is absent. *)
Record ConfigData : Type := mkConfigData {
  cfg_level : option string;
  cfg_whitelist : option (list string);
  cfg_blacklist : option (list string);
  cfg_allowed_paths : option (list string);
  cfg_denied_paths : option (list string);
  cfg_require_approval_for_high_risk : option bool;
  cfg_audit_all_commands : option bool;
  cfg_max_execution_time : option Z
}.

(** A configuration file: absent, present but not decodable as a JSON
    object, or holding a configuration. *)
Inductive FileState : Type :=
| Missing
| Unreadable
| Holds (c : ConfigData).

(** The two canonical locations. *)
Inductive ConfigPath : Type :=
| SYSTEM_CONFIG_PATH     (* /etc/ganesha/privilege.json *)
| CONFIG_PATH            (* ~/.ganesha/privilege.json *).

(** The two files.  Writing is taken to succeed: the tool runs with the
    rights the location needs. *)
Record Store : Type := mkStore {
  system_file : FileState;
  user_file : FileState
}.

Definition read (st : Store) (path : ConfigPath) : FileState :=
  match path with
  | SYSTEM_CONFIG_PATH => system_file st
  | CONFIG_PATH => user_file st
  end.

Definition write (st : Store) (path : ConfigPath) (f : FileState) : Store :=
  match path with
  | SYSTEM_CONFIG_PATH => mkStore f (user_file st)
  | CONFIG_PATH => mkStore (system_file st) f
  end.

(** [path.exists()] *)
Definition file_exists (st : Store) (path : ConfigPath) : bool :=
  match read st path with
  | Missing => false
  | _ => true
  end.

(** [DEFAULT_CONFIG], as the module defines it.  [load_policy] hands its
    lists to the policy without copying them, so an append to the policy of
    a file that lacks the key changes the default for the rest of the
    process; every operation below is one run of the tool, a process of its
    own, which starts from this value. *)
Definition DEFAULT_CONFIG : ConfigData :=
  mkConfigData (Some "standard") (Some []) (Some []) (Some ["/tmp"; "/home"])
    (Some ["/etc/shadow"; "/etc/sudoers"]) (Some true) (Some true) (Some 300%Z).

(** [config.update(user_config)], key by key. *)
Definition update (config user_config : ConfigData) : ConfigData :=
  let pick (A : Type) (field : ConfigData -> option A) : option A :=
    match field user_config with
    | Some v => Some v
    | None => field config
    end in
  mkConfigData (pick _ cfg_level) (pick _ cfg_whitelist) (pick _ cfg_blacklist)
    (pick _ cfg_allowed_paths) (pick _ cfg_denied_paths)
    (pick _ cfg_require_approval_for_high_risk) (pick _ cfg_audit_all_commands)
    (pick _ cfg_max_execution_time).

(** The last statement of [load_policy]: [AccessPolicy(level=AccessLevel(
    config["level"]), ...)]; [None] stands for the [KeyError] of a missing
    key or the [ValueError] of an unknown level. *)
Definition policy_of_config (config : ConfigData) : option AccessPolicy :=
  match cfg_level config, cfg_whitelist config, cfg_blacklist config,
        cfg_allowed_paths config, cfg_denied_paths config,
        cfg_require_approval_for_high_risk config, cfg_audit_all_commands config,
        cfg_max_execution_time config with
  | Some lv, Some wl, Some bl, Some ap, Some dp, Some ra, Some au, Some mx =>
      match AccessLevel_of_value lv with
      | Some l => Some (mkAccessPolicy l wl bl ap dp ra au mx)
      | None => None
      end
  | _, _, _, _, _, _, _, _ => None
  end.

(** [load_policy(config_path)]: load the access policy from a config
    file. *)
Definition load_policy (st : Store) (config_path : option ConfigPath)
  : option AccessPolicy :=
  let config_path :=
    match config_path with
    | Some path => Some path
    | None =>
        (* Check locations in order *)
        if file_exists st SYSTEM_CONFIG_PATH then Some SYSTEM_CONFIG_PATH
        else if file_exists st CONFIG_PATH then Some CONFIG_PATH
        else None
    end in
  let config :=
    match config_path with
    | Some path =>
        match read st path with
        | Holds user_config => update DEFAULT_CONFIG user_config
        | Unreadable => DEFAULT_CONFIG      (* Warning: Could not load config *)
        | Missing => DEFAULT_CONFIG
        end
    | None => DEFAULT_CONFIG
    end in
  policy_of_config config.

(** The dictionary written by [save_policy]. *)
Definition config_of_policy (p : AccessPolicy) : ConfigData :=
  mkConfigData (Some (level_value (level p))) (Some (whitelist p))
    (Some (blacklist p)) (Some (allowed_paths p)) (Some (denied_paths p))
    (Some (require_approval_for_high_risk p)) (Some (audit_all_commands p))
    (Some (max_execution_time p)).

(** [save_policy(policy, config_path)] *)
Definition save_policy (st : Store) (p : AccessPolicy) (config_path : ConfigPath)
  : Store :=
  write st config_path (Holds (config_of_policy p)).

(** *** The configuration tool *)

Definition set_policy_level (p : AccessPolicy) (l : AccessLevel) : AccessPolicy :=
  mkAccessPolicy l (whitelist p) (blacklist p) (allowed_paths p) (denied_paths p)
    (require_approval_for_high_risk p) (audit_all_commands p)
    (max_execution_time p).

Definition set_whitelist (p : AccessPolicy) (wl : list string) : AccessPolicy :=
  mkAccessPolicy (level p) wl (blacklist p) (allowed_paths p) (denied_paths p)
    (require_approval_for_high_risk p) (audit_all_commands p)
    (max_execution_time p).

Definition set_blacklist (p : AccessPolicy) (bl : list string) : AccessPolicy :=
  mkAccessPolicy (level p) (whitelist p) bl (allowed_paths p) (denied_paths p)
    (require_approval_for_high_risk p) (audit_all_commands p)
    (max_execution_time p).

(** [x in l] *)
Definition mem (x : string) (l : list string) : bool := existsb (String.eqb x) l.

(** [l.remove(x)], for [x] in [l]: drops the first occurrence. *)
Fixpoint remove_first (x : string) (l : list string) : list string :=
  match l with
  | [] => []
  | y :: t => if String.eqb y x then t else y :: remove_first x t
  end.

(** [CONFIG_PATH if not args.system else SYSTEM_CONFIG_PATH] *)
Definition path_for (system : bool) : ConfigPath :=
  if system then SYSTEM_CONFIG_PATH else CONFIG_PATH.

(** [load_policy(config_path if config_path.exists() else None)] *)
Definition load_for_edit (st : Store) (config_path : ConfigPath)
  : option AccessPolicy :=
  load_policy st (if file_exists st config_path then Some config_path else None).

(** The operations of the tool return the store afterwards; [None] stands
    for an exception that ends the tool. *)

Definition set_level (st : Store) (level_arg : string) (system : bool)
  : option Store :=
  match AccessLevel_of_value level_arg with
  | None => Some st                                   (* Invalid level *)
  | Some l =>
      let config_path := path_for system in
      match load_for_edit st config_path with
      | None => None
      | Some p => Some (save_policy st (set_policy_level p l) config_path)
      end
  end.

Definition add_whitelist (st : Store) (pattern : string) (system : bool)
  : option Store :=
  let config_path := path_for system in
  match load_for_edit st config_path with
  | None => None
  | Some p =>
      if negb (mem pattern (whitelist p)) then
        Some (save_policy st (append_whitelist p pattern) config_path)
      else Some st                                    (* already in whitelist *)
  end.

Definition remove_whitelist (st : Store) (pattern : string) (system : bool)
  : option Store :=
  let config_path := path_for system in
  match load_for_edit st config_path with
  | None => None
  | Some p =>
      if mem pattern (whitelist p) then
        Some (save_policy st (set_whitelist p (remove_first pattern (whitelist p)))
                config_path)
      else Some st                                    (* not in whitelist *)
  end.

Definition add_blacklist (st : Store) (pattern : string) (system : bool)
  : option Store :=
  let config_path := path_for system in
  match load_for_edit st config_path with
  | None => None
  | Some p =>
      if negb (mem pattern (blacklist p)) then
        Some (save_policy st (append_blacklist p pattern) config_path)
      else Some st
  end.

Definition remove_blacklist (st : Store) (pattern : string) (system : bool)
  : option Store :=
  let config_path := path_for system in
  match load_for_edit st config_path with
  | None => None
  | Some p =>
      if mem pattern (blacklist p) then
        Some (save_policy st (set_blacklist p (remove_first pattern (blacklist p)))
                config_path)
      else Some st
  end.

(** [reset_config]: delete the file. *)
Definition reset_config (st : Store) (system : bool) : Store :=
  write st (path_for system) Missing.

(** [test_command]: the decision the tool prints; [None] when loading the
    policy or building the controller raises. *)
Definition test_command (st : Store) (command : string) : option Decision :=
  match load_policy st None with
  | Some p => check_with p command
  | None => None
  end.

(** [main] of the daemon: the policy it runs with.  [level_arg] is the
    value of [--level], one of the four choices ([standard] when the option
    is not given); [None] when the argument is refused or loading raises. *)
Definition daemon_level_choices : list string :=
  ["restricted"; "standard"; "elevated"; "full_access"].

Definition daemon_main_policy (st : Store) (config : option ConfigPath)
    (level_arg : option string) : option AccessPolicy :=
  let level_arg := match level_arg with Some a => a | None => "standard" end in
  if negb (mem level_arg daemon_level_choices) then None
  else
    match load_policy st config with
    | None => None
    | Some p =>
        match AccessLevel_of_value level_arg with
        | Some l => Some (set_policy_level p l)
        | None => None
        end
    end.

End Config.

(* ===================================================================== *)
(** ** [privileged.py], [client.py]: one connection, from both ends *)
(* ===================================================================== *)

Module Wire.
Import Proc.

(** What the daemon reads from a connection. *)
Inductive Received : Type :=
| NoData                                   (* the peer closed: [if not data] *)
| Undecodable (err : string)               (* json.loads or CommandRequest raise *)
| Decoded (request : Daemon.CommandRequest).

(** What [_handle_client] does on a connection whose data arrived in time:
    the response written to the socket, if any, the audit entries and the
    calls on the child.  [peer] is the user name found from the peer
    credentials, [None] when they cannot be read. *)
Definition _handle_client (os : OS) (elapsed_ms : Z) (ac : AccessController)
    (peer : option string) (data : Received)
  : option Daemon.CommandResponse * list Daemon.AuditEntry * list Event :=
  match data with
  | NoData => (None, [], [])
  | Undecodable e =>
      (Some (Daemon.mkCommandResponse false "" e (-1) "low" "" 0), [], [])
  | Decoded request =>
      (* Get peer credentials (user making request) *)
      let username := match peer with Some name => name | None => "unknown" end in
      let request :=
        Daemon.mkCommandRequest (Daemon.command request)
          (Daemon.working_dir request) (Daemon.timeout request)
          (Daemon.request_id request) username (Daemon.timestamp request) in
      let '(response, audit, calls) :=
        Daemon._process_request os elapsed_ms ac request in
      (Some response, audit, calls)
  end.

Definition audit (r : option Daemon.CommandResponse * list Daemon.AuditEntry * list Event) :=
  snd (fst r).
Definition calls (r : option Daemon.CommandResponse * list Daemon.AuditEntry * list Event) :=
  snd r.

(** What the client meets when it talks to the socket. *)
Inductive Transport : Type :=
| TimesOut                                 (* connecting or reading takes too long *)
| Fails (err : string)                     (* any other exception *)
| Answers (serve : Daemon.CommandRequest -> option Daemon.CommandResponse).

(** [_execute_via_daemon]: execute via the privileged daemon.  [req_id] and
    [now] are the identifier and the time stamp the client generates;
    [undecodable] is the text of the error raised when the answer is
    empty. *)
Definition _execute_via_daemon (link : Transport) (req_id now undecodable : string)
    (command working_dir : string) (timeout : Z) : Client.PrivilegedResult :=
  match link with
  | TimesOut =>
      Client.mkPrivilegedResult false "" "Timeout connecting to privileged daemon"
        (-1) "unknown" 0 true
  | Fails e =>
      Client.mkPrivilegedResult false "" ("Daemon communication error: " ++ e)
        (-1) "unknown" 0 true
  | Answers serve =>
      (* Send request *)
      let request :=
        Daemon.mkCommandRequest command working_dir timeout req_id "" now in
      (* Receive response *)
      match serve request with
      | None =>
          Client.mkPrivilegedResult false ""
            ("Daemon communication error: " ++ undecodable) (-1) "unknown" 0 true
      | Some response =>
          Client.mkPrivilegedResult (Daemon.success response)
            (Daemon.output response) (Daemon.error response)
            (Daemon.exit_code response) (Daemon.risk_level response)
            (Daemon.execution_time_ms response) true
      end
  end.

End Wire.

(* ===================================================================== *)
(** ** [engine.py]: running one action, stored sessions, rollback *)
(* ===================================================================== *)

Module Exec.
Import Engine.

(** What [subprocess.run(command, shell=True, timeout=300)] does. *)
Inductive ShellOutcome : Type :=
| Completed (returncode : Z) (stdout stderr : string)
| Expired                                 (* subprocess.TimeoutExpired *)
| ShellRaises (msg : string).

(** A call that returns or raises. *)
Inductive Answer (A : Type) : Type :=
| Returns (a : A)
| Raises (msg : string).

Arguments Returns {A} a.
Arguments Raises {A} msg.

(** The machine the engine runs on. *)
Record Host : Type := mkHost {
  subprocess_run : string -> ShellOutcome;
  path_exists : string -> bool;                   (* Path(p).exists() *)
  read_text : string -> Answer string;            (* Path(p).read_text() *)
  mkdir_parent : string -> Answer unit;           (* Path(p).parent.mkdir(...) *)
  write_text : string -> string -> Answer unit;   (* Path(p).write_text(c) *)
  path_str : string -> string                     (* str(Path(p)) *)
}.

(** The calls made on the machine, in order. *)
Inductive Call : Type :=
| CallRun (command : string)
| CallExists (path : string)
| CallReadText (path : string)
| CallMkdirParent (path : string)
| CallWriteText (path content : string).

(** [s.split(sep, 1)] when it gives two parts: the text before the first
    occurrence of [sep] and the text after it. *)
Fixpoint split_once (sep s : list ascii) : option (list ascii * list ascii) :=
  if starts_with sep s then Some ([], skipn (length sep) s)
  else
    match s with
    | [] => None
    | c :: t =>
        match split_once sep t with
        | Some (before, after) => Some (c :: before, after)
        | None => None
        end
    end.

(** [str(action.type)] *)
Definition type_name (t : ActionType) : string :=
  match t with
  | SHELL_COMMAND => "ActionType.SHELL_COMMAND"
  | FILE_READ => "ActionType.FILE_READ"
  | FILE_WRITE => "ActionType.FILE_WRITE"
  | FILE_DELETE => "ActionType.FILE_DELETE"
  | CODE_GENERATE => "ActionType.CODE_GENERATE"
  | CODE_EXECUTE => "ActionType.CODE_EXECUTE"
  | API_CALL => "ActionType.API_CALL"
  | SYSTEM_INFO => "ActionType.SYSTEM_INFO"
  end.

(** [_execute_action]: execute a single action.  Returns the result and the
    calls made; [duration] is the time measured. *)
Definition _execute_action (h : Host) (duration : Z) (action : Action)
  : ExecutionResult * list Call :=
  let finish (success : bool) (output error : string) (calls : list Call) :=
    (mkExecutionResult success output error duration (Some (id action)), calls) in
  match type action with
  | SHELL_COMMAND =>
      match subprocess_run h (command action) with
      | Completed returncode stdout stderr =>
          let success := (returncode =? 0)%Z in
          finish success stdout (if success then "" else stderr)
            [CallRun (command action)]
      | Expired => finish false "" "Command timed out" [CallRun (command action)]
      | ShellRaises e => finish false "" e [CallRun (command action)]
      end
  | FILE_READ =>
      if path_exists h (command action) then
        match read_text h (command action) with
        | Returns text =>
            finish true text ""
              [CallExists (command action); CallReadText (command action)]
        | Raises e =>
            finish false "" e
              [CallExists (command action); CallReadText (command action)]
        end
      else
        finish false "" ("File not found: " ++ command action)
          [CallExists (command action)]
  | FILE_WRITE =>
      (* command format: "path|||content" *)
      match split_once (chars "|||") (chars (command action)) with
      | Some (before, after) =>
          let path := string_of_list_ascii before in
          let content := string_of_list_ascii after in
          match mkdir_parent h path with
          | Raises e => finish false "" e [CallMkdirParent path]
          | Returns _ =>
              match write_text h path content with
              | Raises e =>
                  finish false "" e
                    [CallMkdirParent path; CallWriteText path content]
              | Returns _ =>
                  finish true ("Written to " ++ path_str h path) ""
                    [CallMkdirParent path; CallWriteText path content]
              end
          end
      | None => finish false "" "Invalid file write format" []
      end
  | _ =>
      finish false "" ("Unsupported action type: " ++ type_name (type action)) []
  end.

(** *** Sessions on disk *)

Definition state_value (s : TaskState) : string :=
  match s with
  | PENDING => "pending"
  | PLANNING => "planning"
  | AWAITING_CONSENT => "awaiting_consent"
  | EXECUTING => "executing"
  | ITERATING => "iterating"
  | COMPLETED => "completed"
  | FAILED => "failed"
  | CANCELLED => "cancelled"
  end.

(** [TaskState(value)] *)
Definition TaskState_of_value (v : string) : option TaskState :=
  find (fun s => String.eqb (state_value s) v)
    [PENDING; PLANNING; AWAITING_CONSENT; EXECUTING; ITERATING; COMPLETED;
     FAILED; CANCELLED].

Definition type_value (t : ActionType) : string :=
  match t with
  | SHELL_COMMAND => "shell_command"
  | FILE_READ => "file_read"
  | FILE_WRITE => "file_write"
  | FILE_DELETE => "file_delete"
  | CODE_GENERATE => "code_generate"
  | CODE_EXECUTE => "code_execute"
  | API_CALL => "api_call"
  | SYSTEM_INFO => "system_info"
  end.

(** [ActionType(value)] *)
Definition ActionType_of_value (v : string) : option ActionType :=
  find (fun t => String.eqb (type_value t) v)
    [SHELL_COMMAND; FILE_READ; FILE_WRITE; FILE_DELETE; CODE_GENERATE;
     CODE_EXECUTE; API_CALL; SYSTEM_INFO].

(** An entry of [executed_actions] in a session file.  The first four keys
    are read with [data[key]]; [reversible] and [rollback_command] with
    [data.get], so they may be absent. *)
Record ActionData : Type := mkActionData {
  ad_id : string;
  ad_type : string;
  ad_command : string;
  ad_explanation : string;
  ad_reversible : option bool;
  ad_rollback_command : option string;      (* absent or null: [None] *)
  ad_risk_level : option string
}.

Record ResultData : Type := mkResultData {
  rd_success : bool;
  rd_output : string;
  rd_error : string;
  rd_duration_ms : Z;
  rd_action_id : option string
}.

(** A session file (its time stamps left out). *)
Record SessionData : Type := mkSessionData {
  sd_id : string;
  sd_task : string;
  sd_state : string;
  sd_executed_actions : option (list ActionData);
  sd_results : list ResultData
}.

(** [Action.to_dict] *)
Definition Action_to_dict (a : Action) : ActionData :=
  mkActionData (id a) (type_value (type a)) (command a) (explanation a)
    (Some (reversible a)) (rollback_command a) (Some (risk_level a)).

(** [ExecutionResult.to_dict] *)
Definition Result_to_dict (r : ExecutionResult) : ResultData :=
  mkResultData (success r) (Proc.prefix 1000 (output r)) (error r)
    (duration_ms r) (action_id r).

(** The dictionary written by [_save_session]. *)
Definition session_to_data (s : Session) : SessionData :=
  mkSessionData (session_id s) (task s) (state_value (state s))
    (Some (map Action_to_dict (executed_actions s)))
    (map Result_to_dict (results s)).

(** The [Action] built from an entry by [_load_session]; [None] stands for
    the [ValueError] of an unknown type. *)
Definition action_of_data (d : ActionData) : option Action :=
  match ActionType_of_value (ad_type d) with
  | Some t =>
      Some (mkAction (ad_id d) t (ad_command d) (ad_explanation d)
              match ad_reversible d with Some b => b | None => true end
              (ad_rollback_command d) "low" true)
  | None => None
  end.

Fixpoint actions_of_data (l : list ActionData) : option (list Action) :=
  match l with
  | [] => Some []
  | d :: t =>
      match action_of_data d, actions_of_data t with
      | Some a, Some rest => Some (a :: rest)
      | _, _ => None
      end
  end.

(** What [_load_session] gives. *)
Inductive Loaded : Type :=
| NotFound                      (* returns None *)
| LoadRaises                    (* an unknown state or action type *)
| Found (s : Session).

(** [_load_session], on the selected file when there is one. *)
Definition _load_session (file : option SessionData) : Loaded :=
  match file with
  | None => NotFound
  | Some data =>
      match TaskState_of_value (sd_state data),
            actions_of_data match sd_executed_actions data with
                            | Some l => l
                            | None => []
                            end with
      | Some st, Some acts =>
          Found (mkSession (sd_id data) (sd_task data) st None acts [])
      | _, _ => LoadRaises
      end
  end.

(** Running a list of actions one after the other; the number is the count
    of actions executed so far. *)
Fixpoint run_each (w : World) (clock : nat) (todo : list Action)
  : list ExecutionResult :=
  match todo with
  | [] => []
  | action :: rest =>
      Engine._execute_action w clock action :: run_each w (S clock) rest
  end.

(** [GaneshaEngine.rollback]: the results yielded; [None] when loading
    raises. *)
Definition rollback (w : World) (uuid : nat -> string) (file : option SessionData)
  : option (list ExecutionResult) :=
  match _load_session file with
  | LoadRaises => None
  | NotFound => Some [mkExecutionResult false "" "Session not found" 0 None]
  | Found session =>
      match get_rollback_actions uuid session with
      | [] =>
          Some [mkExecutionResult false "" "No reversible actions to rollback" 0 None]
      | rollback_actions => Some (run_each w 0 rollback_actions)
      end
  end.

End Exec.

(* ===================================================================== *)
(** ** [cli/main.py]: consent at the terminal *)
(* ===================================================================== *)

Module CLI.
Import Engine.

Record CLIConsentHandler : Type := mkCLIConsentHandler {
  handler_auto_approve : bool
}.

(** [choice in options], [choice] being [input().strip().lower()]. *)
Definition chosen (line : string) (options : list string) : bool :=
  existsb (String.eqb (string_of_list_ascii (lower (strip (chars line))))) options.

(** The loop over the actions of the plan.  [inputs] are the lines typed,
    [None] for an interrupt; when they run out, [input()] raises
    [EOFError].  The result is [None] when the loop returns [False, []]. *)
Fixpoint ask (todo : list Action) (inputs : list (option string))
    (all_approved : bool) (approved_ids : list string) : option (list string) :=
  match todo with
  | [] => Some approved_ids
  | action :: rest =>
      if all_approved then
        ask rest inputs true (approved_ids ++ [id action])%list
      else
        match inputs with
        | [] => None
        | None :: _ => None
        | Some line :: more =>
            if chosen line ["y"; "yes"; ""] then
              ask rest more false (approved_ids ++ [id action])%list
            else if chosen line ["a"; "all"] then
              ask rest more true (approved_ids ++ [id action])%list
            else if chosen line ["c"; "cancel"; "q"; "quit"] then None
            else ask rest more false approved_ids          (* Skipped *)
        end
  end.

(** [CLIConsentHandler.request_consent] *)
Definition request_consent (self : CLIConsentHandler) (p : ExecutionPlan)
    (auto_approve : bool) (inputs : list (option string)) : bool * list string :=
  if auto_approve || handler_auto_approve self then (true, map id (actions p))
  else
    match ask (actions p) inputs false [] with
    | None => (false, [])
    | Some [] => (false, [])                               (* No actions approved *)
    | Some approved_ids => (true, approved_ids)
    end.

(** The engine the command line builds: consent asked at the terminal. *)
Definition engine_with_terminal (auto : bool) (inputs : list (option string))
  : GaneshaEngine :=
  mkGaneshaEngine auto
    (Some (fun p auto_approve =>
             inr (request_consent (mkCLIConsentHandler auto) p auto_approve inputs))).

End CLI.

(* ===================================================================== *)
(** ** Declarative reading of the patterns *)
(* ===================================================================== *)

Module ReSem.

(** Iteration of a relation on positions, each round moving forward. *)
Inductive star_rel (R : nat -> nat -> Prop) : nat -> nat -> Prop :=
| star_refl : forall i, star_rel R i i
| star_step : forall i k j, R i k -> i < k -> star_rel R k j -> star_rel R i j.

Section Sem.

Variable ic : bool.
Variable s : list ascii.

(** [M r i j]: the expression [r] matches the slice [s[i..j)]. *)
Fixpoint M (r : regex) (i j : nat) : Prop :=
  match r with
  | Eps => j = i
  | One t =>
      exists x, nth_error s i = Some x /\ ctest_match ic t x = true /\ j = S i
  | Seq r1 r2 => exists k, M r1 i k /\ M r2 k j
  | Alt r1 r2 => M r1 i j \/ M r2 i j
  | Star r1 => star_rel (M r1) i j
  | Assert a => assert_holds s a i = true /\ j = i
  | NegLook r1 => (forall k, ~ M r1 i k) /\ j = i
  end.

End Sem.

End ReSem.

(* ===================================================================== *)
(** ** Conditions under which trimming keeps a match *)
(* ===================================================================== *)

Module Trim.

(** The white-space characters. *)
Definition space_chars : list ascii :=
  map ascii_of_nat [9; 10; 11; 12; 13; 28; 29; 30; 31; 32].

(** A run of white space. *)
Definition all_space (l : list ascii) : Prop := Forall (fun x => is_space x = true) l.

(** Position [p] of [s] holds a character that is not white space. *)
Definition nonws_at (s : list ascii) (p : nat) : Prop :=
  exists x, nth_error s p = Some x /\ is_space x = false.

(** *** Syntactic conditions on a pattern *)

(** No [^], no [$], no look-ahead. *)
Fixpoint simple (r : regex) : bool :=
  match r with
  | Eps | One _ | Assert WordB => true
  | Seq r1 r2 | Alt r1 r2 => simple r1 && simple r2
  | Star r1 => simple r1
  | Assert Bol | Assert Eol | NegLook _ => false
  end.

(** The test accepts no white-space character. *)
Definition nonws_test (ic : bool) (t : ctest) : bool :=
  forallb (fun x => negb (ctest_match ic t x)) space_chars.

(** Every character the pattern consumes is not white space. *)
Fixpoint nows (ic : bool) (r : regex) : bool :=
  match r with
  | Eps | Assert _ => true
  | One t => nonws_test ic t
  | Seq r1 r2 | Alt r1 r2 => nows ic r1 && nows ic r2
  | Star r1 => nows ic r1
  | NegLook _ => true
  end.

(** Every match begins with a character that is not white space. *)
Fixpoint first_nonws (ic : bool) (r : regex) : bool :=
  match r with
  | One t => nonws_test ic t
  | Seq r1 _ => first_nonws ic r1
  | Alt r1 r2 => first_nonws ic r1 && first_nonws ic r2
  | _ => false
  end.

(** Every match ends with a character that is not white space. *)
Fixpoint last_nonws (ic : bool) (r : regex) : bool :=
  match r with
  | One t => nonws_test ic t
  | Seq r1 r2 =>
      if last_nonws ic r2 then true
      else if nows ic r2 then last_nonws ic r1 else false
  | Alt r1 r2 => last_nonws ic r1 && last_nonws ic r2
  | _ => false
  end.

(** Matches begin and end on characters that are not white space, and the
    pattern looks at nothing but word boundaries around them. *)
Definition good (ic : bool) (r : regex) : bool :=
  simple r && first_nonws ic r && last_nonws ic r.

(** A pattern is [tight] when its matches begin and end on characters that
    are not white space, possibly followed by [\s*$]. *)
Definition tight (ic : bool) (r : regex) : bool :=
  good ic r ||
  match r with
  | Seq (Seq core (Star (One (TSet false [CSpace])))) (Assert Eol) => good ic core
  | _ => false
  end.

End Trim.

(* ===================================================================== *)
(** ** Names used in the statements about the program *)
(* ===================================================================== *)

(** What step 1 of [check_command] returns. *)
Definition critical_deny : Decision :=
  (false, "critical", "Command matches security-critical deny pattern").

(** [any(pattern.search(text) for pattern in ps)] *)
Definition hits (ps : list Pattern) (text : list ascii) : bool :=
  existsb (fun q => Re.search q text) ps.

(** The controller built from a policy, [AccessController(p)]; an empty
    controller stands in when the constructor raises. *)
Definition controller_of (p : AccessPolicy) : AccessController :=
  match _compile_patterns p with
  | Some ac => ac
  | None => mkAccessController p [] [] [] [] []
  end.

Module EngineSpec.
Import Engine.

(** The condition of [get_rollback_actions]:
    [action.reversible and action.rollback_command]. *)
Definition rollbackable (a : Action) : bool :=
  reversible a && truthy (rollback_command a).

(** The new [Action] wrapped around a rollback command. *)
Definition wrap (new_id : string) (a : Action) : Action :=
  mkAction new_id (type a) (text_of (rollback_command a))
    ("Rollback: " ++ explanation a) true None "low" true.

(** Wrapping a list, the identifiers drawn in order from the [k]-th on. *)
Fixpoint wrap_all (uuid : nat -> string) (k : nat) (l : list Action) : list Action :=
  match l with
  | [] => []
  | a :: t => wrap (uuid k) a :: wrap_all uuid (S k) t
  end.

(** The rollback list in the words of the specification:
    [reverse(filter(executed_actions, a => a.reversible and
    a.rollback_command non-empty))], each entry wrapped into a new Action
    whose command is the original rollback command. *)
Definition rollback_actions_for (uuid : nat -> string) (s : Session) : list Action :=
  wrap_all uuid 0 (rev (filter rollbackable (executed_actions s))).

End EngineSpec.

Module DaemonSpec.
Import Proc Daemon.

(** The times handed to [wait_for], in order. *)
Definition waits (evs : list Event) : list Z :=
  flat_map (fun e => match e with WaitFor t => [t] | _ => [] end) evs.

(** The clamp in the words of the specification: [timeout_seconds] brought
    into the closed interval [[1, max_execution_time]]. *)
Definition clamp_timeout (max_time t : Z) : Z := Z.max 1 (Z.min t max_time).

End DaemonSpec.

(** The nesting of the four preset levels; the two custom levels have no
    place in it. *)
Definition preset_rank (l : AccessLevel) : option nat :=
  match l with
  | RESTRICTED => Some 0
  | STANDARD => Some 1
  | ELEVATED => Some 2
  | FULL_ACCESS => Some 3
  | WHITELIST | BLACKLIST => None
  end.

(** The patterns a level lists itself, without those it inherits. *)
Definition own_patterns (l : AccessLevel) : list string :=
  match PRESETS l with
  | Some preset => allowed_patterns preset
  | None => []
  end.

(* ===================================================================== *)
(** ** The situations used as examples *)
(* ===================================================================== *)

Module Scenario.
Import Proc.

(** Scenario policy: WHITELIST with the single pattern [^rm .*$]. *)
Definition policy_whitelist_rm : AccessPolicy :=
  mkAccessPolicy WHITELIST ["^rm .*$"] [] [] [] true true 300.

(** Scenario policy: WHITELIST mode with [^ls] on the white list. *)
Definition policy_whitelist_ls : AccessPolicy :=
  mkAccessPolicy WHITELIST ["^ls"] [] [] [] true true 300.

(** An action that always fails, approved automatically, never recovered. *)
Definition failing_action : Engine.Action :=
  Engine.mkAction "a1" Engine.SHELL_COMMAND "false" "always fails" true None "low" true.

Definition world_always_failing : Engine.World :=
  Engine.mkWorld (fun tsk => inr (Engine.mkExecutionPlan "p1" tsk [failing_action]))
          (fun _ a => Engine.mkExecutionResult false "" "exit status 1" 0 (Some (Engine.id a)))
          (fun _ _ _ => None).

Definition engine_auto_approve : Engine.GaneshaEngine := Engine.mkGaneshaEngine true None.

(** A request with time limit 0 for a command the default policy allows,
    and an operating system on which every command ends at once. *)
Definition request_zero_timeout : Daemon.CommandRequest :=
  Daemon.mkCommandRequest "ls /tmp" "/tmp" 0 "r1" "alice" "".

Definition os_quick : OS := fun _ _ _ => Exits 0 "" "".

Definition request_long_timeout : Daemon.CommandRequest :=
  Daemon.mkCommandRequest "ls /tmp" "/tmp" 9999 "r2" "alice" "".

(** An operating system where every command runs out of time. *)
Definition os_never_ends : OS := fun _ _ _ => TimesOut.

(** Two commands in one line, which the default policy allows: the shell
    runs [ls] and then starts [sleep] as a process of its own, which holds
    the pipes of the shell for thirty seconds after the shell is killed. *)
Definition request_two_commands : Daemon.CommandRequest :=
  Daemon.mkCommandRequest "ls /tmp; sleep 30" "/tmp" 1 "r4" "alice" "".

Definition pipes_held : Reaping := fun _ _ => false.

(** A client that has not loaded a policy yet; [load_policy()] finds no
    file and returns the defaults. *)
Definition fresh_client : Client.PrivilegedClient :=
  Client.mkPrivilegedClient "/var/run/ganesha/privileged.sock" None None.

End Scenario.
Import Scenario.

(* ===================================================================== *)
(** ** Facts about characters *)
(* ===================================================================== *)

Ltac all_chars x := destruct x as [[] [] [] [] [] [] [] []]; vm_compute; try reflexivity.








Lemma space_not_word (x : ascii) : is_space x = true -> is_word x = false.
Proof. all_chars x; discriminate. Qed.

Lemma newline_is_space (x : ascii) : Ascii.eqb x newline = true -> is_space x = true.
Proof. intros H. apply Ascii.eqb_eq in H. subst x. reflexivity. Qed.


Lemma space_chars_complete (x : ascii) : is_space x = true -> In x Trim.space_chars.
Proof. all_chars x; intros H; try discriminate; simpl; tauto. Qed.

(* ===================================================================== *)
(** ** The matcher computes the declarative reading of the patterns *)
(* ===================================================================== *)

Module ReSemFacts.
Import ReSem.


Section Sem.

Variable ic : bool.
Variable s : list ascii.


Lemma star_rel_le (R : nat -> nat -> Prop) i j : star_rel R i j -> i <= j.
Proof. induction 1; lia. Qed.

Lemma M_le r : forall i j, M ic s r i j -> i <= j.
Proof.
  induction r; simpl; intros i j H.
  - lia.
  - destruct H as (x & _ & _ & ->). lia.
  - destruct H as (k & H1 & H2). apply IHr1 in H1. apply IHr2 in H2. lia.
  - destruct H as [H | H]; auto.
  - eapply star_rel_le; eauto.
  - destruct H as [_ ->]. lia.
  - destruct H as [_ ->]. lia.
Qed.

Lemma M_bound r : forall i j, M ic s r i j -> i <= length s -> j <= length s.
Proof.
  induction r; simpl; intros i j H Hi.
  - lia.
  - destruct H as (x & Hx & _ & ->).
    assert (i < length s) by (apply nth_error_Some; congruence). lia.
  - destruct H as (k & H1 & H2). eauto.
  - destruct H as [H | H]; eauto.
  - induction H; eauto.
  - destruct H as [_ ->]. lia.
  - destruct H as [_ ->]. lia.
Qed.

(** The iteration computed with enough fuel is the iteration relation. *)
Section StarEnds.

Variable f : nat -> list nat.
Variable R : nat -> nat -> Prop.
Hypothesis f_R : forall k j, k <= length s -> (In j (f k) <-> R k j).
Hypothesis R_bound : forall k j, R k j -> k <= length s -> j <= length s.

Lemma star_ends_sound :
  forall fuel i j, i <= length s -> In j (star_ends f fuel i) -> star_rel R i j.
Proof.
  induction fuel as [|n IH]; simpl; intros i j Hi Hin.
  - destruct Hin as [<- | []]. constructor.
  - destruct Hin as [<- | Hin]; [constructor|].
    apply in_flat_map in Hin. destruct Hin as (k & Hk & Hj).
    destruct (Nat.ltb_spec i k) as [Hlt | Hge]; [|contradiction].
    apply f_R in Hk; [|assumption].
    eapply star_step; eauto.
Qed.

Lemma star_ends_complete :
  forall i j, star_rel R i j ->
  forall fuel, i <= length s -> length s - i < fuel -> In j (star_ends f fuel i).
Proof.
  induction 1 as [i | i k j Hik Hlt Hkj IH]; intros fuel Hi Hfuel.
  - destruct fuel; simpl; auto.
  - destruct fuel as [|n]; [lia|]. simpl. right.
    apply in_flat_map. exists k. split.
    + apply f_R; assumption.
    + destruct (Nat.ltb_spec i k); [|lia].
      apply IH; [eauto|]. assert (k <= length s) by eauto. lia.
Qed.

End StarEnds.

Theorem ends_spec r :
  forall i j, i <= length s -> (In j (ends ic s r i) <-> M ic s r i j).
Proof.
  induction r; cbn [ends M]; intros i j Hi.
  - (* Eps *) split; [intros [<- | []]; reflexivity | intros ->; simpl; auto].
  - (* One *) unfold one_ends.
    destruct (nth_error s i) as [x|] eqn:Hx.
    + destruct (ctest_match ic t x) eqn:Ht; simpl.
      * split.
        -- intros [<- | []]. exists x. auto.
        -- intros (y & Hy & _ & ->). auto.
      * split; [intros []|]. intros (y & Hy & Hm & _).
        inversion Hy; subst. congruence.
    + split; [intros []|]. intros (y & Hy & _). discriminate.
  - (* Seq *) rewrite nodup_In, in_flat_map. split.
    + intros (k & Hk & Hj). exists k.
      pose proof (proj1 (IHr1 i k Hi) Hk) as H1.
      split; [assumption|]. apply IHr2; [|assumption].
      eapply M_bound; eauto.
    + intros (k & H1 & H2). exists k. split.
      * apply IHr1; assumption.
      * apply IHr2; [|assumption]. eapply M_bound; eauto.
  - (* Alt *) rewrite in_app_iff, IHr1, IHr2 by assumption. reflexivity.
  - (* Star *) rewrite nodup_In. split.
    + intros H. eapply star_ends_sound with (R := M ic s r); try eassumption;
        first [ intros k j' Hk; apply IHr; assumption
              | intros k j'; apply M_bound ].
    + intros H. eapply star_ends_complete with (R := M ic s r); try eassumption;
        first [ intros k j' Hk; apply IHr; assumption
              | intros k j'; apply M_bound
              | lia ].
  - (* Assert *) destruct (assert_holds s a i); simpl.
    + split; [intros [<- | []]; auto | intros [_ ->]; auto].
    + split; [intros [] | intros [? _]; discriminate].
  - (* NegLook *) destruct (ends ic s r i) as [|k l] eqn:He.
    + split.
      * intros [<- | []]. split; [|reflexivity].
        intros k Hk. apply IHr in Hk; [|assumption]. rewrite He in Hk. destruct Hk.
      * intros [_ ->]. simpl. auto.
    + split; [intros []|]. intros [Hn _]. exfalso.
      apply (Hn k). apply IHr; [assumption|]. rewrite He. simpl. auto.
Qed.

Lemma matches_at_spec r i :
  i <= length s -> (matches_at ic s r i = true <-> exists j, M ic s r i j).
Proof.
  intros Hi. unfold matches_at.
  destruct (ends ic s r i) as [|k l] eqn:He.
  - split; [discriminate|]. intros (j & Hj).
    apply ends_spec in Hj; [|assumption]. rewrite He in Hj. destruct Hj.
  - split; [|reflexivity]. intros _. exists k.
    apply ends_spec; [assumption|]. rewrite He. simpl. auto.
Qed.

End Sem.

Lemma search_spec (p : Pattern) (text : list ascii) :
  Re.search p text = true <->
  exists i j, i <= length text /\ M (pat_ignorecase p) text (pat_re p) i j.
Proof.
  unfold Re.search. rewrite existsb_exists. split.
  - intros (i & Hin & Hm). apply in_seq in Hin.
    assert (Hi : i <= length text) by lia.
    apply matches_at_spec in Hm; [|assumption].
    destruct Hm as (j & Hj). eauto.
  - intros (i & j & Hi & Hm). exists i. split.
    + apply in_seq. lia.
    + apply matches_at_spec; eauto.
Qed.

Lemma match_spec (p : Pattern) (text : list ascii) :
  Re.match_ p text = true <->
  exists j, M (pat_ignorecase p) text (pat_re p) 0 j.
Proof. unfold Re.match_. apply matches_at_spec. lia. Qed.

End ReSemFacts.

(* ===================================================================== *)
(** ** [strip] and matching: patterns whose matches survive trimming *)
(* ===================================================================== *)

Module TrimFacts.
Import ReSem ReSemFacts Trim.


Lemma lstrip_split (l : list ascii) :
  exists pre, l = (pre ++ lstrip l)%list /\ all_space pre.
Proof.
  induction l as [|x t IH]; simpl.
  - exists []. split; [reflexivity | constructor].
  - destruct (is_space x) eqn:Hx.
    + destruct IH as (pre & Ht & Hpre). exists (x :: pre). split.
      * simpl. congruence.
      * constructor; assumption.
    + exists []. split; [reflexivity | constructor].
Qed.

Lemma lstrip_head (l : list ascii) (x : ascii) :
  hd_error (lstrip l) = Some x -> is_space x = false.
Proof.
  induction l as [|y t IH]; simpl; [discriminate|].
  destruct (is_space y) eqn:Hy; [assumption|].
  simpl. intros H. inversion H; subst. assumption.
Qed.

Lemma last_of_rev (A : Type) (l : list A) (x : A) :
  nth_error (rev l) (length (rev l) - 1) = Some x -> hd_error l = Some x.
Proof.
  destruct l as [|y t]; simpl.
  - discriminate.
  - rewrite length_app. simpl.
    rewrite nth_error_app2 by lia.
    replace (length (rev t) + 1 - 1 - length (rev t)) with 0 by lia.
    simpl. auto.
Qed.

(** [strip] removes a run of white space at each end, and what is left does
    not end in white space. *)
Lemma strip_split (c : list ascii) :
  exists pre post,
    c = (pre ++ strip c ++ post)%list /\ all_space pre /\ all_space post /\
    (forall x, nth_error (strip c) (length (strip c) - 1) = Some x ->
               is_space x = false).
Proof.
  destruct (lstrip_split c) as (pre & Hc & Hpre).
  destruct (lstrip_split (rev (lstrip c))) as (q & Hq & Hws).
  exists pre, (rev q). unfold strip, rstrip. repeat split.
  - rewrite <- rev_app_distr, <- Hq, rev_involutive. assumption.
  - assumption.
  - apply Forall_rev. assumption.
  - intros x Hx. apply last_of_rev in Hx. eapply lstrip_head; eauto.
Qed.


Lemma nonws_test_spec ic t x :
  nonws_test ic t = true -> ctest_match ic t x = true -> is_space x = false.
Proof.
  unfold nonws_test. rewrite forallb_forall. intros H Hm.
  destruct (is_space x) eqn:Hs; [|reflexivity].
  specialize (H x (space_chars_complete x Hs)). rewrite Hm in H. discriminate.
Qed.

Section AnySubject.

Variable ic : bool.
Variable s : list ascii.


Lemma first_nonws_spec r :
  first_nonws ic r = true ->
  forall i j, M ic s r i j -> nonws_at s i /\ i < j.
Proof.
  induction r; simpl; try discriminate; intros Hf i j Hm.
  - destruct Hm as (x & Hx & Ht & ->). split; [|lia].
    exists x. split; [assumption|]. eapply nonws_test_spec; eauto.
  - destruct Hm as (k & H1 & H2).
    destruct (IHr1 Hf _ _ H1) as [Ha Hlt]. apply M_le in H2. split; [assumption | lia].
  - apply andb_true_iff in Hf. destruct Hf as [Hf1 Hf2].
    destruct Hm as [Hm | Hm]; eauto.
Qed.

Lemma nows_spec r :
  nows ic r = true ->
  forall i j, M ic s r i j -> forall p, i <= p < j -> nonws_at s p.
Proof.
  induction r; simpl; intros Hn i j Hm p Hp.
  - lia.
  - destruct Hm as (x & Hx & Ht & ->). assert (p = i) by lia. subst p.
    exists x. split; [assumption|]. eapply nonws_test_spec; eauto.
  - apply andb_true_iff in Hn. destruct Hn as [Hn1 Hn2].
    destruct Hm as (k & H1 & H2).
    destruct (le_lt_dec k p); [eapply IHr2 | eapply IHr1]; eauto; lia.
  - apply andb_true_iff in Hn. destruct Hn as [Hn1 Hn2].
    destruct Hm as [Hm | Hm]; eauto.
  - revert p Hp. induction Hm as [i | i k j Hik Hlt Hkj IH]; intros p Hp; [lia|].
    destruct (le_lt_dec k p); [apply IH; lia|]. eapply IHr; eauto. lia.
  - destruct Hm as [_ ->]. lia.
  - destruct Hm as [_ ->]. lia.
Qed.

Lemma last_nonws_spec r :
  last_nonws ic r = true ->
  forall i j, M ic s r i j -> i < j /\ nonws_at s (j - 1).
Proof.
  induction r; simpl; try discriminate; intros Hl i j Hm.
  - destruct Hm as (x & Hx & Ht & ->). split; [lia|].
    replace (S i - 1) with i by lia.
    exists x. split; [assumption|]. eapply nonws_test_spec; eauto.
  - destruct Hm as (k & H1 & H2).
    destruct (last_nonws ic r2) eqn:Hl2.
    + destruct (IHr2 eq_refl _ _ H2) as [Hlt Ha]. apply M_le in H1.
      split; [lia | assumption].
    + destruct (nows ic r2) eqn:Hn; [|discriminate].
      destruct (IHr1 Hl _ _ H1) as [Hlt Ha].
      pose proof (M_le _ _ _ _ _ H2) as Hkj. split; [lia|].
      destruct (Nat.eq_dec k j) as [-> | Hne]; [assumption|].
      eapply nows_spec; eauto. lia.
  - apply andb_true_iff in Hl. destruct Hl as [Hl1 Hl2].
    destruct Hm as [Hm | Hm]; eauto.
Qed.

(** A run matched by [\s*] is white space. *)
Lemma star_space_spec i j :
  star_rel (M ic s (One (TSet false [CSpace]))) i j ->
  forall p, i <= p < j ->
  exists x, nth_error s p = Some x /\ is_space x = true.
Proof.
  induction 1 as [i | i k j Hik Hlt Hkj IH]; intros p Hp; [lia|].
  destruct (le_lt_dec k p); [apply IH; lia|].
  simpl in Hik. destruct Hik as (x & Hx & Ht & ->).
  assert (p = i) by lia. subst p. exists x. split; [assumption|].
  rewrite orb_false_r in Ht. exact Ht.
Qed.

End AnySubject.

(** *** Matching inside the trimmed part

    The subject is [pre ++ m ++ post] with [pre] and [post] white space. *)

Section Window.

Variable ic : bool.
Variables pre m post : list ascii.
Hypothesis pre_space : all_space pre.
Hypothesis post_space : all_space post.

Let c : list ascii := (pre ++ m ++ post)%list.
Let a : nat := length pre.
Let n : nat := length m.

Lemma nth_mid i : i < n -> nth_error c (a + i) = nth_error m i.
Proof.
  intros Hi. unfold c, a. rewrite nth_error_app2 by lia.
  replace (length pre + i - length pre) with i by lia.
  apply nth_error_app1. assumption.
Qed.

Lemma nth_outside p x :
  nth_error c p = Some x -> ~ (a <= p < a + n) -> is_space x = true.
Proof.
  intros Hx Hp. unfold c in Hx.
  destruct (le_lt_dec a p) as [Hge | Hlt].
  - unfold a in *. rewrite nth_error_app2 in Hx by lia.
    rewrite nth_error_app2 in Hx by (fold n; lia).
    apply nth_error_In in Hx.
    eapply (proj1 (Forall_forall _ _) post_space); eauto.
  - unfold a in *. rewrite nth_error_app1 in Hx by lia.
    apply nth_error_In in Hx.
    eapply (proj1 (Forall_forall _ _) pre_space); eauto.
Qed.

Lemma nonws_inside p : nonws_at c p -> a <= p < a + n.
Proof.
  intros (x & Hx & Hs).
  destruct (le_lt_dec a p); [destruct (le_lt_dec (a + n) p)|]; try lia;
    exfalso; assert (is_space x = true) by (eapply nth_outside; eauto; lia);
    congruence.
Qed.

Lemma word_at_mid i : i <= n -> word_at c (a + i) = word_at m i.
Proof.
  intros Hi. unfold word_at.
  destruct (Nat.eq_dec i n) as [-> | Hne].
  - replace (nth_error m n) with (@None ascii)
      by (symmetry; apply nth_error_None; unfold n; lia).
    destruct (nth_error c (a + n)) as [x|] eqn:Hx; [|reflexivity].
    apply space_not_word. eapply nth_outside; eauto. lia.
  - rewrite nth_mid by lia. reflexivity.
Qed.

Lemma word_before_mid i : i <= n -> word_before c (a + i) = word_before m i.
Proof.
  intros Hi. destruct i as [|i'].
  - rewrite Nat.add_0_r. simpl. unfold word_before.
    destruct a as [|a'] eqn:Ha; [reflexivity|].
    unfold word_at. destruct (nth_error c a') as [x|] eqn:Hx; [|reflexivity].
    apply space_not_word. eapply nth_outside; eauto. lia.
  - rewrite Nat.add_succ_r. simpl. apply word_at_mid. lia.
Qed.

(** A match of a [simple] pattern that lies inside [m] is a match in [m]. *)
Lemma M_window r :
  simple r = true ->
  forall i j, j <= n -> M ic c r (a + i) (a + j) -> M ic m r i j.
Proof.
  induction r; simpl; try discriminate; intros Hs i j Hj Hm.
  - lia.
  - destruct Hm as (x & Hx & Ht & He). assert (j = S i) by lia. subst j.
    exists x. rewrite <- nth_mid by lia. auto.
  - apply andb_true_iff in Hs. destruct Hs as [Hs1 Hs2].
    destruct Hm as (k & H1 & H2).
    pose proof (M_le _ _ _ _ _ H1). pose proof (M_le _ _ _ _ _ H2).
    replace k with (a + (k - a)) in H1, H2 by lia.
    exists (k - a). split; [apply IHr1 | apply IHr2]; auto; lia.
  - apply andb_true_iff in Hs. destruct Hs as [Hs1 Hs2].
    destruct Hm as [Hm | Hm]; auto.
  - remember (a + i) as p eqn:Ep. remember (a + j) as q eqn:Eq.
    revert i Ep. induction Hm as [p | p k q Hpk Hlt Hkq IH]; intros i Ep.
    + assert (i = j) by lia. subst. constructor.
    + subst p q. pose proof (star_rel_le Hkq).
      replace k with (a + (k - a)) in Hpk by lia.
      apply star_step with (k := k - a).
      * apply IHr; auto. lia.
      * lia.
      * apply IH; auto. lia.
  - destruct a0; try discriminate.
    destruct Hm as [Hh He]. assert (j = i) by lia. subst j. split; [|reflexivity].
    simpl in *. rewrite word_before_mid, word_at_mid in Hh by lia. exact Hh.
Qed.

(** A match of a [good] pattern in the whole subject lies inside [m]. *)
Lemma good_window r i j :
  good ic r = true -> M ic c r i j ->
  exists i' j', i = a + i' /\ j = a + j' /\ i' < j' /\ j' <= n /\ M ic m r i' j'.
Proof.
  unfold good. rewrite !andb_true_iff. intros [[Hs Hf] Hl] Hm.
  destruct (@first_nonws_spec ic c r Hf i j Hm) as [Hi _].
  destruct (@last_nonws_spec ic c r Hl i j Hm) as [Hlt Hj].
  apply nonws_inside in Hi. apply nonws_inside in Hj.
  exists (i - a), (j - a). repeat split; try lia.
  apply M_window; [assumption | lia |].
  replace (a + (i - a)) with i by lia. replace (a + (j - a)) with j by lia.
  assumption.
Qed.

Hypothesis m_last :
  forall x, nth_error m (n - 1) = Some x -> is_space x = false.

Theorem tight_window r :
  tight ic r = true ->
  Re.search (mkPattern r ic) c = true -> Re.search (mkPattern r ic) m = true.
Proof.
  intros Ht Hc. apply search_spec in Hc. destruct Hc as (i & j & Hi & Hm).
  simpl in Hm. apply search_spec. simpl.
  unfold tight in Ht. apply orb_true_iff in Ht. destruct Ht as [Hg | Ht].
  - destruct (@good_window r i j Hg Hm) as (i' & j' & -> & -> & Hlt & Hj & Hm').
    exists i', j'. split; [fold n; lia | assumption].
  - destruct r as [| | r1 r2 | | | |]; try discriminate.
    destruct r1 as [| | core tl | | | |]; try discriminate.
    destruct tl as [| | | | body | |]; try discriminate.
    destruct body as [|t | | | | |]; try discriminate.
    destruct t as [| |neg items]; try discriminate.
    destruct neg; try discriminate.
    destruct items as [|it items]; try discriminate.
    destruct it; try discriminate.
    destruct items; try discriminate.
    destruct r2 as [| | | | |asr|]; try discriminate.
    destruct asr; try discriminate.
    cbn [M] in Hm. destruct Hm as (k2 & (k1 & Hcore & Hws) & Heol & ->).
    destruct (@good_window core i k1 Ht Hcore) as (i' & k1' & -> & -> & Hlt & Hk & Hm').
    assert (Hend : k1' = n).
    { destruct (Nat.eq_dec k1' n) as [|Hne]; [assumption|]. exfalso.
      assert (Hn : n - 1 < n) by lia.
      assert (Hex : exists x, nth_error m (n - 1) = Some x).
      { destruct (nth_error m (n - 1)) as [x|] eqn:Hx; [eauto|].
        apply nth_error_None in Hx. fold n in Hx. lia. }
      destruct Hex as (x & Hx).
      pose proof (m_last Hx) as Hns.
      assert (Hcx : nth_error c (a + (n - 1)) = Some x)
        by (rewrite nth_mid by lia; assumption).
      pose proof (star_rel_le Hws) as Hle.
      destruct (le_lt_dec k2 (a + (n - 1))) as [Hk2 | Hk2].
      - (* the assertion [$] holds at or before the last character of [m] *)
        simpl in Heol. unfold at_eol in Heol.
        assert (Hlen : length c = a + n + length post)
          by (unfold c, a, n; rewrite !length_app; lia).
        apply orb_true_iff in Heol. destruct Heol as [He | He].
        + apply Nat.eqb_eq in He. lia.
        + apply andb_true_iff in He. destruct He as [He Hnl].
          apply Nat.eqb_eq in He.
          assert (k2 = a + (n - 1)) by lia. subst k2.
          rewrite Hcx in Hnl. apply newline_is_space in Hnl. congruence.
      - destruct (star_space_spec Hws (p := a + (n - 1))) as (y & Hy & Hsp);
          [lia|]. congruence. }
    subst k1'. exists i', n. split; [fold n; lia|].
    cbn [M]. exists n. split.
    + exists n. split; [assumption | constructor].
    + split; [|reflexivity]. simpl. unfold at_eol. fold n.
      rewrite Nat.eqb_refl. reflexivity.
Qed.

End Window.

(** Trimming the subject does not lose a match of a [tight] pattern. *)
Theorem tight_strip (ic : bool) (r : regex) (c : list ascii) :
  tight ic r = true ->
  Re.search (mkPattern r ic) c = true ->
  Re.search (mkPattern r ic) (strip c) = true.
Proof.
  intros Ht Hs.
  destruct (strip_split c) as (pre & post & Hc & Hpre & Hpost & Hlast).
  rewrite Hc in Hs.
  exact (@tight_window ic pre (strip c) post Hpre Hpost Hlast r Ht Hs).
Qed.

End TrimFacts.

(* ===================================================================== *)
(** ** Matching under [re.IGNORECASE] does not see the case of the subject *)
(* ===================================================================== *)

Module Fold.
Import Trim.







Section TwoSubjects.

Variables s s' : list ascii.
Hypothesis same : lower s = lower s'.








End TwoSubjects.




End Fold.

(* ===================================================================== *)
(** ** Properties of the access controller *)
(* ===================================================================== *)

Module AccessFacts.
Import Trim TrimFacts.

Lemma compile_all_In fl srcs : forall ps,
  Re.compile_all fl srcs = Some ps ->
  forall src, In src srcs -> exists pat, Re.compile fl src = Some pat /\ In pat ps.
Proof.
  induction srcs as [|s0 t IH]; intros ps H src Hin; [destruct Hin|].
  cbn [Re.compile_all] in H.
  destruct (Re.compile fl s0) as [c0|] eqn:E0; [|discriminate].
  destruct (Re.compile_all fl t) as [cs|]; [|discriminate].
  inversion H; subst ps. destruct Hin as [<- | Hin].
  - exists c0. split; [assumption | left; reflexivity].
  - destruct (IH cs eq_refl src Hin) as (pat & Hp & Hi).
    exists pat. split; [assumption | right; assumption].
Qed.



Lemma compile_all_snoc fl srcs e : forall ps',
  Re.compile_all fl (srcs ++ [e]) = Some ps' ->
  exists ps pe, Re.compile_all fl srcs = Some ps /\ Re.compile fl e = Some pe /\
                ps' = (ps ++ [pe])%list.
Proof.
  induction srcs as [|s0 t IH]; intros ps' H.
  - cbn [app Re.compile_all] in H.
    destruct (Re.compile fl e) as [pe|]; [|discriminate].
    inversion H. exists [], pe. auto.
  - cbn [app Re.compile_all] in H. fold (app t [e]) in H.
    destruct (Re.compile fl s0) as [c0|] eqn:E0; [|discriminate].
    destruct (Re.compile_all fl (t ++ [e])) as [cs|] eqn:Et; [|discriminate].
    inversion H; subst ps'.
    destruct (IH cs eq_refl) as (ps & pe & Hps & Hpe & ->).
    exists (c0 :: ps), pe. cbn [Re.compile_all]. rewrite E0, Hps. auto.
Qed.

(** What a successfully built controller holds. *)
Lemma compile_patterns_inv p ac :
  _compile_patterns p = Some ac ->
  exists ad mp allowed pa wl bl,
    Re.compile_all true ALWAYS_DENIED = Some ad /\
    Re.compile_all true MANIPULATION_INDICATORS = Some mp /\
    preset_sources (level p) = Some allowed /\
    Re.compile_all false allowed = Some pa /\
    Re.compile_all false (whitelist p) = Some wl /\
    Re.compile_all false (blacklist p) = Some bl /\
    ac = mkAccessController p ad mp pa wl bl.
Proof.
  unfold _compile_patterns.
  destruct (Re.compile_all true ALWAYS_DENIED) as [ad|] eqn:E1; [|discriminate].
  destruct (Re.compile_all true MANIPULATION_INDICATORS) as [mp|] eqn:E2;
    [|discriminate].
  destruct (preset_sources (level p)) as [allowed|] eqn:E3; [|discriminate].
  destruct (Re.compile_all false allowed) as [pa|] eqn:E4; [|discriminate].
  destruct (Re.compile_all false (whitelist p)) as [wl|] eqn:E5; [|discriminate].
  destruct (Re.compile_all false (blacklist p)) as [bl|] eqn:E6; [|discriminate].
  intros H. inversion H. exists ad, mp, allowed, pa, wl, bl.
  repeat split; assumption.
Qed.

(** Every hardcoded deny pattern parses and is [tight]. *)
Lemma always_denied_tight src :
  In src ALWAYS_DENIED ->
  exists r, Re.parse src = Some r /\ tight true r = true.
Proof.
  assert (H : forallb (fun src => match Re.parse src with
                                  | Some r => tight true r
                                  | None => false
                                  end) ALWAYS_DENIED = true)
    by (vm_compute; reflexivity).
  rewrite forallb_forall in H. intros Hin. specialize (H src Hin).
  destruct (Re.parse src) as [r|]; [|discriminate]. eauto.
Qed.


(** The critical deny is returned exactly when step 1 finds a match in the
    trimmed command. *)
Lemma critical_deny_iff ac c :
  check_command ac c = critical_deny <->
  hits (_always_denied ac) (strip (chars c)) = true.
Proof.
  unfold check_command, critical_deny, hits. cbv zeta.
  destruct (existsb _ (_always_denied ac)); [tauto|].
  split; [|discriminate].
  destruct (existsb _ (_blacklist ac)); [discriminate|].
  destruct (AccessLevel_eqb _ WHITELIST).
  - destruct (existsb _ (_whitelist ac)); discriminate.
  - destruct (AccessLevel_eqb _ BLACKLIST); [discriminate|].
    destruct (existsb _ (_preset_allowed ac)); discriminate.
Qed.

(** A match of a hardcoded deny pattern in the command as given is enough
    for the critical deny. *)
Lemma always_denied_decision p ac c :
  _compile_patterns p = Some ac ->
  (exists src, In src ALWAYS_DENIED /\ Re.re_search true src (chars c) = true) ->
  check_command ac c = critical_deny.
Proof.
  intros Hc (src & Hin & Hs).
  destruct (compile_patterns_inv _ Hc) as (ad & mp & al & pa & wl & bl & Had & _ & _ & _ & _ & _ & ->).
  apply critical_deny_iff. cbn [_always_denied]. unfold hits.
  destruct (compile_all_In _ _ Had _ Hin) as (pat & Hp & Hpin).
  destruct (always_denied_tight Hin) as (r & Hr & Ht).
  unfold Re.re_search in Hs. rewrite Hp in Hs.
  unfold Re.compile in Hp. rewrite Hr in Hp. inversion Hp; subst pat.
  apply existsb_exists. exists (mkPattern r true). split; [assumption|].
  apply tight_strip; assumption.
Qed.

(** The four self-invocation patterns are hardcoded deny patterns. *)
Lemma self_invoke_always_denied src :
  In src self_invoke_patterns -> In src ALWAYS_DENIED.
Proof.
  assert (H : forallb (fun s => existsb (String.eqb s) ALWAYS_DENIED)
                self_invoke_patterns = true) by (vm_compute; reflexivity).
  rewrite forallb_forall in H. intros Hin. specialize (H src Hin).
  apply existsb_exists in H. destruct H as (x & Hx & He).
  apply String.eqb_eq in He. subst x. assumption.
Qed.




(** The risk level by the deciding step. *)
Lemma check_command_cases ac c :
  let command := strip (chars c) in
  let d := check_command ac c in
  (hits (_always_denied ac) command = true /\ d = critical_deny) \/
  (hits (_always_denied ac) command = false /\
   hits (_blacklist ac) command = true /\
   dec_allowed d = false /\ dec_risk d = "high") \/
  (hits (_always_denied ac) command = false /\
   hits (_blacklist ac) command = false /\
   (dec_risk d = "low" \/ dec_risk d = "medium")).
Proof.
  cbv zeta. unfold check_command, hits, critical_deny. cbv zeta.
  destruct (existsb _ (_always_denied ac)); [left; auto|].
  right. destruct (existsb _ (_blacklist ac)); [left; auto|].
  right. split; [reflexivity|]. split; [reflexivity|].
  destruct (AccessLevel_eqb _ WHITELIST).
  - destruct (existsb _ (_whitelist ac)); auto.
  - destruct (AccessLevel_eqb _ BLACKLIST); [auto|].
    destruct (existsb _ (_preset_allowed ac)); auto.
Qed.

(** Appending to the white list keeps an allowed command allowed. *)
Lemma whitelist_append_allowed p e ac ac' c :
  _compile_patterns p = Some ac ->
  _compile_patterns (append_whitelist p e) = Some ac' ->
  dec_allowed (check_command ac c) = true ->
  check_command ac' c = check_command ac c.
Proof.
  intros H H' Ha.
  destruct (compile_patterns_inv _ H)
    as (ad & mp & al & pa & wl & bl & E1 & E2 & E3 & E4 & E5 & E6 & ->).
  destruct (compile_patterns_inv _ H')
    as (ad' & mp' & al' & pa' & wl' & bl' & F1 & F2 & F3 & F4 & F5 & F6 & ->).
  cbn [append_whitelist level whitelist blacklist] in *.
  rewrite E1 in F1. rewrite E3 in F3. inversion F1; inversion F3; subst ad' al'.
  rewrite E4 in F4. rewrite E6 in F6. inversion F4; inversion F6; subst pa' bl'.
  destruct (compile_all_snoc _ _ _ F5) as (wl0 & pe & G & _ & ->).
  rewrite E5 in G. inversion G; subst wl0.
  revert Ha. unfold check_command, dec_allowed. cbv zeta.
  cbn [policy _always_denied _blacklist _whitelist _preset_allowed].
  change (level (append_whitelist p e)) with (level p).
  destruct (existsb _ ad); [reflexivity|].
  destruct (existsb _ bl); [reflexivity|].
  destruct (AccessLevel_eqb (level p) WHITELIST).
  - rewrite existsb_app. destruct (existsb _ wl); [reflexivity|].
    simpl. discriminate.
  - reflexivity.
Qed.

(** Appending to the black list keeps a denied command denied. *)
Lemma blacklist_append_denied p e ac ac' c :
  _compile_patterns p = Some ac ->
  _compile_patterns (append_blacklist p e) = Some ac' ->
  dec_allowed (check_command ac c) = false ->
  dec_allowed (check_command ac' c) = false.
Proof.
  intros H H' Ha.
  destruct (compile_patterns_inv _ H)
    as (ad & mp & al & pa & wl & bl & E1 & E2 & E3 & E4 & E5 & E6 & ->).
  destruct (compile_patterns_inv _ H')
    as (ad' & mp' & al' & pa' & wl' & bl' & F1 & F2 & F3 & F4 & F5 & F6 & ->).
  cbn [append_blacklist level whitelist blacklist] in *.
  rewrite E1 in F1. rewrite E3 in F3. inversion F1; inversion F3; subst ad' al'.
  rewrite E4 in F4. rewrite E5 in F5. inversion F4; inversion F5; subst pa' wl'.
  destruct (compile_all_snoc _ _ _ F6) as (bl0 & pe & G & _ & ->).
  rewrite E6 in G. inversion G; subst bl0.
  revert Ha. unfold check_command, dec_allowed. cbv zeta.
  cbn [policy _always_denied _blacklist _whitelist _preset_allowed].
  change (level (append_blacklist p e)) with (level p).
  destruct (existsb _ ad); [reflexivity|].
  rewrite existsb_app.
  destruct (existsb _ bl); [reflexivity|].
  cbn [orb existsb]. rewrite orb_false_r.
  destruct (Re.search pe _); [reflexivity|].
  destruct (AccessLevel_eqb (level p) WHITELIST).
  - destruct (existsb _ wl); auto.
  - destruct (AccessLevel_eqb (level p) BLACKLIST); [auto|].
    destruct (existsb _ pa); auto.
Qed.

End AccessFacts.

(* ===================================================================== *)
(** ** The access controller: always-denied, self-invocation, case, risk,
       policy changes *)
(* ===================================================================== *)

Import AccessFacts.


(** The concrete scenarios of the specification for the controller. *)
Example scenario_always_denied_overrides_whitelist :
  check_with policy_whitelist_rm "rm -rf /" = Some critical_deny.
Proof. vm_compute. reflexivity. Qed.

Example scenario_self_invocation :
  check_with (mkAccessPolicy FULL_ACCESS [] [] [] [] true true 300)
    "ganesha --auto 'apt update'" = Some critical_deny.
Proof. vm_compute. reflexivity. Qed.

Example scenario_preset_standard :
  check_with AccessPolicy_default "grep foo /var/log/syslog" =
    Some (true, "low", "Allowed by standard preset").
Proof. vm_compute. reflexivity. Qed.

Example scenario_blacklist_wins_over_preset :
  check_with (mkAccessPolicy STANDARD [] ["^mv\s+/tmp/"] [] [] true true 300)
    "mv /tmp/a /tmp/b" = Some (false, "high", "Command matches blacklist pattern").
Proof. vm_compute. reflexivity. Qed.

(** C2. For every command [c] and every policy (any level, any whitelist,
    any blacklist) whose patterns compile, if some ALWAYS_DENIED pattern
    matches [c], then [check_command c] returns allowed = false with risk
    level critical and the reason naming the security-critical deny. *)
Theorem C2_always_denied_overrides_policy
    (p : AccessPolicy) (ac : AccessController) (c : string) :
  _compile_patterns p = Some ac ->
  (exists src, In src ALWAYS_DENIED /\ Re.re_search true src (chars c) = true) ->
  check_command ac c =
    (false, "critical", "Command matches security-critical deny pattern").
Proof. apply always_denied_decision. Qed.

Lemma C2_witness :
  _compile_patterns policy_whitelist_rm = Some (controller_of policy_whitelist_rm) /\
  Re.re_search true "rm\s+(-rf?|--recursive)\s+/\s*$" (chars "rm -rf /") = true /\
  check_command (controller_of policy_whitelist_rm) "rm -rf /" =
    (false, "critical", "Command matches security-critical deny pattern").
Proof.
  assert (E : _compile_patterns policy_whitelist_rm =
              Some (controller_of policy_whitelist_rm))
    by (vm_compute; reflexivity).
  assert (S : Re.re_search true "rm\s+(-rf?|--recursive)\s+/\s*$"
                (chars "rm -rf /") = true) by (vm_compute; reflexivity).
  split; [exact E|]. split; [exact S|].
  apply (@C2_always_denied_overrides_policy policy_whitelist_rm
           (controller_of policy_whitelist_rm) "rm -rf /" E).
  exists "rm\s+(-rf?|--recursive)\s+/\s*$". split; [|exact S].
  unfold ALWAYS_DENIED. repeat (first [left; reflexivity | right]).
Defined.

(** C10. The self-invocation guard never disagrees with the access
    decision: for every command [c], if [is_self_invocation c] returns
    true, then [check_command c] returns allowed = false with risk level
    critical, the four self-invocation patterns being ALWAYS_DENIED
    patterns checked first. *)
Theorem C10_self_invocation_is_denied
    (p : AccessPolicy) (ac : AccessController) (c : string) :
  _compile_patterns p = Some ac ->
  is_self_invocation ac c = true ->
  check_command ac c =
    (false, "critical", "Command matches security-critical deny pattern").
Proof.
  intros Hc Hs. apply (@always_denied_decision p ac c Hc).
  unfold is_self_invocation in Hs. apply existsb_exists in Hs.
  destruct Hs as (src & Hin & Hm). exists src. split; [|assumption].
  apply self_invoke_always_denied. assumption.
Qed.

Lemma C10_witness :
  _compile_patterns AccessPolicy_default = Some (controller_of AccessPolicy_default) /\
  is_self_invocation (controller_of AccessPolicy_default)
    "  python3 -m ganesha --AUTO 'apt update' " = true /\
  check_command (controller_of AccessPolicy_default)
    "  python3 -m ganesha --AUTO 'apt update' " =
    (false, "critical", "Command matches security-critical deny pattern").
Proof.
  assert (E : _compile_patterns AccessPolicy_default =
              Some (controller_of AccessPolicy_default))
    by (vm_compute; reflexivity).
  assert (S : is_self_invocation (controller_of AccessPolicy_default)
                "  python3 -m ganesha --AUTO 'apt update' " = true)
    by (vm_compute; reflexivity).
  split; [exact E|]. split; [exact S|].
  exact (@C10_self_invocation_is_denied AccessPolicy_default
           (controller_of AccessPolicy_default)
           "  python3 -m ganesha --AUTO 'apt update' " E S).
Defined.




(** C7, as the claim states it, fails: [check_command] does not consult the
    lexical heuristic.  Under the default policy [chmod 777 /] is allowed
    with risk low while [get_risk_level] rates it critical. *)
Lemma C7_counterexample :
  _compile_patterns AccessPolicy_default = Some (controller_of AccessPolicy_default) /\
  check_command (controller_of AccessPolicy_default) "chmod 777 /" =
    (true, "low", "Allowed by standard preset") /\
  get_risk_level (controller_of AccessPolicy_default) "chmod 777 /" = "critical" /\
  risk_rank (dec_risk (check_command (controller_of AccessPolicy_default) "chmod 777 /"))
  < risk_rank (get_risk_level (controller_of AccessPolicy_default) "chmod 777 /").
Proof. vm_compute. repeat split; try reflexivity. repeat constructor. Qed.

Lemma risk_rank_le_3 (r : string) : risk_rank r <= 3.
Proof.
  unfold risk_rank.
  destruct (String.eqb r "critical"), (String.eqb r "high"),
    (String.eqb r "medium"); lia.
Qed.

(** C7, amended. The risk level in the decision returned by
    [check_command c] is fixed by the deciding step alone: critical exactly
    when an ALWAYS_DENIED pattern matches, high exactly when no such pattern
    but a blacklist pattern matches, and low or medium in every other case,
    in particular for every allowed command.  [get_risk_level] is a separate
    operation that [check_command] does not consult; the risk in the
    decision is at least the heuristic's when the decision is the critical
    deny. *)
Theorem C7_risk_fixed_by_deciding_step (ac : AccessController) (c : string) :
  let command := strip (chars c) in
  let d := check_command ac c in
  (dec_risk d = "critical" <-> hits (_always_denied ac) command = true) /\
  (dec_risk d = "high" <->
     hits (_always_denied ac) command = false /\
     hits (_blacklist ac) command = true) /\
  (dec_risk d <> "critical" -> dec_risk d <> "high" ->
     dec_risk d = "low" \/ dec_risk d = "medium") /\
  (dec_allowed d = true -> dec_risk d = "low" \/ dec_risk d = "medium") /\
  (hits (_always_denied ac) command = true ->
     risk_rank (get_risk_level ac c) <= risk_rank (dec_risk d)).
Proof.
  cbv zeta.
  destruct (check_command_cases ac c) as [[H1 H2] | [(H1 & H2 & H3 & H4) | (H1 & H2 & H3)]].
  - rewrite H1, H2. cbn [dec_risk dec_allowed critical_deny fst snd].
    split; [tauto|]. split; [|split; [|split]].
    + split; [discriminate | intros [? _]; discriminate].
    + intros N. exfalso. apply N. reflexivity.
    + discriminate.
    + intros _. apply risk_rank_le_3.
  - rewrite H1, H2, H3, H4.
    split; [split; discriminate|]. split; [tauto|]. split; [|split].
    + intros _ N. exfalso. apply N. reflexivity.
    + discriminate.
    + discriminate.
  - rewrite H1, H2.
    assert (N1 : dec_risk (check_command ac c) <> "critical")
      by (intros E; destruct H3 as [H3 | H3]; rewrite H3 in E; discriminate).
    assert (N2 : dec_risk (check_command ac c) <> "high")
      by (intros E; destruct H3 as [H3 | H3]; rewrite H3 in E; discriminate).
    split; [split; [intros E; contradiction | discriminate]|].
    split; [split; [intros E; contradiction | intros [_ ?]; discriminate]|].
    split; [auto|]. split; [auto | discriminate].
Qed.


(** C8. Policy changes are monotone: for every policy [p] and command [c],
    if [check_command] allows [c] under [p], it still allows [c] after any
    entry is appended to the whitelist of [p]; and if it denies [c] under
    [p], it still denies [c] after any entry is appended to the blacklist
    of [p] (the policies being ones whose patterns compile). *)
Theorem C8_policy_changes_monotone
    (p : AccessPolicy) (ac : AccessController) (c : string) (entry : string) :
  _compile_patterns p = Some ac ->
  (forall ac', _compile_patterns (append_whitelist p entry) = Some ac' ->
     dec_allowed (check_command ac c) = true ->
     dec_allowed (check_command ac' c) = true) /\
  (forall ac', _compile_patterns (append_blacklist p entry) = Some ac' ->
     dec_allowed (check_command ac c) = false ->
     dec_allowed (check_command ac' c) = false).
Proof.
  intros H. split; intros ac' H' Ha.
  - rewrite (@whitelist_append_allowed p entry ac ac' c H H' Ha). assumption.
  - apply (@blacklist_append_denied p entry ac ac' c H H' Ha).
Qed.

Lemma C8_witness :
  _compile_patterns policy_whitelist_ls = Some (controller_of policy_whitelist_ls) /\
  dec_allowed (check_command
                 (controller_of (append_whitelist policy_whitelist_ls "^cat\s+"))
                 "ls -la") = true /\
  dec_allowed (check_command
                 (controller_of (append_blacklist policy_whitelist_ls "^cat\s+"))
                 "mkdir x") = false.
Proof.
  assert (E : _compile_patterns policy_whitelist_ls =
              Some (controller_of policy_whitelist_ls))
    by (vm_compute; reflexivity).
  split; [exact E|]. split.
  - apply (proj1 (@C8_policy_changes_monotone policy_whitelist_ls
                    (controller_of policy_whitelist_ls) "ls -la" "^cat\s+" E));
      vm_compute; reflexivity.
  - apply (proj2 (@C8_policy_changes_monotone policy_whitelist_ls
                    (controller_of policy_whitelist_ls) "mkdir x" "^cat\s+" E));
      vm_compute; reflexivity.
Defined.

(* ===================================================================== *)
(** ** Sessions: rollback and the end of [execute] *)
(* ===================================================================== *)

Module EngineFacts.
Import Engine EngineSpec.


Lemma rollback_loop_filter uuid : forall l k,
  rollback_loop uuid k l = wrap_all uuid k (filter rollbackable l).
Proof.
  induction l as [|a t IH]; intros k; simpl; [reflexivity|].
  unfold rollbackable at 1.
  destruct (reversible a && truthy (rollback_command a)); simpl.
  - unfold wrap. rewrite IH. reflexivity.
  - apply IH.
Qed.

Lemma wrap_all_commands uuid : forall l k,
  map command (wrap_all uuid k l) = map (fun a => text_of (rollback_command a)) l.
Proof.
  induction l as [|a t IH]; intros k; simpl; [reflexivity|].
  rewrite IH. reflexivity.
Qed.

(** The state in which [execute] leaves the session. *)
Lemma execute_final_state self w sid tsk max_iterations :
  state (fst (execute self w sid tsk max_iterations)) =
  match plan_task_with_llm w tsk with
  | inl _ => FAILED
  | inr p =>
      match _get_consent self p with
      | inl _ => FAILED
      | inr (true, _) => COMPLETED
      | inr (false, _) => CANCELLED
      end
  end.
Proof.
  unfold execute.
  destruct (plan_task_with_llm w tsk) as [e | p]; [reflexivity|].
  destruct (_get_consent self p) as [e | [approved ids]]; [reflexivity|].
  destruct approved; cbn [negb]; [|reflexivity].
  destruct (iterate _ _ _ _ _ _ _ _) as [sess yielded]. reflexivity.
Qed.

End EngineFacts.

Import Engine EngineSpec EngineFacts.

(** C9. For every session, the rollback list equals
    [reverse(filter(executed_actions, a => a.reversible and
    a.rollback_command non-empty))]: it contains exactly the executed
    actions that are reversible with a non-empty rollback command, in
    reverse execution order, each wrapped in a new Action whose command is
    the rollback command of the original action. *)
Theorem C9_rollback_is_reverse_filter (uuid : nat -> string) (s : Session) :
  get_rollback_actions uuid s = rollback_actions_for uuid s /\
  map command (get_rollback_actions uuid s) =
    map (fun a => text_of (rollback_command a))
        (rev (filter rollbackable (executed_actions s))) /\
  length (get_rollback_actions uuid s) =
    length (filter rollbackable (executed_actions s)).
Proof.
  assert (E : get_rollback_actions uuid s = rollback_actions_for uuid s).
  { unfold get_rollback_actions, rollback_actions_for.
    rewrite rollback_loop_filter, filter_rev. reflexivity. }
  split; [exact E|]. rewrite E. unfold rollback_actions_for. split.
  - apply wrap_all_commands.
  - rewrite <- (length_map command), wrap_all_commands, length_map, length_rev.
    reflexivity.
Qed.

(** Scenario 6 of the specification: [mkdir /tmp/x] then [touch /tmp/x/y]. *)
Example rollback_fidelity :
  map command
    (get_rollback_actions (fun _ => "id")
       (mkSession "s" "t" COMPLETED None
          [mkAction "1" SHELL_COMMAND "mkdir /tmp/x" "" true (Some "rmdir /tmp/x") "low" true;
           mkAction "2" SHELL_COMMAND "echo hi" "" true None "low" true;
           mkAction "3" SHELL_COMMAND "touch /tmp/x/y" "" true (Some "rm /tmp/x/y") "low" true]
          []))
  = ["rm /tmp/x/y"; "rmdir /tmp/x"].
Proof. reflexivity. Qed.


(** C3, as the claim states it, fails: the approved action fails in each of
    the three iterations, no recovery is found, and the session ends
    completed. *)
Lemma C3_counterexample :
  let sess := fst (execute engine_auto_approve world_always_failing "s1" "t" 3) in
  state sess = COMPLETED /\
  map id (executed_actions sess) = ["a1"; "a1"; "a1"] /\
  map success (results sess) = [false; false; false].
Proof. vm_compute. repeat split; reflexivity. Qed.

(** C3, amended. A session reaches the terminal state completed exactly
    when planning and consent return without error and the plan is
    approved, whatever the approved actions returned; it ends cancelled
    exactly when consent is declined, and failed exactly when planning or
    consent raise an error. *)
Theorem C3_final_state_of_execute
    (self : GaneshaEngine) (w : World) (sid tsk : string) (max_iterations : nat) :
  let sess := fst (execute self w sid tsk max_iterations) in
  (state sess = COMPLETED <->
     exists p ids, plan_task_with_llm w tsk = inr p /\
                   _get_consent self p = inr (true, ids)) /\
  (state sess = CANCELLED <->
     exists p ids, plan_task_with_llm w tsk = inr p /\
                   _get_consent self p = inr (false, ids)) /\
  (state sess = FAILED <->
     (exists e, plan_task_with_llm w tsk = inl e) \/
     (exists p e, plan_task_with_llm w tsk = inr p /\ _get_consent self p = inl e)).
Proof.
  cbv zeta. rewrite execute_final_state.
  destruct (plan_task_with_llm w tsk) as [e | p] eqn:Ep.
  - split; [|split].
    + split; [discriminate | intros (q & ids & H & _); discriminate].
    + split; [discriminate | intros (q & ids & H & _); discriminate].
    + split; [eauto | reflexivity].
  - destruct (_get_consent self p) as [e | [[|] ids]] eqn:Ec.
    + split; [|split].
      * split; [discriminate|]. intros (q & i & H & H'). congruence.
      * split; [discriminate|]. intros (q & i & H & H'). congruence.
      * split; [intros _; right; eauto | reflexivity].
    + split; [|split].
      * split; [eauto | reflexivity].
      * split; [discriminate|]. intros (q & i & H & H'). congruence.
      * split; [discriminate|]. intros [(e & H) | (q & e & H & H')]; congruence.
    + split; [|split].
      * split; [discriminate|]. intros (q & i & H & H'). congruence.
      * split; [eauto | reflexivity].
      * split; [discriminate|]. intros [(e & H) | (q & e & H & H')]; congruence.
Qed.

(* ===================================================================== *)
(** ** The daemon: time limits and time-outs *)
(* ===================================================================== *)

Module DaemonFacts.
Import Proc Daemon DaemonSpec.


(** What [_process_request] does with a command that passes the check. *)
Lemma process_allowed os elapsed_ms ac request :
  dec_allowed (check_command ac (command request)) = true ->
  _process_request os elapsed_ms ac request =
  let risk := dec_risk (check_command ac (command request)) in
  let reason := dec_reason (check_command ac (command request)) in
  match os (command request) (working_dir request) (wait_timeout ac request) with
  | SpawnFails e =>
      (mkCommandResponse false "" e (-1) risk (request_id request) elapsed_ms,
       [log "command_error" (user request) (command request) true risk e None],
       [Spawn (command request) (working_dir request)])
  | TimesOut =>
      (mkCommandResponse false ""
         ("Command timed out after " ++ str_Z (timeout request) ++ "s")
         (-1) risk (request_id request) elapsed_ms,
       [],
       [Spawn (command request) (working_dir request);
        WaitFor (wait_timeout ac request); Kill; Wait])
  | Exits returncode stdout stderr =>
      (mkCommandResponse (returncode =? 0)%Z stdout stderr returncode
         risk (request_id request) elapsed_ms,
       [log "command_executed" (user request) (command request) true
            risk reason (Some ("exit_code=" ++ str_Z returncode))],
       [Spawn (command request) (working_dir request);
        WaitFor (wait_timeout ac request)])
  end.
Proof.
  unfold _process_request, dec_allowed, dec_risk, dec_reason.
  destruct (check_command ac (command request)) as [[a r] why].
  cbn [fst snd]. intros ->. reflexivity.
Qed.

(** [_process_request] fails to return in one case only: an allowed command
    ran out of time and the killed child cannot be reaped. *)
Lemma answer_none_iff os reaping elapsed_ms ac request :
  answer os reaping elapsed_ms ac request = None <->
  dec_allowed (check_command ac (command request)) = true /\
  os (command request) (working_dir request) (wait_timeout ac request) = TimesOut /\
  reaping (command request) (working_dir request) = false.
Proof.
  unfold answer. cbv zeta.
  destruct (dec_allowed (check_command ac (command request))) eqn:Ea.
  - rewrite (process_allowed os elapsed_ms ac request Ea). cbv zeta.
    destruct (os _ _ _) as [e | rc out err |]; cbn.
    + split; [discriminate | intros (_ & H & _); discriminate].
    + split; [discriminate | intros (_ & H & _); discriminate].
    + destruct (reaping _ _); cbn.
      * split; [discriminate | intros (_ & _ & H); discriminate].
      * split; [intros _; repeat split | reflexivity].
  - assert (E : calls (_process_request os elapsed_ms ac request) = []).
    { unfold _process_request, dec_allowed in *.
      destruct (check_command ac (command request)) as [[a r] why].
      cbn in Ea. subst a. reflexivity. }
    rewrite E. cbn. split; [discriminate | intros (H & _); discriminate].
Qed.

End DaemonFacts.

Import Proc Daemon DaemonSpec DaemonFacts.


(** C4, as the claim states it, fails: a client-supplied time limit below 1
    is not raised to 1. *)
Lemma C4_counterexample :
  (Daemon.timeout request_zero_timeout < 1)%Z /\
  clamp_timeout (max_execution_time AccessPolicy_default)
    (Daemon.timeout request_zero_timeout) = 1%Z /\
  waits (Daemon.calls (_process_request os_quick 5
                         (controller_of AccessPolicy_default)
                         request_zero_timeout)) = [0%Z].
Proof. vm_compute. repeat split; reflexivity. Qed.

(** C4, amended. Before waiting on the child process, the daemon bounds the
    client-supplied time limit from above only: the time given to the wait
    is the smaller of [timeout] and [policy.max_execution_time].  For every
    request with a time limit greater than the policy maximum the effective
    limit is the policy maximum; for every other request it is the
    client-supplied value unchanged. *)
Theorem C4_timeout_bounded_above
    (os : OS) (elapsed_ms : Z) (ac : AccessController) (request : CommandRequest) :
  dec_allowed (check_command ac (command request)) = true ->
  (forall msg, os (command request) (working_dir request) (wait_timeout ac request)
               <> SpawnFails msg) ->
  let t := Daemon.timeout request in
  let m := max_execution_time (policy ac) in
  waits (Daemon.calls (_process_request os elapsed_ms ac request)) = [Z.min t m] /\
  (m < t -> Z.min t m = m)%Z /\
  (t <= m -> Z.min t m = t)%Z.
Proof.
  intros Ha Hs. cbv zeta. split; [|lia].
  rewrite (process_allowed os elapsed_ms ac request Ha). cbv zeta.
  destruct (os _ _ _) as [msg | rc out err |] eqn:E.
  - exfalso. exact (Hs msg eq_refl).
  - reflexivity.
  - reflexivity.
Qed.


Lemma C4_witness :
  dec_allowed (check_command (controller_of AccessPolicy_default)
                 (command request_long_timeout)) = true /\
  waits (Daemon.calls (_process_request os_quick 5
                         (controller_of AccessPolicy_default)
                         request_long_timeout)) = [Z.min 9999 300].
Proof.
  assert (A : dec_allowed (check_command (controller_of AccessPolicy_default)
                             (command request_long_timeout)) = true)
    by (vm_compute; reflexivity).
  split; [exact A|].
  refine (proj1 (@C4_timeout_bounded_above os_quick 5
                   (controller_of AccessPolicy_default) request_long_timeout A _)).
  intros msg. vm_compute. discriminate.
Defined.


(** C5. The claim: when an approved command exceeds the time limit, the
    daemon kills the child and its process group, responds with a failure
    and writes a time-out entry to the audit log.  The code at the request
    [ls /tmp; sleep 30] with time limit 1 under the default policy: the
    command is allowed and runs out of time; the one kill is
    [process.kill()] on the shell, followed by [process.wait()]; while
    [sleep] holds the pipes that wait does not return, so the request gets
    no response; and no audit entry is written.  The response that the arm
    builds for a run in which the wait returns carries the text
    [Command timed out after 1s]. *)
Theorem C5_timeout_leaves_request_unanswered :
  let ac := controller_of AccessPolicy_default in
  let r := _process_request os_never_ends 1000 ac request_two_commands in
  dec_allowed (check_command ac (command request_two_commands)) = true /\
  answer os_never_ends pipes_held 1000 ac request_two_commands = None /\
  Daemon.calls r = [Spawn "ls /tmp; sleep 30" "/tmp"; WaitFor 1; Kill; Wait] /\
  audit r = [] /\
  Daemon.error (response r) = "Command timed out after 1s".
Proof. vm_compute. repeat split; reflexivity. Qed.

(* ===================================================================== *)
(** ** The client: direct execution when the daemon is absent *)
(* ===================================================================== *)


(** C1, as the claim states it, fails: with the daemon unavailable,
    [execute] falls back to [_execute_direct], which spawns [rm -rf /] and
    reports the success of the child. *)
Lemma C1_counterexample :
  let r := Client.execute None os_quick 5 (Some AccessPolicy_default)
             fresh_client "rm -rf /" "/tmp" 60 in
  Re.re_search true "rm\s+(-rf?|--recursive)\s+/\s*$" (chars "rm -rf /") = true /\
  Client.calls r = [Spawn "rm -rf /" "/tmp"; WaitFor 60] /\
  Client.success (Client.result r) = true /\
  Client.risk_level (Client.result r) = "critical".
Proof. vm_compute. repeat split; reflexivity. Qed.

(** C1, amended. When the privileged daemon is unavailable and the client
    falls back to direct execution, the local policy is consulted only to
    label the result: for every command that matches an ALWAYS_DENIED
    pattern, [_execute_direct] (its local controller loaded) still hands
    the command to the shell, and the result carries risk level critical
    and [used_daemon] = false; success is the exit status of the command
    itself: true exactly when the command ends in time with exit status 0,
    with the exit code the command returned (-1 when it did not end). *)
Theorem C1_fallback_labels_but_runs
    (os : OS) (elapsed_ms : Z) (loaded : option AccessPolicy)
    (self : Client.PrivilegedClient) (p : AccessPolicy) (ac : AccessController)
    (c working_dir : string) (t : Z) :
  Client._controller (Client.ensure_controller loaded self) = Some ac ->
  _compile_patterns p = Some ac ->
  (exists src, In src ALWAYS_DENIED /\ Re.re_search true src (chars c) = true) ->
  let r := Client.execute None os elapsed_ms loaded self c working_dir t in
  hd_error (Client.calls r) = Some (Spawn c working_dir) /\
  Client.risk_level (Client.result r) = "critical" /\
  Client.used_daemon (Client.result r) = false /\
  (Client.success (Client.result r) = true <->
   exists stdout stderr, os c working_dir t = Exits 0 stdout stderr) /\
  Client.exit_code (Client.result r) =
    match os c working_dir t with
    | Exits returncode _ _ => returncode
    | _ => (-1)%Z
    end.
Proof.
  intros Hctl Hc Hm. cbv zeta.
  unfold Client.execute, Client._execute_direct. cbv zeta. rewrite Hctl.
  rewrite (@always_denied_decision p ac c Hc Hm).
  destruct (os c working_dir t) as [e | rc out err |] eqn:Eo; cbn.
  - repeat split; try reflexivity; try discriminate.
    intros (o & e' & H). discriminate.
  - repeat split; try reflexivity.
    + intros H. apply Z.eqb_eq in H. subst rc. eauto.
    + intros (o & e' & H). inversion H; subst. reflexivity.
  - repeat split; try reflexivity; try discriminate.
    intros (o & e' & H). discriminate.
Qed.

Lemma C1_witness :
  let r := Client.execute None os_quick 5 (Some AccessPolicy_default)
             fresh_client "rm -rf /" "/tmp" 60 in
  hd_error (Client.calls r) = Some (Spawn "rm -rf /" "/tmp") /\
  Client.risk_level (Client.result r) = "critical" /\
  Client.used_daemon (Client.result r) = false /\
  (Client.success (Client.result r) = true <->
   exists stdout stderr, os_quick "rm -rf /" "/tmp" 60%Z = Exits 0 stdout stderr) /\
  Client.exit_code (Client.result r) = 0%Z.
Proof.
  refine (@C1_fallback_labels_but_runs os_quick 5 (Some AccessPolicy_default)
            fresh_client AccessPolicy_default (controller_of AccessPolicy_default)
            "rm -rf /" "/tmp" 60 _ _ _).
  - vm_compute. reflexivity.
  - vm_compute. reflexivity.
  - exists "rm\s+(-rf?|--recursive)\s+/\s*$". split.
    + unfold ALWAYS_DENIED. repeat (first [left; reflexivity | right]).
    + vm_compute. reflexivity.
Defined.

(* ===================================================================== *)
(** ** More on the access controller: modes, levels, white space, risk *)
(* ===================================================================== *)

Module ModeFacts.
Import Trim TrimFacts ReSem ReSemFacts.

Lemma compile_all_app fl a : forall b ps,
  Re.compile_all fl (a ++ b) = Some ps ->
  exists pa pb, Re.compile_all fl a = Some pa /\ Re.compile_all fl b = Some pb /\
                ps = (pa ++ pb)%list.
Proof.
  induction a as [|s0 t IH]; intros b ps H.
  - exists [], ps. auto.
  - cbn [app Re.compile_all] in H. fold (app t b) in H.
    destruct (Re.compile fl s0) as [c0|] eqn:E0; [|discriminate].
    destruct (Re.compile_all fl (t ++ b)) as [cs|] eqn:Et; [|discriminate].
    inversion H; subst ps.
    destruct (IH b cs Et) as (pa & pb & Ha & Hb & ->).
    exists (c0 :: pa), pb. cbn [Re.compile_all]. rewrite E0, Ha. auto.
Qed.

Lemma compile_all_fails fl e : forall l,
  In e l -> Re.compile fl e = None -> Re.compile_all fl l = None.
Proof.
  induction l as [|x t IH]; intros Hin He; [destruct Hin|].
  cbn [Re.compile_all]. destruct Hin as [-> | Hin].
  - rewrite He. reflexivity.
  - rewrite (IH Hin He). destruct (Re.compile fl x); reflexivity.
Qed.

(** [.*] matches at the start of every text. *)
Lemma dot_star_matches (text : list ascii) :
  Re.match_ (mkPattern (Star (One TAny)) false) text = true.
Proof. apply match_spec. exists 0. simpl. constructor. Qed.

(** *** Trimming and padding *)

Lemma lstrip_all_space l : all_space l -> lstrip l = [].
Proof.
  induction 1 as [|x t Hx _ IH]; simpl; [reflexivity|]. rewrite Hx. exact IH.
Qed.

Lemma lstrip_app_space pre l : all_space pre -> lstrip (pre ++ l) = lstrip l.
Proof.
  induction 1 as [|x t Hx _ IH]; simpl; [reflexivity|]. rewrite Hx. exact IH.
Qed.

Lemma lstrip_app_keep l post :
  lstrip l <> [] -> lstrip (l ++ post) = (lstrip l ++ post)%list.
Proof.
  induction l as [|x t IH]; simpl; intros H; [contradiction|].
  destruct (is_space x); [apply IH; assumption | reflexivity].
Qed.

Lemma rstrip_app_space l post : all_space post -> rstrip (l ++ post) = rstrip l.
Proof.
  intros H. unfold rstrip. rewrite rev_app_distr.
  rewrite lstrip_app_space by (apply Forall_rev; assumption). reflexivity.
Qed.

Lemma all_space_app a b : all_space a -> all_space b -> all_space (a ++ b).
Proof. intros Ha Hb. apply Forall_app. split; assumption. Qed.

Lemma lstrip_only_space l : lstrip l = [] -> all_space l.
Proof.
  induction l as [|x t IH]; simpl; intros H; [constructor|].
  destruct (is_space x) eqn:Hx; [|discriminate].
  constructor; [exact Hx | apply IH; exact H].
Qed.

(** Padding a text with white space at both ends does not change what
    [strip] returns. *)
Lemma strip_padding pre l post :
  all_space pre -> all_space post -> strip (pre ++ l ++ post) = strip l.
Proof.
  intros Hpre Hpost. unfold strip. rewrite lstrip_app_space by assumption.
  destruct (lstrip l) as [|x t] eqn:El.
  - rewrite lstrip_all_space; [reflexivity|].
    apply all_space_app; [apply lstrip_only_space|]; assumption.
  - rewrite lstrip_app_keep by (rewrite El; discriminate).
    rewrite El. apply rstrip_app_space. assumption.
Qed.

Lemma chars_app (a b : string) : chars (a ++ b) = (chars a ++ chars b)%list.
Proof.
  unfold chars. induction a as [|c a IH]; simpl; [reflexivity|].
  rewrite IH. reflexivity.
Qed.

(** *** The substring test *)

Lemma starts_with_app p l post :
  starts_with p l = true -> starts_with p (l ++ post) = true.
Proof.
  revert l. induction p as [|a p IH]; intros l H; [reflexivity|].
  destruct l as [|b l]; simpl in *; [discriminate|].
  apply andb_true_iff in H. destruct H as [H1 H2].
  rewrite H1. simpl. apply IH. assumption.
Qed.

Lemma contains_app_r needle l post :
  contains needle l = true -> contains needle (l ++ post) = true.
Proof.
  induction l as [|b l IH]; intros H.
  - simpl in H. rewrite orb_false_r in H.
    destruct needle; [|discriminate]. destruct post; reflexivity.
  - cbn [contains] in H. apply orb_true_iff in H.
    cbn [app contains]. apply orb_true_iff. destruct H as [H | H].
    + left. apply (starts_with_app needle (b :: l) post H).
    + right. apply IH. assumption.
Qed.

Lemma contains_app_l needle pre l :
  contains needle l = true -> contains needle (pre ++ l) = true.
Proof.
  induction pre as [|b pre IH]; intros H; [assumption|].
  cbn [app contains]. rewrite (IH H). apply orb_true_r.
Qed.

Lemma contains_embed needle pre l post :
  contains needle l = true -> contains needle (pre ++ l ++ post) = true.
Proof. intros H. apply contains_app_l, contains_app_r. assumption. Qed.

End ModeFacts.

Import ModeFacts.

(** X1. In WHITELIST mode with an empty white list every command is denied,
    whatever the command and the black list. *)
Theorem whitelist_mode_empty_denies_all
    (p : AccessPolicy) (ac : AccessController) (c : string) :
  level p = WHITELIST -> whitelist p = [] ->
  _compile_patterns p = Some ac ->
  dec_allowed (check_command ac c) = false.
Proof.
  intros Hl Hw Hc.
  destruct (compile_patterns_inv _ Hc)
    as (ad & mp & al & pa & wl & bl & E1 & E2 & E3 & E4 & E5 & E6 & ->).
  rewrite Hw in E5. cbn [Re.compile_all] in E5. inversion E5; subst wl.
  unfold check_command, dec_allowed. cbv zeta.
  cbn [policy _always_denied _blacklist _whitelist _preset_allowed].
  rewrite Hl.
  destruct (existsb _ ad); [reflexivity|].
  destruct (existsb _ bl); reflexivity.
Qed.

Lemma whitelist_mode_empty_denies_all_witness :
  dec_allowed (check_command
                 (controller_of (mkAccessPolicy WHITELIST [] [] [] [] true true 300))
                 "ls") = false.
Proof.
  apply (@whitelist_mode_empty_denies_all
           (mkAccessPolicy WHITELIST [] [] [] [] true true 300)
           (controller_of (mkAccessPolicy WHITELIST [] [] [] [] true true 300)) "ls");
    vm_compute; reflexivity.
Defined.

(** The sources compiled for the FULL_ACCESS level begin with [.*]. *)
Lemma full_access_sources :
  exists rest, preset_sources FULL_ACCESS = Some (".*" :: rest).
Proof. eexists. vm_compute. reflexivity. Qed.

(** X2. In BLACKLIST mode and at the FULL_ACCESS level a command is allowed
    exactly when no ALWAYS_DENIED pattern and no blacklist pattern matches
    the trimmed command. *)
Theorem open_modes_allow_unless_denied
    (p : AccessPolicy) (ac : AccessController) (c : string) :
  level p = BLACKLIST \/ level p = FULL_ACCESS ->
  _compile_patterns p = Some ac ->
  (dec_allowed (check_command ac c) = true <->
   hits (_always_denied ac) (strip (chars c)) = false /\
   hits (_blacklist ac) (strip (chars c)) = false).
Proof.
  intros Hl Hc.
  destruct (compile_patterns_inv _ Hc)
    as (ad & mp & al & pa & wl & bl & E1 & E2 & E3 & E4 & E5 & E6 & ->).
  unfold check_command, dec_allowed, hits. cbv zeta.
  cbn [policy _always_denied _blacklist _whitelist _preset_allowed].
  destruct (existsb _ ad); [cbn; split; [discriminate | intros [? _]; discriminate]|].
  destruct (existsb _ bl); [cbn; split; [discriminate | intros [_ ?]; discriminate]|].
  destruct Hl as [Hl | Hl]; rewrite Hl; cbn [AccessLevel_eqb].
  - cbn. tauto.
  - rewrite Hl in E3. destruct full_access_sources as (rest & Hs).
    rewrite Hs in E3. inversion E3; subst al.
    cbn [Re.compile_all] in E4.
    destruct (Re.compile false ".*") as [q|] eqn:Eq; [|discriminate].
    destruct (Re.compile_all false rest) as [qs|]; [|discriminate].
    inversion E4; subst pa.
    assert (q = mkPattern (Star (One TAny)) false)
      by (vm_compute in Eq; inversion Eq; reflexivity).
    subst q. cbn [existsb]. rewrite dot_star_matches. cbn. tauto.
Qed.

Lemma open_modes_allow_unless_denied_witness :
  dec_allowed (check_command
                 (controller_of (mkAccessPolicy FULL_ACCESS [] [] [] [] true true 300))
                 "shutdown -h now") = true.
Proof.
  apply (proj2 (@open_modes_allow_unless_denied
                  (mkAccessPolicy FULL_ACCESS [] [] [] [] true true 300)
                  (controller_of (mkAccessPolicy FULL_ACCESS [] [] [] [] true true 300))
                  "shutdown -h now" (or_intror eq_refl) eq_refl)).
  vm_compute. split; reflexivity.
Defined.

(** The sources of a higher preset level end with those of a lower one. *)
Lemma sources_nest l1 l2 r1 r2 :
  preset_rank l1 = Some r1 -> preset_rank l2 = Some r2 -> r1 <= r2 ->
  exists extra s1,
    preset_sources l1 = Some s1 /\ preset_sources l2 = Some (extra ++ s1)%list.
Proof.
  pose (R := own_patterns RESTRICTED). pose (S := own_patterns STANDARD).
  pose (E := own_patterns ELEVATED). pose (F := own_patterns FULL_ACCESS).
  destruct l1, l2; cbn [preset_rank]; intros H1 H2 Hle;
    inversion H1; inversion H2; subst; try lia.
  - exists [], R. split; vm_compute; reflexivity.
  - exists S, R. split; vm_compute; reflexivity.
  - exists (E ++ S)%list, R. split; vm_compute; reflexivity.
  - exists (F ++ E ++ S)%list, R. split; vm_compute; reflexivity.
  - exists [], (S ++ R)%list. split; vm_compute; reflexivity.
  - exists E, (S ++ R)%list. split; vm_compute; reflexivity.
  - exists (F ++ E)%list, (S ++ R)%list. split; vm_compute; reflexivity.
  - exists [], (E ++ S ++ R)%list. split; vm_compute; reflexivity.
  - exists F, (E ++ S ++ R)%list. split; vm_compute; reflexivity.
  - exists [], (F ++ E ++ S ++ R)%list. split; vm_compute; reflexivity.
Qed.

(** X3. The preset levels nest: with the same black list, a command allowed at
    a preset level is allowed at every higher preset level
    (RESTRICTED, STANDARD, ELEVATED, FULL_ACCESS in this order). *)
Theorem preset_levels_nest
    (p1 p2 : AccessPolicy) (ac1 ac2 : AccessController) (r1 r2 : nat) (c : string) :
  preset_rank (level p1) = Some r1 -> preset_rank (level p2) = Some r2 ->
  r1 <= r2 -> blacklist p2 = blacklist p1 ->
  _compile_patterns p1 = Some ac1 -> _compile_patterns p2 = Some ac2 ->
  dec_allowed (check_command ac1 c) = true ->
  dec_allowed (check_command ac2 c) = true.
Proof.
  intros H1 H2 Hle Hbl Hc1 Hc2.
  assert (N1 : AccessLevel_eqb (level p1) WHITELIST = false /\
               AccessLevel_eqb (level p1) BLACKLIST = false).
  { clear - H1. destruct (level p1); try discriminate H1; split; reflexivity. }
  assert (N2 : AccessLevel_eqb (level p2) WHITELIST = false /\
               AccessLevel_eqb (level p2) BLACKLIST = false).
  { clear - H2. destruct (level p2); try discriminate H2; split; reflexivity. }
  destruct (compile_patterns_inv _ Hc1)
    as (ad & mp & al & pa & wl & bl & E1 & E2 & E3 & E4 & E5 & E6 & ->).
  destruct (compile_patterns_inv _ Hc2)
    as (ad' & mp' & al' & pa' & wl' & bl' & F1 & F2 & F3 & F4 & F5 & F6 & ->).
  rewrite E1 in F1. inversion F1; subst ad'.
  rewrite Hbl, E6 in F6. inversion F6; subst bl'.
  destruct (sources_nest _ _ H1 H2 Hle) as (extra & s1 & Hs1 & Hs2).
  rewrite Hs1 in E3. inversion E3; subst al.
  rewrite Hs2 in F3. inversion F3; subst al'.
  destruct (compile_all_app _ _ _ F4) as (pe & pb & _ & Hb & ->).
  rewrite E4 in Hb. inversion Hb; subst pb.
  unfold check_command, dec_allowed. cbv zeta.
  cbn [policy _always_denied _blacklist _whitelist _preset_allowed].
  destruct (existsb _ ad); [auto|].
  destruct (existsb _ bl); [auto|].
  destruct N1 as [-> ->]. destruct N2 as [-> ->].
  rewrite existsb_app.
  destruct (existsb _ pa); [|cbn; discriminate].
  rewrite orb_true_r. reflexivity.
Qed.

Lemma preset_levels_nest_witness :
  dec_allowed (check_command
                 (controller_of (mkAccessPolicy ELEVATED [] [] [] [] true true 300))
                 "cat /etc/hosts") = true.
Proof.
  apply (@preset_levels_nest
           (mkAccessPolicy RESTRICTED [] [] [] [] true true 300)
           (mkAccessPolicy ELEVATED [] [] [] [] true true 300)
           (controller_of (mkAccessPolicy RESTRICTED [] [] [] [] true true 300))
           (controller_of (mkAccessPolicy ELEVATED [] [] [] [] true true 300))
           0 2 "cat /etc/hosts");
    try (vm_compute; reflexivity).
  lia.
Defined.

(** X4. White space around a command does not change the decision: padding
    the command with blanks, tabs or newlines at either end gives the same
    result of [check_command]. *)
Theorem padding_does_not_change_decision
    (ac : AccessController) (pre c post : string) :
  Trim.all_space (chars pre) -> Trim.all_space (chars post) ->
  check_command ac (pre ++ c ++ post) = check_command ac c.
Proof.
  intros Hpre Hpost. unfold check_command. cbv zeta.
  rewrite !chars_app, strip_padding by assumption. reflexivity.
Qed.

Lemma padding_does_not_change_decision_witness :
  check_command (controller_of AccessPolicy_default) ("  " ++ "ls -la" ++ " ")
  = check_command (controller_of AccessPolicy_default) "ls -la".
Proof.
  apply (@padding_does_not_change_decision (controller_of AccessPolicy_default)
           "  " "ls -la" " ");
    repeat constructor.
Defined.

Lemma any_marker_embed (markers : list string) (pre l post : list ascii) :
  existsb (fun m => contains (chars m) l) markers = true ->
  existsb (fun m => contains (chars m) (pre ++ l ++ post)) markers = true.
Proof.
  rewrite !existsb_exists. intros (m & Hin & Hm). exists m.
  split; [assumption | apply contains_embed; assumption].
Qed.

(** X5. The lexical heuristic never goes down when text is added around a
    command: the risk of [pre ++ c ++ post] is at least the risk of [c]. *)
Theorem risk_heuristic_monotone (ac : AccessController) (pre c post : string) :
  risk_rank (get_risk_level ac c) <=
  risk_rank (get_risk_level ac (pre ++ c ++ post)).
Proof.
  unfold get_risk_level. cbv zeta.
  rewrite !chars_app. unfold lower. rewrite !map_app.
  fold (lower (chars pre)) (lower (chars c)) (lower (chars post)).
  set (big := (lower (chars pre) ++ lower (chars c) ++ lower (chars post))%list).
  set (crit := ["rm -rf"; "dd if="; "mkfs"; "> /dev/"; "chmod 777 /"]).
  set (high := ["rm -r"; "sudo"; "su -"; "chmod"; "chown"; "kill -9";
                "systemctl stop"; "service stop"; "iptables"]).
  set (med := ["install"; "remove"; "delete"; "modify"; "update";
               "mv /"; "cp /"; "docker run"]).
  pose proof (any_marker_embed crit (lower (chars pre)) (lower (chars c))
                (lower (chars post))) as Hc.
  pose proof (any_marker_embed high (lower (chars pre)) (lower (chars c))
                (lower (chars post))) as Hh.
  pose proof (any_marker_embed med (lower (chars pre)) (lower (chars c))
                (lower (chars post))) as Hm.
  fold big in Hc, Hh, Hm.
  set (a1 := existsb (fun m => contains (chars m) (lower (chars c))) crit) in *.
  set (a2 := existsb (fun m => contains (chars m) (lower (chars c))) high) in *.
  set (a3 := existsb (fun m => contains (chars m) (lower (chars c))) med) in *.
  set (b1 := existsb (fun m => contains (chars m) big) crit) in *.
  set (b2 := existsb (fun m => contains (chars m) big) high) in *.
  set (b3 := existsb (fun m => contains (chars m) big) med) in *.
  clearbody a1 a2 a3 b1 b2 b3.
  destruct a1, b1, a2, b2, a3, b3;
    try discriminate (Hc eq_refl); try discriminate (Hh eq_refl);
    try discriminate (Hm eq_refl); vm_compute; lia.
Qed.

(** X6. Outside WHITELIST mode the white list plays no part: two policies that
    differ only in their white lists give the same decision on every
    command. *)
Theorem whitelist_unused_outside_whitelist_mode
    (p : AccessPolicy) (wl' : list string) (ac ac' : AccessController) (c : string) :
  level p <> WHITELIST ->
  _compile_patterns p = Some ac ->
  _compile_patterns (Config.set_whitelist p wl') = Some ac' ->
  check_command ac' c = check_command ac c.
Proof.
  intros Hl Hc Hc'.
  destruct (compile_patterns_inv _ Hc)
    as (ad & mp & al & pa & wl & bl & E1 & E2 & E3 & E4 & E5 & E6 & ->).
  destruct (compile_patterns_inv _ Hc')
    as (ad' & mp' & al' & pa' & wl2 & bl' & F1 & F2 & F3 & F4 & F5 & F6 & ->).
  cbn [Config.set_whitelist level whitelist blacklist] in *.
  rewrite E1 in F1. rewrite E3 in F3. inversion F1; inversion F3; subst ad' al'.
  rewrite E4 in F4. rewrite E6 in F6. inversion F4; inversion F6; subst pa' bl'.
  unfold check_command. cbv zeta.
  cbn [policy _always_denied _blacklist _whitelist _preset_allowed].
  change (level (Config.set_whitelist p wl')) with (level p).
  destruct (level p); try reflexivity. contradiction Hl. reflexivity.
Qed.

Lemma whitelist_unused_outside_whitelist_mode_witness :
  check_command
    (controller_of (Config.set_whitelist AccessPolicy_default ["^shutdown"]))
    "shutdown -h now"
  = check_command (controller_of AccessPolicy_default) "shutdown -h now".
Proof.
  apply (@whitelist_unused_outside_whitelist_mode AccessPolicy_default
           ["^shutdown"] (controller_of AccessPolicy_default)
           (controller_of (Config.set_whitelist AccessPolicy_default ["^shutdown"]))
           "shutdown -h now").
  - vm_compute. discriminate.
  - vm_compute. reflexivity.
  - vm_compute. reflexivity.
Defined.

(** A policy with an entry that does not compile has no controller. *)
Lemma bad_entry_no_controller (p : AccessPolicy) (e : string) :
  Re.compile false e = None ->
  In e (whitelist p) \/ In e (blacklist p) ->
  _compile_patterns p = None.
Proof.
  intros He Hin. unfold _compile_patterns.
  destruct (Re.compile_all true ALWAYS_DENIED); [|reflexivity].
  destruct (Re.compile_all true MANIPULATION_INDICATORS); [|reflexivity].
  destruct (preset_sources (level p)) as [al|]; [|reflexivity].
  destruct (Re.compile_all false al); [|reflexivity].
  destruct Hin as [Hin | Hin].
  - rewrite (@compile_all_fails false e (whitelist p) Hin He). reflexivity.
  - rewrite (@compile_all_fails false e (blacklist p) Hin He).
    destruct (Re.compile_all false (whitelist p)); reflexivity.
Qed.

(** ** The policy on disk and the configuration tool *)

Module ConfigFacts.
Import Config.

Lemma level_value_round_trip (l : AccessLevel) :
  AccessLevel_of_value (level_value l) = Some l.
Proof. destruct l; reflexivity. Qed.

Lemma policy_of_config_of_policy (p : AccessPolicy) :
  policy_of_config (update DEFAULT_CONFIG (config_of_policy p)) = Some p.
Proof.
  destruct p as [l wl bl ap dp ra au mx]. unfold policy_of_config. cbn.
  rewrite level_value_round_trip. reflexivity.
Qed.

Lemma read_write st path f : read (write st path f) path = f.
Proof. destruct path; reflexivity. Qed.

Lemma load_saved st p path :
  load_policy (save_policy st p path) (Some path) = Some p.
Proof.
  unfold load_policy, save_policy. rewrite read_write.
  apply policy_of_config_of_policy.
Qed.

Lemma load_for_edit_saved st p path :
  load_for_edit (save_policy st p path) path = Some p.
Proof.
  unfold load_for_edit, file_exists, save_policy. rewrite read_write.
  apply (load_saved st p path).
Qed.

Lemma mem_In x l : mem x l = true <-> In x l.
Proof.
  unfold mem. rewrite existsb_exists. split.
  - intros (y & Hy & He). apply String.eqb_eq in He. subst. assumption.
  - intros H. exists x. split; [assumption | apply String.eqb_refl].
Qed.

Lemma mem_snoc x l : mem x (l ++ [x]) = true.
Proof. apply mem_In, in_or_app. right. left. reflexivity. Qed.

Lemma remove_first_snoc x l : mem x l = false -> remove_first x (l ++ [x]) = l.
Proof.
  unfold mem. induction l as [|y t IH]; cbn; intros H.
  - rewrite String.eqb_refl. reflexivity.
  - apply orb_false_iff in H. destruct H as [Hxy Ht].
    rewrite String.eqb_sym, Hxy. rewrite (IH Ht). reflexivity.
Qed.

End ConfigFacts.

Import Config ConfigFacts.

(** X7. The policy read back from the file [save_policy] wrote is the policy
    that was saved, and saving to one location leaves the other file as it
    was. *)
Theorem save_load_round_trip (st : Store) (p : AccessPolicy) (path : ConfigPath) :
  let other := match path with
               | SYSTEM_CONFIG_PATH => CONFIG_PATH
               | CONFIG_PATH => SYSTEM_CONFIG_PATH
               end in
  load_policy (save_policy st p path) (Some path) = Some p /\
  read (save_policy st p path) other = read st other.
Proof.
  cbv zeta. split; [apply load_saved|]. destruct path; reflexivity.
Qed.




Lemma user_file_shadowed st f :
  file_exists st SYSTEM_CONFIG_PATH = true ->
  load_policy (write st CONFIG_PATH f) None = load_policy st None.
Proof.
  intros H. destruct st as [sf uf].
  unfold load_policy, file_exists, read, write in *. cbn in *.
  destruct sf; [discriminate | reflexivity | reflexivity].
Qed.

(** X9. When a system configuration file exists, a user-level change of the
    white list or of the black list is saved but not seen: the decision
    that [test] reports, taken from [load_policy()], is the same as
    before. *)
Theorem system_file_shadows_user_changes
    (st st' : Store) (pattern command : string) :
  file_exists st SYSTEM_CONFIG_PATH = true ->
  add_whitelist st pattern false = Some st' \/
  add_blacklist st pattern false = Some st' ->
  test_command st' command = test_command st command.
Proof.
  intros Hs H. unfold test_command.
  assert (E : load_policy st' None = load_policy st None).
  { destruct H as [H | H]; unfold add_whitelist, add_blacklist in H;
      cbn [path_for] in H;
      destruct (load_for_edit st CONFIG_PATH) as [p|]; try discriminate;
      destruct (negb _); inversion H; subst; try reflexivity;
      unfold save_policy; apply user_file_shadowed; assumption. }
  rewrite E. reflexivity.
Qed.

Lemma system_file_shadows_user_changes_witness :
  test_command
    (save_policy (mkStore (Holds DEFAULT_CONFIG) Missing)
       (append_blacklist
          (mkAccessPolicy STANDARD [] [] ["/tmp"; "/home"]
             ["/etc/shadow"; "/etc/sudoers"] true true 300) "^ls")
       CONFIG_PATH)
    "ls -la"
  = Some (true, "low", "Allowed by standard preset").
Proof.
  etransitivity.
  - apply (@system_file_shadows_user_changes
             (mkStore (Holds DEFAULT_CONFIG) Missing) _ "^ls" "ls -la" eq_refl).
    right. reflexivity.
  - vm_compute. reflexivity.
Defined.

(** What [whitelist add] leaves behind. *)
Lemma add_whitelist_effect
    (st st' : Store) (pattern : string) (system : bool) :
  add_whitelist st pattern system = Some st' ->
  (exists p', load_for_edit st' (path_for system) = Some p' /\
              In pattern (whitelist p')) /\
  add_whitelist st' pattern system = Some st'.
Proof.
  unfold add_whitelist. cbv zeta.
  destruct (load_for_edit st (path_for system)) as [p|] eqn:El; [|discriminate].
  destruct (mem pattern (whitelist p)) eqn:Em; cbn [negb]; intros H;
    inversion H; subst st'.
  - rewrite El, Em. cbn [negb]. split; [|reflexivity].
    exists p. split; [reflexivity | apply mem_In; assumption].
  - rewrite load_for_edit_saved. cbn [append_whitelist whitelist].
    rewrite mem_snoc. cbn [negb]. split; [|reflexivity].
    eexists. split; [reflexivity|]. apply in_or_app. right. left. reflexivity.
Qed.

(** X10. Adding a pattern to the white list records it, and adding it a second
    time changes nothing. *)
Theorem add_whitelist_recorded_once
    (st st' : Store) (pattern : string) (system : bool) :
  add_whitelist st pattern system = Some st' ->
  (exists p', load_for_edit st' (path_for system) = Some p' /\
              In pattern (whitelist p')) /\
  add_whitelist st' pattern system = Some st'.
Proof. apply add_whitelist_effect. Qed.

Lemma add_whitelist_recorded_once_witness :
  add_whitelist
    (save_policy (mkStore Missing Missing) (append_whitelist
       (mkAccessPolicy STANDARD [] [] ["/tmp"; "/home"]
          ["/etc/shadow"; "/etc/sudoers"] true true 300) "^apt ") CONFIG_PATH)
    "^apt " false
  = Some (save_policy (mkStore Missing Missing) (append_whitelist
       (mkAccessPolicy STANDARD [] [] ["/tmp"; "/home"]
          ["/etc/shadow"; "/etc/sudoers"] true true 300) "^apt ") CONFIG_PATH).
Proof.
  apply (@add_whitelist_recorded_once (mkStore Missing Missing) _ "^apt " false).
  reflexivity.
Defined.

(** X11. Removing a pattern that was just added, and was not there before,
    restores the policy: the tool reads back the policy it started from. *)
Theorem remove_undoes_add
    (st : Store) (p : AccessPolicy) (pattern : string) (system : bool) :
  load_for_edit st (path_for system) = Some p ->
  mem pattern (whitelist p) = false ->
  exists st1 st2,
    add_whitelist st pattern system = Some st1 /\
    remove_whitelist st1 pattern system = Some st2 /\
    load_for_edit st2 (path_for system) = Some p.
Proof.
  intros El Em.
  exists (save_policy st (append_whitelist p pattern) (path_for system)).
  eexists. split; [|split].
  - unfold add_whitelist. cbv zeta. rewrite El, Em. reflexivity.
  - unfold remove_whitelist. cbv zeta. rewrite load_for_edit_saved.
    cbn [append_whitelist whitelist]. rewrite mem_snoc. reflexivity.
  - rewrite load_for_edit_saved. cbn [append_whitelist whitelist].
    rewrite (remove_first_snoc _ _ Em). destruct p; reflexivity.
Qed.

Lemma remove_undoes_add_witness :
  exists st1 st2,
    add_whitelist (mkStore Missing Missing) "^apt " true = Some st1 /\
    remove_whitelist st1 "^apt " true = Some st2 /\
    load_for_edit st2 SYSTEM_CONFIG_PATH =
      Some (mkAccessPolicy STANDARD [] [] ["/tmp"; "/home"]
              ["/etc/shadow"; "/etc/sudoers"] true true 300).
Proof.
  apply (@remove_undoes_add (mkStore Missing Missing) _ "^apt " true);
    reflexivity.
Defined.

(** X12. The tool does not check that an entry is a regular expression: after
    [whitelist add] of an entry that [re.compile] rejects, the policy the
    tool reads back cannot be turned into a controller. *)
Theorem uncompilable_entry_disables_controller
    (st st' : Store) (entry : string) (system : bool) :
  Re.compile false entry = None ->
  add_whitelist st entry system = Some st' ->
  exists p', load_for_edit st' (path_for system) = Some p' /\
             _compile_patterns p' = None.
Proof.
  intros He Ha.
  destruct (@add_whitelist_effect st st' entry system Ha)
    as [(p' & Hl & Hin) _].
  exists p'. split; [assumption|].
  apply (@bad_entry_no_controller p' entry He). left. assumption.
Qed.

Lemma uncompilable_entry_disables_controller_witness :
  exists p',
    load_for_edit
      (save_policy (mkStore Missing Missing)
         (append_whitelist
            (mkAccessPolicy STANDARD [] [] ["/tmp"; "/home"]
               ["/etc/shadow"; "/etc/sudoers"] true true 300) "(ls")
         CONFIG_PATH)
      CONFIG_PATH = Some p' /\
    _compile_patterns p' = None.
Proof.
  apply (@uncompilable_entry_disables_controller (mkStore Missing Missing) _
           "(ls" false).
  - vm_compute. reflexivity.
  - reflexivity.
Defined.

(** X13. The daemon takes its level from [--level], whose choices are the four
    presets, and never from the configuration file: the rest of the policy
    is the loaded one, and neither the white-list nor the black-list level
    can be selected. *)
Theorem daemon_level_comes_from_argument
    (st : Store) (config : option ConfigPath) (level_arg : option string)
    (p : AccessPolicy) :
  daemon_main_policy st config level_arg = Some p ->
  level_value (level p) =
    match level_arg with Some a => a | None => "standard" end /\
  level p <> WHITELIST /\ level p <> BLACKLIST /\
  exists q, load_policy st config = Some q /\ p = set_policy_level q (level p).
Proof.
  unfold daemon_main_policy. cbv zeta.
  set (a := match level_arg with Some a => a | None => "standard" end).
  destruct (mem a daemon_level_choices) eqn:Em; cbn [negb]; [|discriminate].
  destruct (load_policy st config) as [q|]; [|discriminate].
  apply mem_In in Em. unfold daemon_level_choices in Em. cbn [In] in Em.
  destruct Em as [E | [E | [E | [E | []]]]]; rewrite <- E; cbn;
    intros H; inversion H; subst p; cbn;
    (split; [reflexivity|]); (split; [discriminate|]);
    (split; [discriminate|]); exists q; split; reflexivity.
Qed.

Lemma daemon_level_comes_from_argument_witness :
  exists p,
    daemon_main_policy
      (save_policy (mkStore Missing Missing)
         (set_policy_level AccessPolicy_default WHITELIST) SYSTEM_CONFIG_PATH)
      None None = Some p /\
    level_value (level p) = "standard".
Proof.
  eexists. split; [reflexivity|].
  apply (@daemon_level_comes_from_argument
           (save_policy (mkStore Missing Missing)
              (set_policy_level AccessPolicy_default WHITELIST)
              SYSTEM_CONFIG_PATH)
           None None _ eq_refl).
Defined.

Module ServeFacts.
Import Proc.

(** What [_process_request] does with a command that does not pass. *)
Lemma process_denied os elapsed_ms ac request :
  dec_allowed (check_command ac (Daemon.command request)) = false ->
  Daemon._process_request os elapsed_ms ac request =
  let risk := dec_risk (check_command ac (Daemon.command request)) in
  let reason := dec_reason (check_command ac (Daemon.command request)) in
  (Daemon.mkCommandResponse false "" ("Access denied: " ++ reason) (-1) risk
     (Daemon.request_id request) 0,
   [Daemon.log "command_denied" (Daemon.user request) (Daemon.command request)
      false risk reason None],
   []).
Proof.
  unfold Daemon._process_request, dec_allowed, dec_risk, dec_reason.
  destruct (check_command ac (Daemon.command request)) as [[a r] rs].
  cbn. intros ->. reflexivity.
Qed.

Lemma prefix_length n s : String.length (prefix n s) <= n.
Proof.
  unfold prefix. revert s. induction n as [|n IH]; intros [|c s]; cbn;
    try lia. specialize (IH s). lia.
Qed.

Lemma prefix_short n s : String.length s <= n -> prefix n s = s.
Proof.
  unfold prefix. revert s. induction n as [|n IH]; intros [|c s]; cbn;
    intros H; try reflexivity; try lia.
  rewrite IH by lia. reflexivity.
Qed.

End ServeFacts.
Import ServeFacts.

(** X14. A denied request never reaches the shell: the daemon makes no call on
    any process, answers success=false with exit code -1 and the risk of
    the decision, and writes one [command_denied] audit entry. *)
Theorem denied_request_is_never_spawned
    (os : Proc.OS) (elapsed_ms : Z) (ac : AccessController)
    (request : Daemon.CommandRequest) :
  dec_allowed (check_command ac (Daemon.command request)) = false ->
  let r := Daemon._process_request os elapsed_ms ac request in
  Daemon.calls r = [] /\
  Daemon.success (Daemon.response r) = false /\
  Daemon.exit_code (Daemon.response r) = (-1)%Z /\
  Daemon.output (Daemon.response r) = "" /\
  Daemon.risk_level (Daemon.response r) =
    dec_risk (check_command ac (Daemon.command request)) /\
  map Daemon.entry_action (Daemon.audit r) = ["command_denied"] /\
  map Daemon.entry_allowed (Daemon.audit r) = [false].
Proof.
  intros H. cbv zeta. rewrite (process_denied os elapsed_ms ac request H).
  repeat split; reflexivity.
Qed.

Lemma denied_request_is_never_spawned_witness :
  Daemon.calls
    (Daemon._process_request os_quick 5 (controller_of AccessPolicy_default)
       (Daemon.mkCommandRequest "rm -rf /" "/tmp" 60 "r9" "alice" "")) = [].
Proof.
  apply (@denied_request_is_never_spawned os_quick 5
           (controller_of AccessPolicy_default)
           (Daemon.mkCommandRequest "rm -rf /" "/tmp" 60 "r9" "alice" "")).
  vm_compute. reflexivity.
Defined.

(** X15. The daemon reports success exactly when the check allowed the command
    and the child ended in time with exit status 0. *)
Theorem daemon_success_iff_allowed_and_exit_zero
    (os : Proc.OS) (elapsed_ms : Z) (ac : AccessController)
    (request : Daemon.CommandRequest) :
  Daemon.success
    (Daemon.response (Daemon._process_request os elapsed_ms ac request)) = true
  <->
  dec_allowed (check_command ac (Daemon.command request)) = true /\
  exists stdout stderr,
    os (Daemon.command request) (Daemon.working_dir request)
       (Daemon.wait_timeout ac request) = Proc.Exits 0 stdout stderr.
Proof.
  destruct (dec_allowed (check_command ac (Daemon.command request))) eqn:Ea.
  - rewrite (DaemonFacts.process_allowed os elapsed_ms ac request Ea). cbv zeta.
    destruct (os _ _ _) as [e | rc out err |] eqn:Eo; cbn.
    + split; [discriminate | intros (_ & o & e' & H); discriminate].
    + split.
      * intros H. apply Z.eqb_eq in H. subst rc. split; [reflexivity|].
        exists out, err. reflexivity.
      * intros (_ & o & e' & H). inversion H; subst. reflexivity.
    + split; [discriminate | intros (_ & o & e' & H); discriminate].
  - rewrite (process_denied os elapsed_ms ac request Ea). cbn.
    split; [discriminate | intros (H & _); discriminate].
Qed.

(** X16. Every request leaves exactly one audit entry, except an allowed command
    that runs out of time, which leaves none; that is also the one case in
    which the child is killed. *)
Theorem timeout_is_the_unaudited_case
    (os : Proc.OS) (elapsed_ms : Z) (ac : AccessController)
    (request : Daemon.CommandRequest) :
  let r := Daemon._process_request os elapsed_ms ac request in
  let timed_out :=
    dec_allowed (check_command ac (Daemon.command request)) = true /\
    os (Daemon.command request) (Daemon.working_dir request)
       (Daemon.wait_timeout ac request) = Proc.TimesOut in
  (length (Daemon.audit r) = 0 <-> timed_out) /\
  (length (Daemon.audit r) = 1 <-> ~ timed_out) /\
  (In Proc.Kill (Daemon.calls r) <-> timed_out).
Proof.
  cbv zeta.
  destruct (dec_allowed (check_command ac (Daemon.command request))) eqn:Ea.
  - rewrite (DaemonFacts.process_allowed os elapsed_ms ac request Ea). cbv zeta.
    destruct (os _ _ _) as [e | rc out err |] eqn:Eo; cbn.
    + split; [|split].
      * split; [discriminate | intros (_ & H); discriminate].
      * split; [intros _ (_ & H); discriminate | reflexivity].
      * split; [intros [H | []]; discriminate | intros (_ & H); discriminate].
    + split; [|split].
      * split; [discriminate | intros (_ & H); discriminate].
      * split; [intros _ (_ & H); discriminate | reflexivity].
      * split; [intros [H | [H | []]]; discriminate
               | intros (_ & H); discriminate].
    + split; [|split].
      * split; [intros _; split; reflexivity | reflexivity].
      * split; [discriminate | intros H; exfalso; apply H; split; reflexivity].
      * split; [intros _; split; reflexivity | intros _; auto].
  - rewrite (process_denied os elapsed_ms ac request Ea). cbn.
    split; [|split].
    + split; [discriminate | intros (H & _); discriminate].
    + split; [intros _ (H & _); discriminate | reflexivity].
    + split; [intros [] | intros (H & _); discriminate].
Qed.

Lemma audit_entry_fields
    (os : Proc.OS) (elapsed_ms : Z) (ac : AccessController)
    (request : Daemon.CommandRequest) (e : Daemon.AuditEntry) :
  In e (Daemon.audit (Daemon._process_request os elapsed_ms ac request)) ->
  Daemon.entry_user e = Daemon.user request /\
  Daemon.entry_allowed e =
    dec_allowed (check_command ac (Daemon.command request)) /\
  Daemon.entry_risk_level e =
    dec_risk (check_command ac (Daemon.command request)) /\
  String.length (Daemon.entry_command e) <= 500 /\
  (String.length (Daemon.command request) <= 500 ->
   Daemon.entry_command e = Daemon.command request).
Proof.
  destruct (dec_allowed (check_command ac (Daemon.command request))) eqn:Ea.
  - rewrite (DaemonFacts.process_allowed os elapsed_ms ac request Ea). cbv zeta.
    destruct (os _ _ _) as [msg | rc out err |]; cbn [Daemon.audit fst snd In];
      try (intros [<- | []]; cbn;
           repeat split; try reflexivity;
           [apply prefix_length | apply prefix_short]).
    intros [].
  - rewrite (process_denied os elapsed_ms ac request Ea). cbv zeta.
    cbn [Daemon.audit fst snd In]. intros [<- | []]. cbn.
    repeat split; try reflexivity; [apply prefix_length | apply prefix_short].
Qed.

(** X17. What an audit entry holds: the user and the decision of the request,
    and the command cut to its first 500 characters (the whole command when
    it is not longer). *)
Theorem audit_entry_contents
    (os : Proc.OS) (elapsed_ms : Z) (ac : AccessController)
    (request : Daemon.CommandRequest) (e : Daemon.AuditEntry) :
  In e (Daemon.audit (Daemon._process_request os elapsed_ms ac request)) ->
  Daemon.entry_user e = Daemon.user request /\
  Daemon.entry_allowed e =
    dec_allowed (check_command ac (Daemon.command request)) /\
  Daemon.entry_risk_level e =
    dec_risk (check_command ac (Daemon.command request)) /\
  String.length (Daemon.entry_command e) <= 500 /\
  (String.length (Daemon.command request) <= 500 ->
   Daemon.entry_command e = Daemon.command request).
Proof. apply audit_entry_fields. Qed.

Lemma audit_entry_contents_witness :
  Daemon.entry_user
    (Daemon.log "command_denied" "alice" "rm -rf /" false "critical"
       "Command matches security-critical deny pattern" None) = "alice".
Proof.
  apply (@audit_entry_contents os_quick 5 (controller_of AccessPolicy_default)
           (Daemon.mkCommandRequest "rm -rf /" "/tmp" 60 "r9" "alice" "")).
  vm_compute. left. reflexivity.
Defined.

(** X18. The [user] a client writes into its request has no effect: the daemon
    replaces it by the name found from the peer credentials ([unknown] when
    they cannot be read), and that name is the one audited. *)
Theorem client_supplied_user_is_ignored
    (os : Proc.OS) (elapsed_ms : Z) (ac : AccessController)
    (peer : option string) (request : Daemon.CommandRequest) (claimed : string) :
  let forged :=
    Daemon.mkCommandRequest (Daemon.command request)
      (Daemon.working_dir request) (Daemon.timeout request)
      (Daemon.request_id request) claimed (Daemon.timestamp request) in
  Wire._handle_client os elapsed_ms ac peer (Wire.Decoded forged) =
  Wire._handle_client os elapsed_ms ac peer (Wire.Decoded request) /\
  Forall
    (fun e => Daemon.entry_user e =
              match peer with Some name => name | None => "unknown" end)
    (Wire.audit
       (Wire._handle_client os elapsed_ms ac peer (Wire.Decoded request))).
Proof.
  cbv zeta. split; [reflexivity|]. apply Forall_forall.
  intros e. unfold Wire._handle_client. cbv zeta.
  set (req := Daemon.mkCommandRequest _ _ _ _ _ _).
  intros H.
  assert (H' : In e (Daemon.audit (Daemon._process_request os elapsed_ms ac req))).
  { destruct (Daemon._process_request os elapsed_ms ac req) as [[resp au] cl].
    exact H. }
  destruct (@audit_entry_fields os elapsed_ms ac req e H') as [Hu _].
  exact Hu.
Qed.

(** X19. The daemon calls a process only for a request it could decode and whose
    command passes the check; the first call is then the spawn of that
    command in the directory asked for. *)
Theorem spawn_needs_decoded_and_allowed
    (os : Proc.OS) (elapsed_ms : Z) (ac : AccessController)
    (peer : option string) (data : Wire.Received) :
  Wire.calls (Wire._handle_client os elapsed_ms ac peer data) <> [] ->
  exists request,
    data = Wire.Decoded request /\
    dec_allowed (check_command ac (Daemon.command request)) = true /\
    hd_error (Wire.calls (Wire._handle_client os elapsed_ms ac peer data)) =
      Some (Proc.Spawn (Daemon.command request) (Daemon.working_dir request)).
Proof.
  destruct data as [| e | request]; cbn; try (intros H; contradiction H; reflexivity).
  set (req := Daemon.mkCommandRequest _ _ _ _ _ _).
  change (Daemon.command request) with (Daemon.command req).
  change (Daemon.working_dir request) with (Daemon.working_dir req).
  destruct (dec_allowed (check_command ac (Daemon.command req))) eqn:Ea.
  - rewrite (DaemonFacts.process_allowed os elapsed_ms ac req Ea). cbv zeta.
    intros _. exists request. split; [reflexivity|]. split; [exact Ea|].
    destruct (os _ _ _); reflexivity.
  - rewrite (process_denied os elapsed_ms ac req Ea). cbn.
    intros H; contradiction H; reflexivity.
Qed.

Lemma spawn_needs_decoded_and_allowed_witness :
  exists request,
    Wire.Decoded request_zero_timeout = Wire.Decoded request /\
    dec_allowed (check_command (controller_of AccessPolicy_default)
                   (Daemon.command request)) = true /\
    hd_error (Wire.calls
                (Wire._handle_client os_quick 5
                   (controller_of AccessPolicy_default) (Some "alice")
                   (Wire.Decoded request_zero_timeout))) =
      Some (Proc.Spawn (Daemon.command request) (Daemon.working_dir request)).
Proof.
  apply (@spawn_needs_decoded_and_allowed os_quick 5
           (controller_of AccessPolicy_default) (Some "alice")
           (Wire.Decoded request_zero_timeout)).
  vm_compute. discriminate.
Defined.



(** X21. In direct execution the local policy decides nothing: whatever policy
    is loaded or cached, the same calls are made on the child, starting
    with the spawn of the command as given, and the same outcome is
    returned; only the risk label can differ. *)
Theorem direct_execution_ignores_policy
    (os : Proc.OS) (elapsed_ms : Z) (loaded1 loaded2 : option AccessPolicy)
    (self1 self2 : Client.PrivilegedClient) (c working_dir : string) (t : Z) :
  let r1 := Client._execute_direct os elapsed_ms loaded1 self1 c working_dir t in
  let r2 := Client._execute_direct os elapsed_ms loaded2 self2 c working_dir t in
  Client.calls r1 = Client.calls r2 /\
  hd_error (Client.calls r1) = Some (Proc.Spawn c working_dir) /\
  Client.success (Client.result r1) = Client.success (Client.result r2) /\
  Client.output (Client.result r1) = Client.output (Client.result r2) /\
  Client.error (Client.result r1) = Client.error (Client.result r2) /\
  Client.exit_code (Client.result r1) = Client.exit_code (Client.result r2) /\
  Client.used_daemon (Client.result r1) = false.
Proof.
  cbv zeta. unfold Client._execute_direct. cbv zeta.
  destruct (os c working_dir t); repeat split; reflexivity.
Qed.

(** X22. A client builds its controller once: after a first direct execution
    with a policy that compiles, later executions are labelled by that
    controller, whatever [load_policy()] would return by then. *)
Theorem client_keeps_first_controller
    (os os' : Proc.OS) (elapsed_ms elapsed_ms' : Z) (p : AccessPolicy)
    (ac : AccessController) (later : option AccessPolicy)
    (self : Client.PrivilegedClient) (c c' working_dir working_dir' : string)
    (t t' : Z) :
  Client._controller self = None ->
  _compile_patterns p = Some ac ->
  let self1 :=
    snd (fst (Client._execute_direct os elapsed_ms (Some p) self c working_dir t)) in
  let r := Client._execute_direct os' elapsed_ms' later self1 c' working_dir' t' in
  Client.risk_level (Client.result r) = dec_risk (check_command ac c') /\
  snd (fst r) = self1.
Proof.
  intros Hn Hc. cbv zeta.
  assert (E1 : snd (fst (Client._execute_direct os elapsed_ms (Some p) self c
                           working_dir t))
               = Client.mkPrivilegedClient (Client.socket_path self) (Some p)
                   (Some ac)).
  { unfold Client._execute_direct, Client.ensure_controller. cbv zeta.
    rewrite Hn, Hc. destruct (os c working_dir t); reflexivity. }
  rewrite E1. unfold Client._execute_direct, Client.ensure_controller. cbn.
  destruct (os' c' working_dir' t'); split; reflexivity.
Qed.

Lemma client_keeps_first_controller_witness :
  Client.risk_level
    (Client.result
       (Client._execute_direct os_quick 5 (Some policy_whitelist_ls)
          (snd (fst (Client._execute_direct os_quick 5 (Some AccessPolicy_default)
                       fresh_client "ls" "/tmp" 60)))
          "rm -rf /" "/tmp" 60))
  = dec_risk (check_command (controller_of AccessPolicy_default) "rm -rf /").
Proof.
  apply (@client_keeps_first_controller os_quick os_quick 5 5
           AccessPolicy_default (controller_of AccessPolicy_default)
           (Some policy_whitelist_ls) fresh_client "ls" "rm -rf /" "/tmp" "/tmp"
           60 60).
  - reflexivity.
  - vm_compute. reflexivity.
Defined.

(* ===================================================================== *)
(** ** More on the engine: what [execute] runs and records *)
(* ===================================================================== *)

Module RunFacts.
Import Engine.

(** A property of the session and of the results yielded that every
    executed action keeps is kept by a pass over the plan. *)
Lemma run_actions_keeps
    (P : Session -> list ExecutionResult -> Prop) (ids : list string) :
  (forall s y a r,
     P s y -> existsb (String.eqb (id a)) ids = true ->
     P (add_result s a r) (y ++ [r])%list) ->
  forall w may_recover todo s y clock all_success,
    P s y ->
    P (pass_session (run_actions w ids may_recover todo s y clock all_success))
      (pass_yield (run_actions w ids may_recover todo s y clock all_success)).
Proof.
  intros Hstep w mr todo.
  induction todo as [|a rest IH]; intros s y clock al HP; cbn [run_actions].
  - exact HP.
  - destruct (existsb (String.eqb (id a)) ids) eqn:Ea; cbn [negb].
    + cbv zeta.
      pose proof (Hstep s y a (_execute_action w clock a) HP Ea) as HP'.
      destruct (success (_execute_action w clock a)).
      * apply IH. exact HP'.
      * destruct (if mr then _ else None).
        -- exact HP'.
        -- apply IH. exact HP'.
    + apply IH. exact HP.
Qed.

Lemma iterate_keeps
    (P : Session -> list ExecutionResult -> Prop) (ids : list string) :
  (forall s y a r,
     P s y -> existsb (String.eqb (id a)) ids = true ->
     P (add_result s a r) (y ++ [r])%list) ->
  forall w max_iterations remaining p s y clock,
    P s y ->
    P (fst (iterate w ids max_iterations remaining p s y clock))
      (snd (iterate w ids max_iterations remaining p s y clock)).
Proof.
  intros Hstep w mx remaining.
  induction remaining as [|n IH]; intros p s y clock HP; cbn [iterate].
  - exact HP.
  - cbv zeta.
    pose proof (@run_actions_keeps P ids Hstep w (mx - n <? mx)%nat (actions p)
                  s y clock true HP) as HP'.
    destruct (pass_all_success _).
    + exact HP'.
    + apply IH. exact HP'.
Qed.

(** [execute] unfolded for a plan that was made and approved. *)
Lemma execute_approved self w sid tsk max_iterations p ids :
  plan_task_with_llm w tsk = inr p ->
  _get_consent self p = inr (true, ids) ->
  execute self w sid tsk max_iterations =
  let r := iterate w ids max_iterations max_iterations p
             (mkSession sid tsk EXECUTING (Some p) [] []) [] 0 in
  (set_state (fst r) COMPLETED, snd r).
Proof.
  intros Hp Hc. unfold execute. rewrite Hp, Hc. cbn [negb].
  unfold set_plan, set_state. cbn.
  destruct (iterate _ _ _ _ _ _ _ _) as [s y]. reflexivity.
Qed.

(** The history of a session is aligned with what was yielded, and holds
    approved actions only. *)
Lemma execute_history self w sid tsk max_iterations p ids :
  plan_task_with_llm w tsk = inr p ->
  _get_consent self p = inr (true, ids) ->
  let r := execute self w sid tsk max_iterations in
  results (fst r) = snd r /\
  length (executed_actions (fst r)) = length (results (fst r)) /\
  Forall (fun a => In (id a) ids) (executed_actions (fst r)).
Proof.
  intros Hp Hc. cbv zeta. rewrite (@execute_approved self w sid tsk max_iterations p ids Hp Hc).
  cbv zeta. cbn [fst snd set_state results executed_actions].
  apply (@iterate_keeps
           (fun s y => results s = y /\
                       length (executed_actions s) = length (results s) /\
                       Forall (fun a => In (id a) ids) (executed_actions s)) ids).
  - intros s y a r (H1 & H2 & H3) Ha. cbn [add_result results executed_actions].
    split; [rewrite H1; reflexivity|]. split.
    + rewrite !length_app. cbn. lia.
    + apply Forall_app. split; [exact H3|]. constructor; [|constructor].
      apply existsb_exists in Ha. destruct Ha as (x & Hx & He).
      apply String.eqb_eq in He. subst x. exact Hx.
  - cbn. split; [reflexivity|]. split; [reflexivity | constructor].
Qed.

(** A pass in which every action succeeds runs the approved actions of the
    plan in order and asks for no recovery. *)
Lemma run_actions_all_succeed w ids may_recover :
  (forall k a, success (_execute_action w k a) = true) ->
  forall todo s y clock all_success,
    let ps := run_actions w ids may_recover todo s y clock all_success in
    let ran := filter (fun a => existsb (String.eqb (id a)) ids) todo in
    executed_actions (pass_session ps) = (executed_actions s ++ ran)%list /\
    results (pass_session ps) = (results s ++ Exec.run_each w clock ran)%list /\
    pass_yield ps = (y ++ Exec.run_each w clock ran)%list /\
    pass_all_success ps = all_success /\
    state (pass_session ps) = state s.
Proof.
  intros Hok todo.
  induction todo as [|a rest IH]; intros s y clock al; cbv zeta;
    cbn [run_actions filter].
  - cbn. rewrite !app_nil_r. repeat split; reflexivity.
  - destruct (existsb (String.eqb (id a)) ids) eqn:Ea; cbn [negb].
    + cbv zeta. rewrite Hok.
      specialize (IH (add_result s a (_execute_action w clock a))
                     (y ++ [_execute_action w clock a])%list (S clock) al).
      cbv zeta in IH. destruct IH as (H1 & H2 & H3 & H4 & H5).
      rewrite H1, H2, H3, H4, H5. cbn [add_result executed_actions results state
                                        Exec.run_each].
      rewrite <- !app_assoc. repeat split; reflexivity.
    + apply IH.
Qed.

End RunFacts.
Import Engine RunFacts.

(** X23. After [execute], the session holds one result per executed action.
    When it ends completed, its results are the results that were yielded;
    when it ends otherwise (planning or consent failed, or consent was
    declined), nothing was executed and the one result yielded is a
    failure. *)
Theorem session_history_matches_yielded
    (self : GaneshaEngine) (w : World) (sid tsk : string) (max_iterations : nat) :
  let r := execute self w sid tsk max_iterations in
  length (executed_actions (fst r)) = length (results (fst r)) /\
  match state (fst r) with
  | COMPLETED => results (fst r) = snd r
  | _ => executed_actions (fst r) = [] /\ map success (snd r) = [false]
  end.
Proof.
  cbv zeta.
  destruct (plan_task_with_llm w tsk) as [e | p] eqn:Ep.
  - unfold execute. rewrite Ep. cbn. repeat split; reflexivity.
  - destruct (_get_consent self p) as [e | [[|] ids]] eqn:Ec.
    + unfold execute. rewrite Ep, Ec. cbn. repeat split; reflexivity.
    + destruct (@execute_history self w sid tsk max_iterations p ids Ep Ec)
        as (H1 & H2 & _).
      split; [exact H2|].
      rewrite execute_final_state, Ep, Ec. exact H1.
    + unfold execute. rewrite Ep, Ec. cbn. repeat split; reflexivity.
Qed.

(** X24. Only approved actions are executed: every action in the history of the
    session has an id that consent returned.  This holds for the actions of
    a recovery plan as well, which are run only if their ids were among
    those approved for the first plan. *)
Theorem only_approved_actions_run
    (self : GaneshaEngine) (w : World) (sid tsk : string) (max_iterations : nat)
    (p : ExecutionPlan) (ids : list string) :
  plan_task_with_llm w tsk = inr p ->
  _get_consent self p = inr (true, ids) ->
  Forall (fun a => In (id a) ids)
    (executed_actions (fst (execute self w sid tsk max_iterations))).
Proof.
  intros Hp Hc.
  destruct (@execute_history self w sid tsk max_iterations p ids Hp Hc)
    as (_ & _ & H).
  exact H.
Qed.

Lemma only_approved_actions_run_witness :
  Forall (fun a => In (id a) ["a1"])
    (executed_actions
       (fst (execute engine_auto_approve world_always_failing "s1" "t" 3))).
Proof.
  apply (@only_approved_actions_run engine_auto_approve world_always_failing
           "s1" "t" 3 (mkExecutionPlan "p1" "t" [failing_action]) ["a1"]);
    reflexivity.
Defined.

(** X25. When every action succeeds and at least one iteration is allowed, the
    approved actions of the plan are executed once each, in the order of
    the plan, and nothing else is. *)
Theorem successful_plan_runs_once
    (self : GaneshaEngine) (w : World) (sid tsk : string) (n : nat)
    (p : ExecutionPlan) (ids : list string) :
  (forall k a, success (_execute_action w k a) = true) ->
  plan_task_with_llm w tsk = inr p ->
  _get_consent self p = inr (true, ids) ->
  let r := execute self w sid tsk (S n) in
  executed_actions (fst r) =
    filter (fun a => existsb (String.eqb (id a)) ids) (actions p) /\
  snd r = Exec.run_each w 0 (executed_actions (fst r)) /\
  state (fst r) = COMPLETED.
Proof.
  intros Hok Hp Hc. cbv zeta.
  rewrite (@execute_approved self w sid tsk (S n) p ids Hp Hc). cbv zeta.
  cbn [iterate]. cbv zeta.
  destruct (@run_actions_all_succeed w ids (S n - n <? S n)%nat Hok (actions p)
              (mkSession sid tsk EXECUTING (Some p) [] []) [] 0 true)
    as (H1 & H2 & H3 & H4 & H5).
  rewrite H4. cbn [fst snd set_state executed_actions state].
  rewrite H1, H3. cbn. repeat split; reflexivity.
Qed.

Lemma successful_plan_runs_once_witness :
  map id
    (executed_actions
       (fst (execute (mkGaneshaEngine false
                        (Some (fun _ _ => inr (true, ["a2"; "a1"]))))
               (mkWorld
                  (fun tsk => inr (mkExecutionPlan "p" tsk
                     [mkAction "a1" SHELL_COMMAND "ls" "" true None "low" true;
                      mkAction "a2" SHELL_COMMAND "pwd" "" true None "low" true;
                      mkAction "a3" SHELL_COMMAND "id" "" true None "low" true]))
                  (fun _ a => mkExecutionResult true "" "" 0 (Some (id a)))
                  (fun _ _ _ => None))
               "s" "t" 3)))
  = ["a1"; "a2"].
Proof.
  rewrite (proj1 (@successful_plan_runs_once
             (mkGaneshaEngine false (Some (fun _ _ => inr (true, ["a2"; "a1"]))))
             (mkWorld
                (fun tsk => inr (mkExecutionPlan "p" tsk
                   [mkAction "a1" SHELL_COMMAND "ls" "" true None "low" true;
                    mkAction "a2" SHELL_COMMAND "pwd" "" true None "low" true;
                    mkAction "a3" SHELL_COMMAND "id" "" true None "low" true]))
                (fun _ a => mkExecutionResult true "" "" 0 (Some (id a)))
                (fun _ _ _ => None))
             "s" "t" 2 _ _ (fun _ _ => eq_refl) eq_refl eq_refl)).
  reflexivity.
Defined.

(** X26. With [max_iterations] = 0 an approved plan ends completed although no
    action was executed and nothing was yielded. *)
Theorem zero_iterations_complete_nothing
    (self : GaneshaEngine) (w : World) (sid tsk : string)
    (p : ExecutionPlan) (ids : list string) :
  plan_task_with_llm w tsk = inr p ->
  _get_consent self p = inr (true, ids) ->
  execute self w sid tsk 0 = (mkSession sid tsk COMPLETED (Some p) [] [], []).
Proof.
  intros Hp Hc. rewrite (@execute_approved self w sid tsk 0 p ids Hp Hc). reflexivity.
Qed.

Lemma zero_iterations_complete_nothing_witness :
  execute engine_auto_approve world_always_failing "s1" "t" 0 =
  (mkSession "s1" "t" COMPLETED
     (Some (mkExecutionPlan "p1" "t" [failing_action])) [] [], []).
Proof.
  apply (@zero_iterations_complete_nothing engine_auto_approve
           world_always_failing "s1" "t" _ ["a1"]); reflexivity.
Defined.

(* ===================================================================== *)
(** ** Stored sessions, file actions and consent at the terminal *)
(* ===================================================================== *)

Module StoreFacts.
Import Engine Exec.

Lemma ActionType_round_trip t : ActionType_of_value (type_value t) = Some t.
Proof. destruct t; reflexivity. Qed.

Lemma TaskState_round_trip s : TaskState_of_value (state_value s) = Some s.
Proof. destruct s; reflexivity. Qed.

Lemma actions_round_trip l :
  actions_of_data (map Action_to_dict l) =
  Some (map (fun a => mkAction (id a) (type a) (command a) (explanation a)
                        (reversible a) (rollback_command a) "low" true) l).
Proof.
  induction l as [|a t IH]; [reflexivity|].
  cbn [map actions_of_data]. rewrite IH. unfold action_of_data, Action_to_dict.
  cbn [ad_type ad_id ad_command ad_explanation ad_reversible
       ad_rollback_command]. rewrite ActionType_round_trip. reflexivity.
Qed.

(** The rollback list does not look at the risk level of an action nor at
    its need for consent. *)
Lemma rollback_loop_relabel uuid l : forall k,
  rollback_loop uuid k
    (map (fun a => mkAction (id a) (type a) (command a) (explanation a)
                     (reversible a) (rollback_command a) "low" true) l)
  = rollback_loop uuid k l.
Proof.
  induction l as [|a t IH]; intros k; [reflexivity|].
  cbn [map rollback_loop reversible rollback_command type explanation].
  destruct (reversible a && truthy (rollback_command a)); rewrite IH; reflexivity.
Qed.

Lemma split_once_first path content :
  Forall (fun ch => ch <> "|"%char) path ->
  split_once (chars "|||") (path ++ chars "|||" ++ content)%list
  = Some (path, content).
Proof.
  induction 1 as [|c path Hc _ IH].
  - reflexivity.
  - cbn [app]. cbn [split_once]. rewrite IH.
    replace (starts_with (chars "|||") (c :: path ++ chars "|||" ++ content)%list)
      with false; [reflexivity|].
    unfold chars. cbn [list_ascii_of_string starts_with].
    destruct (Ascii.eqb_spec "|"%char c) as [E|_]; [|reflexivity].
    contradiction Hc. symmetry. exact E.
Qed.

End StoreFacts.
Import Exec StoreFacts.

(** X27. A session that was saved can be rolled back as it was: loading gives
    the same id, task and state and the executed actions with the same
    commands and rollback commands (the results and the plan are not read
    back), so [rollback] runs the rollback actions of the saved session. *)
Theorem saved_session_rolls_back_the_same
    (w : World) (uuid : nat -> string) (s : Session) :
  let s' :=
    mkSession (session_id s) (task s) (state s) None
      (map (fun a => mkAction (id a) (type a) (command a) (explanation a)
                       (reversible a) (rollback_command a) "low" true)
           (executed_actions s)) [] in
  _load_session (Some (session_to_data s)) = Found s' /\
  get_rollback_actions uuid s' = get_rollback_actions uuid s /\
  rollback w uuid (Some (session_to_data s)) =
    Some match get_rollback_actions uuid s with
         | [] => [mkExecutionResult false "" "No reversible actions to rollback"
                    0 None]
         | rollback_actions => run_each w 0 rollback_actions
         end.
Proof.
  cbv zeta.
  assert (E1 : _load_session (Some (session_to_data s)) =
               Found (mkSession (session_id s) (task s) (state s) None
                 (map (fun a => mkAction (id a) (type a) (command a)
                                  (explanation a) (reversible a)
                                  (rollback_command a) "low" true)
                      (executed_actions s)) [])).
  { unfold _load_session, session_to_data.
    cbn [sd_state sd_executed_actions sd_id sd_task].
    rewrite TaskState_round_trip, actions_round_trip. reflexivity. }
  assert (E2 : get_rollback_actions uuid
                 (mkSession (session_id s) (task s) (state s) None
                    (map (fun a => mkAction (id a) (type a) (command a)
                                     (explanation a) (reversible a)
                                     (rollback_command a) "low" true)
                         (executed_actions s)) [])
               = get_rollback_actions uuid s).
  { unfold get_rollback_actions. cbn [executed_actions].
    rewrite <- map_rev. apply rollback_loop_relabel. }
  split; [exact E1|]. split; [exact E2|].
  unfold rollback. rewrite E1, E2.
  destruct (get_rollback_actions uuid s); reflexivity.
Qed.

(** X28. A file write whose path holds no [|] is split where it was joined: for
    the command [path|||content] the engine creates the parent directory
    of [path] and then writes [content] to [path], whatever [content]
    holds, and succeeds exactly when both calls return. *)
Theorem file_write_splits_at_first_separator
    (h : Host) (duration : Z) (action : Action) (path content : string) :
  type action = FILE_WRITE ->
  command action = (path ++ "|||" ++ content)%string ->
  Forall (fun ch => ch <> "|"%char) (chars path) ->
  let r := Exec._execute_action h duration action in
  snd r = CallMkdirParent path ::
          match mkdir_parent h path with
          | Returns _ => [CallWriteText path content]
          | Raises _ => []
          end /\
  (success (fst r) = true <->
   exists u v, mkdir_parent h path = Returns u /\
               write_text h path content = Returns v).
Proof.
  intros Ht Hc Hp. cbv zeta. unfold Exec._execute_action. cbv zeta.
  rewrite Ht, Hc, !chars_app, (split_once_first _ Hp).
  unfold chars. rewrite !string_of_list_ascii_of_string.
  destruct (mkdir_parent h path) as [u | e]; cbn.
  - destruct (write_text h path content) as [v | e]; cbn.
    + split; [reflexivity|]. split; [intros _; eauto | reflexivity].
    + split; [reflexivity|].
      split; [discriminate | intros (u' & v' & _ & H); discriminate].
  - split; [reflexivity|].
    split; [discriminate | intros (u' & v' & H & _); discriminate].
Qed.

Lemma file_write_splits_at_first_separator_witness :
  snd (Exec._execute_action
         (mkHost (fun _ => Expired) (fun _ => false) (fun _ => Raises "")
            (fun _ => Returns tt) (fun _ _ => Returns tt) (fun x => x))
         7
         (mkAction "w1" FILE_WRITE "/tmp/notes.txt|||a ||| b" "" false None
            "low" true))
  = [CallMkdirParent "/tmp/notes.txt"; CallWriteText "/tmp/notes.txt" "a ||| b"].
Proof.
  apply (@file_write_splits_at_first_separator
           (mkHost (fun _ => Expired) (fun _ => false) (fun _ => Raises "")
              (fun _ => Returns tt) (fun _ _ => Returns tt) (fun x => x))
           7
           (mkAction "w1" FILE_WRITE "/tmp/notes.txt|||a ||| b" "" false None
              "low" true)
           "/tmp/notes.txt" "a ||| b").
  - reflexivity.
  - reflexivity.
  - cbn. repeat constructor; discriminate.
Defined.

Module ConsentFacts.
Import Engine CLI.

(** Once [all] was answered, the rest of the plan is approved without
    reading further. *)
Lemma ask_all rest : forall inputs acc,
  ask rest inputs true acc = Some (acc ++ map id rest)%list.
Proof.
  induction rest as [|a rest IH]; intros inputs acc; cbn [ask map].
  - rewrite app_nil_r. reflexivity.
  - rewrite IH, <- app_assoc. reflexivity.
Qed.

Lemma ask_extends todo : forall inputs all_approved acc ids,
  ask todo inputs all_approved acc = Some ids ->
  exists extra, ids = (acc ++ extra)%list /\
                incl extra (map id todo) /\
                length extra <= length todo.
Proof.
  induction todo as [|a rest IH]; intros inputs al acc ids; cbn [ask].
  - intros H. inversion H; subst. exists []. rewrite app_nil_r.
    split; [reflexivity|]. split; [apply incl_nil_l | cbn; lia].
  - assert (Hadd : forall inputs' al',
              ask rest inputs' al' (acc ++ [id a])%list = Some ids ->
              exists extra, ids = (acc ++ extra)%list /\
                            incl extra (map id (a :: rest)) /\
                            length extra <= length (a :: rest)).
    { intros inputs' al' H. destruct (IH _ _ _ _ H) as (ex & E & Hi & Hl).
      exists (id a :: ex). rewrite E, <- app_assoc. split; [reflexivity|].
      split; [|cbn; lia].
      intros x [<- | Hx]; [left; reflexivity | right; apply Hi; exact Hx]. }
    destruct al; [apply Hadd|].
    destruct inputs as [|[line|] more]; try discriminate.
    destruct (chosen line ["y"; "yes"; ""]); [apply Hadd|].
    destruct (chosen line ["a"; "all"]); [apply Hadd|].
    destruct (chosen line ["c"; "cancel"; "q"; "quit"]); [discriminate|].
    intros H. destruct (IH _ _ _ _ H) as (ex & E & Hi & Hl).
    exists ex. split; [exact E|]. split; [|cbn; lia].
    intros x Hx. right. apply Hi. exact Hx.
Qed.

(** An answer that cancels is neither a yes nor an [all]. *)
Lemma cancel_is_no_approval line :
  chosen line ["c"; "cancel"; "q"; "quit"] = true ->
  chosen line ["y"; "yes"; ""] = false /\ chosen line ["a"; "all"] = false.
Proof.
  unfold chosen.
  set (x := string_of_list_ascii (lower (strip (chars line)))). clearbody x.
  cbn [existsb]. intros H.
  repeat (apply orb_true_iff in H; destruct H as [H | H]);
    try discriminate;
    apply String.eqb_eq in H; rewrite H; split; reflexivity.
Qed.

Lemma ask_cancel a rest line more : forall pre lines acc,
  length lines = length pre ->
  Forall (fun l => chosen l ["a"; "all"] = false) lines ->
  chosen line ["c"; "cancel"; "q"; "quit"] = true ->
  ask (pre ++ a :: rest) (map Some lines ++ Some line :: more) false acc = None.
Proof.
  induction pre as [|b pre IH]; intros lines acc Hl Hf Hc.
  - destruct lines; [|discriminate]. cbn [app map ask].
    destruct (cancel_is_no_approval _ Hc) as [-> ->]. rewrite Hc. reflexivity.
  - destruct lines as [|l ls]; [discriminate|]. cbn [app map ask].
    inversion Hf as [|? ? Hl1 Hf']; subst. injection Hl as Hl.
    destruct (chosen l ["y"; "yes"; ""]); [apply IH; assumption|].
    rewrite Hl1.
    destruct (chosen l ["c"; "cancel"; "q"; "quit"]); [reflexivity|].
    apply IH; assumption.
Qed.

End ConsentFacts.
Import CLI ConsentFacts.

(** X29. Consent asked at the terminal returns approved exactly when it returns
    at least one id, and the ids it returns are ids of actions of the
    plan, no more of them than the plan has actions. *)
Theorem terminal_consent_outcomes
    (p : ExecutionPlan) (inputs : list (option string))
    (approved : bool) (approved_ids : list string) :
  request_consent (mkCLIConsentHandler false) p false inputs
    = (approved, approved_ids) ->
  (approved = true <-> approved_ids <> []) /\
  incl approved_ids (map id (actions p)) /\
  length approved_ids <= length (actions p).
Proof.
  unfold request_consent. cbn [orb handler_auto_approve].
  destruct (ask (actions p) inputs false []) as [[|x ids]|] eqn:Ea;
    intros H; inversion H; subst.
  - split; [split; [discriminate | intros C; contradiction C; reflexivity]|].
    split; [apply incl_nil_l | cbn; lia].
  - destruct (ask_extends _ _ _ _ Ea) as (ex & E & Hi & Hl).
    cbn [app] in E. subst ex.
    split; [split; [discriminate | reflexivity]|].
    split; assumption.
  - split; [split; [discriminate | intros C; contradiction C; reflexivity]|].
    split; [apply incl_nil_l | cbn; lia].
Qed.

Lemma terminal_consent_outcomes_witness :
  incl ["a1"; "a3"] ["a1"; "a2"; "a3"].
Proof.
  apply (@terminal_consent_outcomes
           (mkExecutionPlan "p" "t"
              [mkAction "a1" SHELL_COMMAND "ls" "" true None "low" true;
               mkAction "a2" SHELL_COMMAND "pwd" "" true None "low" true;
               mkAction "a3" SHELL_COMMAND "id" "" true None "low" true])
           [Some " Y "; Some "no"; Some "yes"] true ["a1"; "a3"]).
  vm_compute. reflexivity.
Defined.

(** X30. A cancel answer discards the approvals given before it: when the
    answers to the first actions are not [all] and the next answer is one
    of c, cancel, q, quit, the session ends cancelled, no action is
    executed, and the one result yielded says so. *)
Theorem cancel_discards_earlier_approvals
    (w : World) (sid tsk : string) (max_iterations : nat) (p : ExecutionPlan)
    (pre rest : list Action) (a : Action) (lines : list string) (line : string)
    (more : list (option string)) :
  plan_task_with_llm w tsk = inr p ->
  actions p = (pre ++ a :: rest)%list ->
  length lines = length pre ->
  Forall (fun l => chosen l ["a"; "all"] = false) lines ->
  chosen line ["c"; "cancel"; "q"; "quit"] = true ->
  execute (engine_with_terminal false (map Some lines ++ Some line :: more)%list)
    w sid tsk max_iterations
  = (mkSession sid tsk CANCELLED (Some p) [] [],
     [mkExecutionResult false "" "User cancelled" 0 None]).
Proof.
  intros Hp Ha Hl Hf Hc. unfold execute. rewrite Hp.
  unfold _get_consent, engine_with_terminal. cbn [auto_approve consent].
  unfold request_consent. cbn [orb handler_auto_approve]. rewrite Ha.
  rewrite (@ask_cancel a rest line more pre lines [] Hl Hf Hc). reflexivity.
Qed.

Lemma cancel_discards_earlier_approvals_witness :
  execute (engine_with_terminal false [Some "y"; Some "Cancel"; Some "y"])
    (mkWorld
       (fun tsk => inr (mkExecutionPlan "p" tsk
          [mkAction "a1" SHELL_COMMAND "ls" "" true None "low" true;
           mkAction "a2" SHELL_COMMAND "pwd" "" true None "low" true;
           mkAction "a3" SHELL_COMMAND "id" "" true None "low" true]))
       (fun _ a => mkExecutionResult true "" "" 0 (Some (id a)))
       (fun _ _ _ => None))
    "s" "t" 3
  = (mkSession "s" "t" CANCELLED
       (Some (mkExecutionPlan "p" "t"
          [mkAction "a1" SHELL_COMMAND "ls" "" true None "low" true;
           mkAction "a2" SHELL_COMMAND "pwd" "" true None "low" true;
           mkAction "a3" SHELL_COMMAND "id" "" true None "low" true])) [] [],
     [mkExecutionResult false "" "User cancelled" 0 None]).
Proof.
  apply (@cancel_discards_earlier_approvals
           (mkWorld
              (fun tsk => inr (mkExecutionPlan "p" tsk
                 [mkAction "a1" SHELL_COMMAND "ls" "" true None "low" true;
                  mkAction "a2" SHELL_COMMAND "pwd" "" true None "low" true;
                  mkAction "a3" SHELL_COMMAND "id" "" true None "low" true]))
              (fun _ a => mkExecutionResult true "" "" 0 (Some (id a)))
              (fun _ _ _ => None))
           "s" "t" 3
           (mkExecutionPlan "p" "t"
              [mkAction "a1" SHELL_COMMAND "ls" "" true None "low" true;
               mkAction "a2" SHELL_COMMAND "pwd" "" true None "low" true;
               mkAction "a3" SHELL_COMMAND "id" "" true None "low" true])
           [mkAction "a1" SHELL_COMMAND "ls" "" true None "low" true]
           [mkAction "a3" SHELL_COMMAND "id" "" true None "low" true]
           (mkAction "a2" SHELL_COMMAND "pwd" "" true None "low" true)
           ["y"] "Cancel" [Some "y"]);
    first [reflexivity | repeat constructor].
Defined.
